(** * tfind: time-range extraction from large log files

    A shallow embedding of [tfind.py] and the properties of its
    time-range extraction engine.

    Modelling conventions.
    - A Python [str] is a list of code points ([N]); [bytes] is a list of
      [Byte.byte].  Character classification ([str.isalpha], [str.isdigit],
      the regular-expression classes [\d] and [\w]) is the ASCII part of
      Python's tables: code points above U+007F are neither letters nor
      digits here.  White space ([str.isspace], [\s]) is Python's full list.
      A property that depends on the classes is stated for strings of ASCII
      characters, or of ASCII digits, where the tables are Python's.
    - The interpreter's libraries the tool calls are parameters of the
      development, collected in the record [Env]: the optional [dateutil]
      parser, [datetime.fromtimestamp], the terminal state.  A parsed
      timestamp is a [datetime] value, naive or aware (with its offset to
      UTC); comparing a naive with an aware value raises [TypeError], as in
      Python, and the run ends there.
    - The file is given by its content; an I/O failure is outside the model.
    - The loops of the tool that are not structural (the scan of the example
      string, the binary search) carry a fuel argument and report when it
      runs out; the properties show that the fuel they are given is always
      enough. *)

From Stdlib Require Import Strings.Ascii Strings.String Strings.Byte.
From Stdlib Require Import List NArith ZArith QArith Bool Arith Lia.
Import ListNotations.

Close Scope Q_scope.
Set Implicit Arguments.

(* ------------------------------------------------------------------------- *)
(** ** Python strings *)

Module Str.

Definition str := list N.

(** The code point of an ASCII character, and a [str] from a literal. *)
Definition chr (a : ascii) : N := N_of_ascii a.
Definition py (s : string) : str := map chr (list_ascii_of_string s).

Definition nl : N := 10%N.
Definition cr : N := 13%N.

Definition between (lo hi c : N) : bool := (lo <=? c)%N && (c <=? hi)%N.

(** [str.isdigit], [str.isalpha] (ASCII part). *)
Definition isdigit (c : N) : bool := between 48 57 c.
Definition isupper (c : N) : bool := between 65 90 c.
Definition islower (c : N) : bool := between 97 122 c.
Definition isalpha (c : N) : bool := isupper c || islower c.

(** [str.isspace], which is also the class [\s] of a [str] pattern. *)
Definition isspace (c : N) : bool :=
  between 9 13 c || between 28 32 c || (c =? 133)%N || (c =? 160)%N
  || (c =? 5760)%N || between 8192 8202 c || (c =? 8232)%N || (c =? 8233)%N
  || (c =? 8239)%N || (c =? 8287)%N || (c =? 12288)%N.

(** The class [\w] (ASCII part): letters, digits and the underscore. *)
Definition isword (c : N) : bool := isalpha c || isdigit c || (c =? 95)%N.

Definition swapcase (c : N) : N :=
  if isupper c then (c + 32)%N else if islower c then (c - 32)%N else c.

Fixpoint eqb (a b : str) : bool :=
  match a, b with
  | [], [] => true
  | x :: a', y :: b' => (x =? y)%N && eqb a' b'
  | _, _ => false
  end.

Fixpoint prefixb (p s : str) : bool :=
  match p, s with
  | [], _ => true
  | x :: p', y :: s' => (x =? y)%N && prefixb p' s'
  | _ :: _, [] => false
  end.

Fixpoint lstrip (s : str) : str :=
  match s with
  | c :: t => if isspace c then lstrip t else s
  | [] => []
  end.

Definition rstrip (s : str) : str := rev (lstrip (rev s)).

(** [s.strip()] *)
Definition strip (s : str) : str := rstrip (lstrip s).

(** [s.startswith(c)] and [s.endswith(c)] for a one-character argument. *)
Definition startswith (c : N) (s : str) : bool :=
  match s with x :: _ => (x =? c)%N | [] => false end.
Definition endswith (c : N) (s : str) : bool := startswith c (rev s).

(** [s[i:j]] for [0 <= i], [0 <= j]. *)
Definition slice (i j : nat) (s : str) : str := firstn (j - i) (skipn i s).

(** [s.replace(old, new)] for a one-character [old]. *)
Definition replace_char (old : N) (new s : str) : str :=
  flat_map (fun c => if (c =? old)%N then new else [c]) s.

(** [s.replace(old, new, 1)]: the first occurrence only. *)
Fixpoint replace1 (old new s : str) : str :=
  if prefixb old s then new ++ skipn (length old) s
  else match s with
       | [] => []
       | c :: t => c :: replace1 old new t
       end.

(** [ch in s] *)
Definition contains (c : N) (s : str) : bool := existsb (N.eqb c) s.

(** [int(s)] for a string of ASCII digits. *)
Definition int_of_digits (s : str) : Z :=
  fold_left (fun acc c => (10 * acc + (Z.of_N c - 48))%Z) s 0%Z.

End Str.
Import Str.

(* ------------------------------------------------------------------------- *)
(** ** Regular expressions: the part of Python's [re] the tool uses *)

Module Re.

(** Sets of characters. *)
Inductive cset :=
| CsDigit                       (* \d *)
| CsSpace                       (* \s *)
| CsChar (c : N)                (* a literal character *)
| CsRange (lo hi : N)           (* a-z inside a class *)
| CsUnion (a b : cset).         (* [...] *)

Inductive regex :=
| REmpty
| RChars (cs : cset) (lo : nat) (hi : option nat)  (* cs{lo,hi}, greedy *)
| RSeq (a b : regex)
| RAlt (a b : regex)
| ROpt (a : regex)                                 (* (?:a)?, greedy *)
| RGroup (a : regex)                               (* (a): group 1 *)
| RBol                                             (* ^ *)
| REol                                             (* $ *)
| RWordB.                                          (* \b *)

(** A compiled pattern: the expression and the flag [re.I]. *)
Record Pattern := { pat_re : regex; pat_icase : bool }.

(** *** [re.compile]

    A recursive-descent parser of the pattern syntax.  [None] stands for
    [re.error], and also for the syntax this model leaves out (repeated
    groups other than [(?:...)?], negated classes, [.], back references,
    lazy quantifiers).  The descent is bounded by a fuel argument; the
    patterns of the source, and the learned patterns the properties run,
    all compile within it. *)

Definition is_special (c : N) : bool :=
  contains c (py ".()[]{}^$|?+*\").

Fixpoint parse_nat_loop (acc : nat) (s : str) : nat * str :=
  match s with
  | c :: t => if isdigit c then parse_nat_loop (10 * acc + (N.to_nat c - 48)) t
              else (acc, s)
  | [] => (acc, [])
  end.

(** A number: at least one digit. *)
Definition parse_nat (s : str) : option (nat * str) :=
  match s with
  | c :: _ => if isdigit c then Some (parse_nat_loop 0 s) else None
  | [] => None
  end.

(** A quantifier, when one follows: [?], [+], [*], [{m}], [{m,}], [{m,n}]. *)
Definition parse_quant (s : str) : option (option (nat * option nat) * str) :=
  match s with
  | c :: t =>
      if (c =? chr "?")%N then Some (Some (0, Some 1), t)
      else if (c =? chr "+")%N then Some (Some (1, None), t)
      else if (c =? chr "*")%N then Some (Some (0, None), t)
      else if (c =? chr "{")%N then
        match parse_nat t with
        | Some (m, c1 :: t1) =>
            if (c1 =? chr "}")%N then Some (Some (m, Some m), t1)
            else if (c1 =? chr ",")%N then
              match t1 with
              | c2 :: t2 =>
                  if (c2 =? chr "}")%N then Some (Some (m, None), t2)
                  else match parse_nat t1 with
                       | Some (n, c3 :: t3) =>
                           if (c3 =? chr "}")%N then Some (Some (m, Some n), t3)
                           else None
                       | _ => None
                       end
              | [] => None
              end
            else None
        | _ => None
        end
      else Some (None, s)
  | [] => Some (None, [])
  end.

(** One member of a class: a character, an escape, or a range. *)
Definition class_atom (s : str) : option (option N * cset * str) :=
  match s with
  | c :: t =>
      if (c =? chr "\")%N then
        match t with
        | e :: t' =>
            if (e =? chr "d")%N then Some (None, CsDigit, t')
            else if (e =? chr "s")%N then Some (None, CsSpace, t')
            else if isword e then None
            else Some (Some e, CsChar e, t')
        | [] => None
        end
      else Some (Some c, CsChar c, t)
  | [] => None
  end.

Fixpoint parse_class (fuel : nat) (acc : option cset) (s : str)
  : option (cset * str) :=
  match fuel with
  | O => None
  | S f =>
      match s with
      | [] => None
      | c :: t =>
          if (c =? chr "]")%N then
            match acc with Some cs => Some (cs, t) | None => None end
          else
            match class_atom s with
            | Some (lo, cs, rest) =>
                let add x := match acc with
                             | Some a => Some (CsUnion a x)
                             | None => Some x
                             end in
                match lo, rest with
                | Some l, d :: h :: rest' =>
                    if (d =? chr "-")%N && negb (h =? chr "]")%N then
                      match class_atom (h :: rest') with
                      | Some (Some hc, _, rest2) =>
                          parse_class f (add (CsRange l hc)) rest2
                      | _ => None
                      end
                    else parse_class f (add cs) rest
                | _, _ => parse_class f (add cs) rest
                end
            | None => None
            end
      end
  end.

(** What a quantifier makes of the atom before it. *)
Definition quantify (a : regex) (q : option (nat * option nat)) : option regex :=
  match q with
  | None => Some a
  | Some (lo, hi) =>
      match a with
      | RChars cs 1 (Some 1) => Some (RChars cs lo hi)
      | RBol | REol | RWordB | REmpty => None
      | _ => match lo, hi with
             | 0, Some 1 => Some (ROpt a)
             | _, _ => None
             end
      end
  end.

Definition one (cs : cset) : regex := RChars cs 1 (Some 1).

Fixpoint parse_alt (fuel : nat) (s : str) : option (regex * str) :=
  match fuel with
  | O => None
  | S f =>
      match parse_seq f s with
      | Some (a, c :: rest) =>
          if (c =? chr "|")%N then
            match parse_alt f rest with
            | Some (b, rest') => Some (RAlt a b, rest')
            | None => None
            end
          else Some (a, c :: rest)
      | r => r
      end
  end
with parse_seq (fuel : nat) (s : str) : option (regex * str) :=
  match fuel with
  | O => None
  | S f =>
      match s with
      | [] => Some (REmpty, [])
      | c :: _ =>
          if (c =? chr "|")%N || (c =? chr ")")%N then Some (REmpty, s)
          else
            match parse_item f s with
            | Some (a, rest) =>
                match parse_seq f rest with
                | Some (REmpty, rest') => Some (a, rest')
                | Some (b, rest') => Some (RSeq a b, rest')
                | None => None
                end
            | None => None
            end
      end
  end
with parse_item (fuel : nat) (s : str) : option (regex * str) :=
  match fuel with
  | O => None
  | S f =>
      let quantified (a : regex) (rest : str) :=
        match parse_quant rest with
        | Some (q, rest') =>
            match q, rest' with
            | Some _, c :: _ =>
                if (c =? chr "?")%N || (c =? chr "+")%N then None
                else match quantify a q with
                     | Some r => Some (r, rest')
                     | None => None
                     end
            | _, _ => match quantify a q with
                      | Some r => Some (r, rest')
                      | None => None
                      end
            end
        | None => None
        end in
      match s with
      | [] => None
      | c :: t =>
          if (c =? chr "(")%N then
            let (capture, body) :=
              match t with
              | q :: k :: t' =>
                  if (q =? chr "?")%N && (k =? chr ":")%N then (false, t')
                  else (true, t)
              | _ => (true, t)
              end in
            match parse_alt f body with
            | Some (a, d :: rest) =>
                if (d =? chr ")")%N
                then quantified (if capture then RGroup a else a) rest
                else None
            | _ => None
            end
          else if (c =? chr "[")%N then
            match t with
            | x :: _ =>
                if (x =? chr "^")%N then None
                else match parse_class (length t) None t with
                     | Some (cs, rest) => quantified (one cs) rest
                     | None => None
                     end
            | [] => None
            end
          else if (c =? chr "\")%N then
            match t with
            | e :: rest =>
                if (e =? chr "d")%N then quantified (one CsDigit) rest
                else if (e =? chr "s")%N then quantified (one CsSpace) rest
                else if (e =? chr "b")%N then quantified RWordB rest
                else if isword e then None
                else quantified (one (CsChar e)) rest
            | [] => None
            end
          else if (c =? chr "^")%N then quantified RBol t
          else if (c =? chr "$")%N then quantified REol t
          else if is_special c then None
          else quantified (one (CsChar c)) t
      end
  end.

(** [re.compile(pattern, flags)] *)
Definition compile (icase : bool) (pattern : str) : option Pattern :=
  match parse_alt (3 * length pattern + 3) pattern with
  | Some (r, []) => Some {| pat_re := r; pat_icase := icase |}
  | _ => None
  end.

(** *** Matching

    A backtracking matcher in continuation-passing style: it tries the
    alternatives in the order of Python's engine (greedy repetition from the
    longest run down, the branches of [|] from left to right), so the first
    success is the match [re] reports. *)

Fixpoint in_cset (cs : cset) (c : N) : bool :=
  match cs with
  | CsDigit => isdigit c
  | CsSpace => isspace c
  | CsChar x => (c =? x)%N
  | CsRange lo hi => between lo hi c
  | CsUnion a b => in_cset a c || in_cset b c
  end.

Definition cs_match (icase : bool) (cs : cset) (c : N) : bool :=
  in_cset cs c || (icase && in_cset cs (swapcase c)).

(** The position in the subject, the character before it, what is left of
    the subject, and the span of group 1 when it has closed. *)
Record mstate := {
  ms_pos : nat;
  ms_prev : option N;
  ms_rest : str;
  ms_group : option (nat * nat)
}.

Definition advance (j : nat) (st : mstate) : mstate :=
  {| ms_pos := ms_pos st + j;
     ms_prev := match j with
                | O => ms_prev st
                | S j' => nth_error (ms_rest st) j'
                end;
     ms_rest := skipn j (ms_rest st);
     ms_group := ms_group st |}.

Definition close_group (from : nat) (st : mstate) : mstate :=
  {| ms_pos := ms_pos st; ms_prev := ms_prev st; ms_rest := ms_rest st;
     ms_group := Some (from, ms_pos st) |}.

(** The length of the run of characters of [s] in the class, at most [cap]. *)
Fixpoint run_length (p : N -> bool) (cap : option nat) (s : str) : nat :=
  match s with
  | c :: t =>
      if p c then
        match cap with
        | Some O => O
        | Some (S n) => S (run_length p (Some n) t)
        | None => S (run_length p None t)
        end
      else O
  | [] => O
  end.

Section Matcher.
Variable A : Type.

(** Greedy repetition: [j] characters, then [j - 1], ... down to [lo]. *)
Fixpoint try_counts (j lo : nat) (st : mstate) (k : mstate -> option A)
  : option A :=
  if j <? lo then None
  else match k (advance j st) with
       | Some x => Some x
       | None => match j with
                 | O => None
                 | S j' => try_counts j' lo st k
                 end
       end.

Definition at_word (c : option N) : bool :=
  match c with Some x => isword x | None => false end.

Fixpoint rmatch (icase : bool) (r : regex) (st : mstate)
         (k : mstate -> option A) : option A :=
  match r with
  | REmpty => k st
  | RChars cs lo hi =>
      try_counts (run_length (cs_match icase cs) hi (ms_rest st)) lo st k
  | RSeq a b => rmatch icase a st (fun st' => rmatch icase b st' k)
  | RAlt a b =>
      match rmatch icase a st k with
      | Some x => Some x
      | None => rmatch icase b st k
      end
  | ROpt a =>
      match rmatch icase a st k with
      | Some x => Some x
      | None => k st
      end
  | RGroup a => rmatch icase a st (fun st' => k (close_group (ms_pos st) st'))
  | RBol => if ms_pos st =? 0 then k st else None
  | REol =>
      match ms_rest st with
      | [] => k st
      | [c] => if (c =? nl)%N then k st else None
      | _ => None
      end
  | RWordB =>
      if xorb (at_word (ms_prev st)) (at_word (hd_error (ms_rest st)))
      then k st else None
  end.
End Matcher.

(** A match object: its span and the span of group 1. *)
Record Match := { m_start : nat; m_end : nat; m_group1 : option (nat * nat) }.

Definition match_here (p : Pattern) (full : bool) (st : mstate) : option Match :=
  rmatch (pat_icase p) (pat_re p) st
    (fun st' =>
       if full && negb (match ms_rest st' with [] => true | _ => false end)
       then None
       else Some {| m_start := ms_pos st; m_end := ms_pos st';
                    m_group1 := ms_group st' |}).

Definition start_state (s : str) : mstate :=
  {| ms_pos := 0; ms_prev := None; ms_rest := s; ms_group := None |}.

(** [pattern.match(s)] and [pattern.fullmatch(s)] *)
Definition match_ (p : Pattern) (s : str) : option Match :=
  match_here p false (start_state s).
Definition fullmatch (p : Pattern) (s : str) : option Match :=
  match_here p true (start_state s).

(** [pattern.search(s)]: the leftmost start that matches. *)
Fixpoint search_from (p : Pattern) (pos : nat) (prev : option N) (rest : str)
  : option Match :=
  match match_here p false
          {| ms_pos := pos; ms_prev := prev; ms_rest := rest; ms_group := None |}
  with
  | Some m => Some m
  | None => match rest with
            | [] => None
            | c :: t => search_from p (S pos) (Some c) t
            end
  end.
Definition search (p : Pattern) (s : str) : option Match :=
  search_from p 0 None s.

(** [m.group(1)] on the subject [s]. *)
Definition group1 (s : str) (m : Match) : option str :=
  match m_group1 m with
  | Some (i, j) => Some (slice i j s)
  | None => None
  end.

(** [bool(pattern.search(s))] *)
Definition found (p : Pattern) (s : str) : bool :=
  match search p s with Some _ => true | None => false end.

End Re.

(* ------------------------------------------------------------------------- *)
(** ** [bytes.decode] *)

Module Codec.

Definition bytes := list byte.

Inductive exn := UnicodeDecodeError | OSError | ValueError | TypeError.

(** The [errors] argument of [bytes.decode]. *)
Inductive errors := Strict | Ignore | Replace.

(** What the UTF-8 decoder finds: a code point, or a run of bytes that
    encodes none (the run the error handler is called for). *)
Inductive piece := Cp (c : N) | Bad (len : nat).

Definition is_cont (b : N) : bool := between 128 191 b.

(** The second byte of a sequence, whose range depends on the first:
    no overlong forms, no surrogates, nothing above U+10FFFF. *)
Definition second_ok (b0 b1 : N) : bool :=
  if (b0 =? 224)%N then between 160 191 b1
  else if (b0 =? 237)%N then between 128 159 b1
  else if (b0 =? 240)%N then between 144 191 b1
  else if (b0 =? 244)%N then between 128 143 b1
  else is_cont b1.

Definition low6 (b : N) : N := N.land b 63.

Fixpoint utf8_scan (bs : list N) : list piece :=
  match bs with
  | [] => []
  | b0 :: r0 =>
      if (b0 <? 128)%N then Cp b0 :: utf8_scan r0
      else if between 194 223 b0 then
        match r0 with
        | [] => [Bad 1]
        | b1 :: r1 =>
            if is_cont b1
            then Cp (N.lor (N.shiftl (N.land b0 31) 6) (low6 b1)) :: utf8_scan r1
            else Bad 1 :: utf8_scan r0
        end
      else if between 224 239 b0 then
        match r0 with
        | [] => [Bad 1]
        | b1 :: r1 =>
            if second_ok b0 b1 then
              match r1 with
              | [] => [Bad 2]
              | b2 :: r2 =>
                  if is_cont b2
                  then Cp (N.lor (N.shiftl (N.land b0 15) 12)
                             (N.lor (N.shiftl (low6 b1) 6) (low6 b2)))
                       :: utf8_scan r2
                  else Bad 2 :: utf8_scan r1
              end
            else Bad 1 :: utf8_scan r0
        end
      else if between 240 244 b0 then
        match r0 with
        | [] => [Bad 1]
        | b1 :: r1 =>
            if second_ok b0 b1 then
              match r1 with
              | [] => [Bad 2]
              | b2 :: r2 =>
                  if is_cont b2 then
                    match r2 with
                    | [] => [Bad 3]
                    | b3 :: r3 =>
                        if is_cont b3
                        then Cp (N.lor (N.shiftl (N.land b0 7) 18)
                                   (N.lor (N.shiftl (low6 b1) 12)
                                      (N.lor (N.shiftl (low6 b2) 6) (low6 b3))))
                             :: utf8_scan r3
                        else Bad 3 :: utf8_scan r2
                    end
                  else Bad 2 :: utf8_scan r1
              end
            else Bad 1 :: utf8_scan r0
        end
      else Bad 1 :: utf8_scan r0
  end.

Definition replacement_character : N := 65533%N.

(** The code points among the pieces. *)
Fixpoint code_points (ps : list piece) : str :=
  match ps with
  | [] => []
  | Cp c :: t => c :: code_points t
  | Bad _ :: t => code_points t
  end.

(** The error handler applied to the pieces, from left to right. *)
Fixpoint handle (e : errors) (ps : list piece) : exn + str :=
  match ps with
  | [] => inr []
  | Cp c :: t =>
      match handle e t with inr s => inr (c :: s) | inl x => inl x end
  | Bad _ :: t =>
      match e with
      | Strict => inl UnicodeDecodeError
      | Ignore => handle e t
      | Replace =>
          match handle e t with
          | inr s => inr (replacement_character :: s)
          | inl x => inl x
          end
      end
  end.

(** [b.decode('utf-8', errors=e)] and [b.decode('latin1', errors=e)] *)
Definition decode_utf8 (e : errors) (b : bytes) : exn + str :=
  handle e (utf8_scan (map Byte.to_N b)).
Definition decode_latin1 (e : errors) (b : bytes) : exn + str :=
  inr (map Byte.to_N b).

(** [s.encode('ascii')] of a literal, for writing files down. *)
Definition ascii_bytes (s : string) : bytes := list_byte_of_string s.

End Codec.
Import Codec.

(* ------------------------------------------------------------------------- *)
(** ** [datetime] values, naive and aware *)

Module Datetime.

Record date := { year : Z; month : Z; day : Z }.
Record time := { hour : Z; minute : Z; second : Z; microsecond : Z }.

(** A [datetime]: what [dt.date()], [dt.time()] and [dt.utcoffset()] return.
    The time of day carries no zone; the offset is in microseconds, and is
    [None] for a naive value. *)
Record datetime := { dt_date : date; dt_time : time; utcoffset : option Z }.

(** [datetime.combine(d, t)] for a time of day without zone: a naive
    value.  The tool calls it with [dt.time()], which drops the zone. *)
Definition combine (d : date) (t : time) : datetime :=
  {| dt_date := d; dt_time := t; utcoffset := None |}.

(** Python orders naive datetimes by their fields, the most significant
    first. *)
Definition key (a : datetime) : list Z :=
  [year (dt_date a); month (dt_date a); day (dt_date a);
   hour (dt_time a); minute (dt_time a); second (dt_time a);
   microsecond (dt_time a)].

Fixpoint lex_compare (a b : list Z) : comparison :=
  match a, b with
  | [], [] => Eq
  | [], _ :: _ => Lt
  | _ :: _, [] => Gt
  | x :: a', y :: b' =>
      match (x ?= y)%Z with
      | Eq => lex_compare a' b'
      | c => c
      end
  end.

Definition compare (a b : datetime) : comparison := lex_compare (key a) (key b).

(** [d.toordinal()]: the day number in the proleptic Gregorian calendar. *)
Definition is_leap (y : Z) : bool :=
  ((y mod 4 =? 0) && (negb (y mod 100 =? 0) || (y mod 400 =? 0)))%Z.
Definition days_before_year (y : Z) : Z :=
  (let p := y - 1 in p * 365 + p / 4 - p / 100 + p / 400)%Z.
Definition days_before_month (y m : Z) : Z :=
  (nth (Z.to_nat m) [0; 0; 31; 59; 90; 120; 151; 181; 212; 243; 273; 304; 334] 0
   + (if (2 <? m) && is_leap y then 1 else 0))%Z.
Definition toordinal (d : date) : Z :=
  (days_before_year (year d) + days_before_month (year d) (month d) + day d)%Z.

(** The microseconds from the start of day 0 to the date and time a value
    shows, and to the instant an aware value with the offset [off] stands
    for. *)
Definition wall (a : datetime) : Z :=
  ((((toordinal (dt_date a) * 24 + hour (dt_time a)) * 60
     + minute (dt_time a)) * 60 + second (dt_time a)) * 1000000
   + microsecond (dt_time a))%Z.
Definition instant (a : datetime) (off : Z) : Z := (wall a - off)%Z.

(** The comparison behind [<], [<=] and [>].  Two naive values are
    compared by their fields; two aware values by the instants they stand
    for (with equal offsets Python compares the fields, which is the same
    order for fields in range: [cmp_same_offset] below); a naive and an
    aware value cannot be compared: [None] stands for the [TypeError]
    Python raises. *)
Definition cmp (a b : datetime) : option comparison :=
  match utcoffset a, utcoffset b with
  | None, None => Some (compare a b)
  | Some oa, Some ob => Some (instant a oa ?= instant b ob)%Z
  | _, _ => None
  end.

(** The days of month [m] in year [y], and the values whose fields are in
    the ranges Python's constructors accept (the year apart, which the
    order does not need). *)
Definition days_in_month (y m : Z) : Z :=
  if (m =? 2)%Z then (if is_leap y then 29 else 28)%Z
  else nth (Z.to_nat m) [0; 31; 28; 31; 30; 31; 30; 31; 31; 30; 31; 30; 31]%Z 0%Z.
Definition fields_in_range (a : datetime) : Prop :=
  (1 <= month (dt_date a) <= 12
   /\ 1 <= day (dt_date a) <= days_in_month (year (dt_date a)) (month (dt_date a))
   /\ 0 <= hour (dt_time a) < 24
   /\ 0 <= minute (dt_time a) < 60
   /\ 0 <= second (dt_time a) < 60
   /\ 0 <= microsecond (dt_time a) < 1000000)%Z.

(** [a < b], [a <= b], [a > b] *)
Definition dt_lt (a b : datetime) : option bool :=
  match cmp a b with
  | Some Lt => Some true
  | Some _ => Some false
  | None => None
  end.
Definition dt_le (a b : datetime) : option bool :=
  match cmp a b with
  | Some Gt => Some false
  | Some _ => Some true
  | None => None
  end.
Definition dt_gt (a b : datetime) : option bool :=
  match cmp a b with
  | Some Gt => Some true
  | Some _ => Some false
  | None => None
  end.

(** What two values that can be compared are ordered by. *)
Definition order_key (a : datetime) : list Z :=
  match utcoffset a with
  | None => key a
  | Some off => [instant a off]
  end.

End Datetime.
Import Datetime.

(* ------------------------------------------------------------------------- *)
(** ** The tool *)

Module Tfind.
Import Re.

(** What the tool takes from the interpreter and the machine. *)
Record Env := {
  (** [dateutil.parser.parse(value, fuzzy=b)], [None] when the module cannot
      be imported; the result is [None] when the call raises. *)
  dateutil_parser : option (bool -> str -> option datetime);
  (** [datetime.fromtimestamp(x)]; [None] when it raises.  The float
      [iv / 1000.0] is passed as the rational it stands for. *)
  fromtimestamp : Q -> option datetime;
  (** [sys.stdout.isatty()] *)
  stdout_isatty : bool;
  (** [os.environ.get("NO_COLOR")] *)
  environ_NO_COLOR : option str;
  (** The content of the file at a path; [None] when it cannot be opened. *)
  fs_read : str -> option bytes
}.

(** How a run ends, and what it has written to standard output by then. *)
Inductive exit_arg := ExitCode (n : Z) | ExitMsg (msg : str).
Inductive control :=
| Returned
| SysExit (arg : exit_arg)
| Uncaught (e : exn)
| NoFuel.          (* the fuel of the model ran out: shown never to happen *)
Record Run := { run_stdout : str; run_control : control }.

(** The exit status of the process. *)
Definition exit_code (c : control) : Z :=
  match c with
  | Returned => 0
  | SysExit (ExitCode n) => n
  | SysExit (ExitMsg _) => 1
  | Uncaught _ => 1
  | NoFuel => 0
  end%Z.

(** What the interpreter writes to standard error when the run ends
    ([sys.exit] with a string prints it); the text of a traceback is not
    modelled. *)
Definition stderr_text (c : control) : option str :=
  match c with
  | Returned => Some []
  | SysExit (ExitCode _) => Some []
  | SysExit (ExitMsg m) => Some (m ++ [nl])
  | Uncaught _ => None
  | NoFuel => None
  end.

(** A loop over byte offsets ends with a value, with an exception, or runs
    out of the fuel of the model. *)
Inductive result (A : Type) := Ok (a : A) | Raise (e : exn) | OutOfFuel.
Arguments Ok {A} a.
Arguments Raise {A} e.
Arguments OutOfFuel {A}.

(** *** ANSI colors *)

Definition esc : N := 27%N.

Definition COLOR_CODES : list (str * str) :=
  [ (py "reset", esc :: py "[0m");
    (py "cyan", esc :: py "[36m");
    (py "yellow", esc :: py "[33m");
    (py "green", esc :: py "[32m");
    (py "red", esc :: py "[31m");
    (py "magenta", esc :: py "[35m");
    (py "blue", esc :: py "[34m") ].

(** [d.get(k, default)] *)
Fixpoint dict_get (d : list (str * str)) (k : str) (default : str) : str :=
  match d with
  | [] => default
  | (k', v) :: t => if Str.eqb k' k then v else dict_get t k default
  end.

(** The truth value of a string: the empty string is false. *)
Definition truthy (s : str) : bool :=
  match s with [] => false | _ :: _ => true end.

Definition ansi_enabled (env : Env) : bool :=
  stdout_isatty env
  && negb (match environ_NO_COLOR env with Some v => truthy v | None => false end).

Definition colorize (text color : str) : str :=
  dict_get COLOR_CODES color (dict_get COLOR_CODES (py "cyan") [])
  ++ text ++ dict_get COLOR_CODES (py "reset") [].

(** *** Module-level patterns *)

(** A pattern written in the source compiles; the default is never taken. *)
Definition never : Pattern :=
  {| pat_re := RChars (CsRange 1 0) 1 (Some 1); pat_icase := false |}.
Definition must (o : option Pattern) : Pattern :=
  match o with Some p => p | None => never end.

Definition EPOCH_RE : Pattern :=
  Eval vm_compute in must (compile false (py "^\d{10}(?:\d{3})?$")).
Definition TIME_CORE_RE : Pattern :=
  Eval vm_compute in must (compile false (py "\d{1,2}:\d{2}:\d{2}(?:\.\d{1,6})?")).
Definition MONTH_RE : Pattern :=
  Eval vm_compute in
    must (compile true
            (py "(?:Jan|Feb|Mar|Apr|May|Jun|Jul|Aug|Sep|Oct|Nov|Dec)[a-z]*")).

(** The patterns written in place in [input_is_time_only] and
    [parse_line_timestamp]. *)
Definition CLOCK_RE : Pattern :=
  Eval vm_compute in must (compile false (py "\d{1,2}:\d{2}")).
Definition YEAR_RE : Pattern :=
  Eval vm_compute in must (compile false (py "\b\d{4}\b")).
Definition MONTH_DAY_RE : Pattern :=
  Eval vm_compute in must (compile false (py "\b\d{1,2}[\-/]\d{1,2}\b")).

(** [int(value)]: white space around the digits is dropped. *)
Definition py_int (value : str) : Z := int_of_digits (strip value).

Section WithEnv.
Variable env : Env.

Definition parse_epoch (value : str) : option datetime :=
  match match_ EPOCH_RE value with
  | None => None
  | Some _ =>
      let iv := py_int value in
      if length value =? 13
      then fromtimestamp env (Qmake iv 1000)
      else fromtimestamp env (inject_Z iv)
  end.

Definition parse_user_datetime (value : str) : option datetime :=
  match parse_epoch value with
  | Some dt => Some dt
  | None =>
      match dateutil_parser env with
      | None => None
      | Some parse => parse false value
      end
  end.

Definition input_is_time_only (s : str) : bool :=
  let has_time := found CLOCK_RE s in
  let has_year := found YEAR_RE s in
  let has_month_day := found MONTH_DAY_RE s || found MONTH_RE s in
  has_time && negb (has_year || has_month_day).

Definition SPECIALS : str := py ".()[]{}^$|?+*\\".

Definition escape_lit (ch : N) : str :=
  if contains ch SPECIALS then [chr "\"; ch] else [ch].

(** The longest prefix of [s] in a class, and the rest. *)
Fixpoint span (p : N -> bool) (s : str) : str * str :=
  match s with
  | c :: t => if p c then let (a, b) := span p t in (c :: a, b) else ([], s)
  | [] => ([], [])
  end.

Definition is_colon (c : option N) : bool :=
  match c with Some x => (x =? chr ":")%N | None => false end.

(** The scan of [build_regex_from_example]: [prev] is [s[i-1]] when
    [i > 0], and [s] is what is left from index [i] on.  Each step takes
    at least one character, so [len(s)] steps of fuel are enough. *)
Fixpoint tokenize (fuel : nat) (prev : option N) (s : str)
  : option (list str) :=
  match s with
  | [] => Some []
  | ch :: t =>
      match fuel with
      | O => None
      | S f =>
          let continue_with (tok : str) (prev' : option N) (rest : str) :=
            match tokenize f prev' rest with
            | Some toks => Some (tok :: toks)
            | None => None
            end in
          if isalpha ch then
            let (word, rest) := span isalpha s in
            continue_with
              (match fullmatch MONTH_RE word with
               | Some _ => py "[A-Za-z]{3,9}"
               | None => py "[A-Za-z]+"
               end)
              (Some (last word ch)) rest
          else if isdigit ch then
            let (run, rest) := span isdigit s in
            continue_with
              (if is_colon prev || is_colon (hd_error rest)
               then py "\d{1,2}" else py "\d{1,4}")
              (Some (last run ch)) rest
          else if (ch =? chr ".")%N then
            continue_with (py "\.\d{1,9}") (Some ch) t
          else
            continue_with (escape_lit ch) (Some ch) t
      end
  end.

(** The text of the pattern [build_regex_from_example] compiles. *)
Definition regex_source (example : str) : option str :=
  let s := strip example in
  let s := if startswith (chr "[") s then tl s else s in
  let s := if endswith (chr "]") s then removelast s else s in
  match tokenize (length s) None s with
  | Some tokens =>
      let core := replace_char (chr " ") (py "\s+") (concat tokens) in
      Some (py "\[?(" ++ core ++ py ")\]?")
  | None => None
  end.

(** [None] when [re.compile] raises. *)
Definition build_regex_from_example (example : str) : option Pattern :=
  match regex_source example with
  | Some src => compile false src
  | None => None
  end.

Record Extractor := { user_pattern : option Pattern }.

(** [Extractor.extract]; [None] is Python's [None]. *)
Definition extract (self : Extractor) (line : str) : option str :=
  match
    match user_pattern self with
    | Some p => search p line
    | None => None
    end
  with
  | Some m => group1 line m
  | None =>
      match search TIME_CORE_RE line with
      | Some m =>
          let start := m_start m - 40 in
          let end_ := Nat.min (length line) (m_end m + 40) in
          Some (strip (slice start end_ line))
      | None =>
          match dateutil_parser env with
          | Some _ => if existsb isdigit line then Some line else None
          | None => None
          end
      end
  end.

Definition lacks_date (ts_text : str) : bool :=
  negb (found YEAR_RE ts_text)
  && negb (found MONTH_DAY_RE ts_text)
  && negb (found MONTH_RE ts_text).

Definition parse_line_timestamp (ts_text : str) (date_anchor : option date)
  : option datetime :=
  match parse_epoch ts_text with
  | Some dt => Some dt
  | None =>
      match dateutil_parser env with
      | None => None
      | Some parse =>
          match parse true ts_text with
          | None => None
          | Some dt =>
              match lacks_date ts_text, date_anchor with
              | true, Some d => Some (combine d (dt_time dt))
              | _, _ => Some dt
              end
          end
      end
  end.

(** [ts_text = extractor.extract(s)] followed by
    [parse_line_timestamp(ts_text, date_anchor) if ts_text else None]. *)
Definition line_timestamp (extractor : Extractor) (date_anchor : option date)
           (s : str) : option datetime :=
  match extract extractor s with
  | Some ts_text =>
      if truthy ts_text then parse_line_timestamp ts_text date_anchor else None
  | None => None
  end.

(** *** Files *)

Definition is_nl (b : byte) : bool := Byte.eqb b x0a.

(** [f.readline()] of a binary file at offset [pos]: the bytes up to and
    with the next line feed; the offset moves past them. *)
Fixpoint take_line (bs : bytes) : bytes :=
  match bs with
  | [] => []
  | b :: t => if is_nl b then [b] else b :: take_line t
  end.
Definition readline (data : bytes) (pos : nat) : bytes :=
  take_line (skipn pos data).

(** [for raw in f] from the current offset: the lines left. *)
Fixpoint lines_loop (cur : bytes) (bs : bytes) : list bytes :=
  match bs with
  | [] => match cur with [] => [] | _ => [rev cur] end
  | b :: t =>
      if is_nl b then rev (b :: cur) :: lines_loop [] t
      else lines_loop (b :: cur) t
  end.
Definition lines_from (data : bytes) (pos : nat) : list bytes :=
  lines_loop [] (skipn pos data).

(** The lines of a file opened in text mode: line ends [\r\n] and [\r]
    read as [\n]. *)
Fixpoint text_lines_loop (cur : str) (s : str) : list str :=
  match s with
  | [] => match cur with [] => [] | _ => [rev cur] end
  | c :: t =>
      if (c =? nl)%N then rev (nl :: cur) :: text_lines_loop [] t
      else if (c =? cr)%N then
        match t with
        | d :: t' =>
            if (d =? nl)%N then rev (nl :: cur) :: text_lines_loop [] t'
            else rev (nl :: cur) :: text_lines_loop [] t
        | [] => [rev (nl :: cur)]
        end
      else text_lines_loop (c :: cur) t
  end.

(** [open(path, 'r', encoding='utf-8', errors='ignore')] *)
Definition open_text (path : str) : option (list str) :=
  match fs_read env path with
  | None => None
  | Some data =>
      match decode_utf8 Ignore data with
      | inr s => Some (text_lines_loop [] s)
      | inl _ => None
      end
  end.

Definition file_size (path : str) : option nat :=
  match fs_read env path with
  | Some data => Some (length data)
  | None => None
  end.

(** The loop of [find_first_date_anchor], [n] rounds left. *)
Fixpoint anchor_loop (extractor : Extractor) (n : nat) (lines : list str)
  : option date :=
  match n with
  | O => None
  | S n' =>
      match lines with
      | [] => None
      | line :: rest =>
          match extract extractor line with
          | Some ts_text =>
              if truthy ts_text then
                match parse_line_timestamp ts_text None with
                | Some dt => Some (dt_date dt)
                | None => anchor_loop extractor n' rest
                end
              else anchor_loop extractor n' rest
          | None => anchor_loop extractor n' rest
          end
      end
  end.

Definition find_first_date_anchor (path : str) (extractor : Extractor)
  : option date :=
  match open_text path with
  | Some lines => anchor_loop extractor 2000 lines
  | None => None
  end.

(** The two-step decoding of a line read in binary mode. *)
Definition decode_line (raw : bytes) : exn + str :=
  match decode_utf8 Ignore raw with
  | inr s => inr s
  | inl _ => decode_latin1 Ignore raw
  end.

(** The loop of [binary_search_start] on the content [data].  The
    comparison [ts < target] raises [TypeError] when one of the two values
    is aware and the other naive. *)
Fixpoint bs_loop (data : bytes) (target : datetime) (extractor : Extractor)
         (date_anchor : option date) (fuel low hi : nat) : result nat :=
  if low <? hi then
    match fuel with
    | O => OutOfFuel
    | S fuel' =>
        let mid := (low + hi) / 2 in
        let pos := mid + length (readline data mid) in
        let line := readline data pos in
        match line with
        | [] => Ok low
        | _ :: _ =>
            match decode_line line with
            | inl e => Raise e
            | inr s =>
                match line_timestamp extractor date_anchor s with
                | None =>
                    bs_loop data target extractor date_anchor fuel' (pos + 1) hi
                | Some ts =>
                    match dt_lt ts target with
                    | None => Raise TypeError
                    | Some true =>
                        bs_loop data target extractor date_anchor fuel' (pos + 1) hi
                    | Some false =>
                        bs_loop data target extractor date_anchor fuel' low mid
                    end
                end
            end
        end
    end
  else Ok low.

(** [low = 0], [hi = file_size(path)], then the loop on the file opened in
    binary mode.  The loop halves [hi - low] or better, so [hi] rounds of
    fuel are enough. *)
Definition binary_search_start (path : str) (target : datetime)
           (extractor : Extractor) (date_anchor : option date) : result nat :=
  match file_size path with
  | None => Raise OSError
  | Some hi =>
      match fs_read env path with
      | None => Raise OSError
      | Some data => bs_loop data target extractor date_anchor hi 0 hi
      end
  end.

(** The streaming loop of [print_range] over the lines left in the file:
    what is written, and the exception that ends the loop, if any.  Each of
    [ts > end_dt] and [start_dt <= ts <= end_dt] raises [TypeError] on an
    aware and a naive value; the chained comparison looks at [ts <= end_dt]
    only when [start_dt <= ts] holds. *)
Fixpoint stream (extractor : Extractor) (date_anchor : option date)
         (start_dt end_dt : datetime) (do_color : bool) (color : str)
         (lines : list bytes) : list str * option exn :=
  match lines with
  | [] => ([], None)
  | raw :: rest =>
      match decode_line raw with
      | inl e => ([], Some e)
      | inr line =>
          let continue := stream extractor date_anchor start_dt end_dt
                            do_color color rest in
          match extract extractor line with
          | None => continue
          | Some ts_text =>
              if truthy ts_text then
                match parse_line_timestamp ts_text date_anchor with
                | None => continue
                | Some ts =>
                    match dt_gt ts end_dt with
                    | None => ([], Some TypeError)
                    | Some true => ([], None)
                    | Some false =>
                        match dt_le start_dt ts with
                        | None => ([], Some TypeError)
                        | Some false => continue
                        | Some true =>
                            match dt_le ts end_dt with
                            | None => ([], Some TypeError)
                            | Some false => continue
                            | Some true =>
                                let line' :=
                                  if do_color && truthy ts_text
                                  then replace1 ts_text (colorize ts_text color)
                                         line
                                  else line in
                                (line' :: fst continue, snd continue)
                            end
                        end
                    end
                end
              else continue
          end
      end
  end.

(** What [print_range] has settled before it searches: the bounds, the
    extractor and the anchor date. *)
Record Bounds := {
  b_start : datetime;
  b_end : datetime;
  b_extractor : Extractor;
  b_anchor : option date
}.

(** The order of the parsed bounds: [if end_dt < start_dt: swap];
    [None] when the comparison raises [TypeError]. *)
Definition ordered (start_dt end_dt : datetime) : option (datetime * datetime) :=
  match dt_lt end_dt start_dt with
  | Some true => Some (end_dt, start_dt)
  | Some false => Some (start_dt, end_dt)
  | None => None
  end.

Definition parse_error : str := py "Error: could not parse <start> or <end>.".

(** [print_range] up to the call of [binary_search_start]: the bounds as
    they are settled, or how the run has ended by then, through [sys.exit]
    or through the [TypeError] of [end_dt < start_dt]. *)
Definition resolve_bounds (path start_s end_s : str) : control + Bounds :=
  match parse_user_datetime start_s, parse_user_datetime end_s with
  | Some start_dt, Some end_dt =>
      match ordered start_dt end_dt with
      | None => inl (Uncaught TypeError)
      | Some (start_dt, end_dt) =>
          let user_pat :=
            if negb (input_is_time_only start_s)
               || negb (input_is_time_only end_s)
            then
              let exemplar :=
                if negb (input_is_time_only start_s) then start_s else end_s in
              build_regex_from_example exemplar
            else build_regex_from_example start_s in
          let extractor := {| user_pattern := user_pat |} in
          let need_anchor :=
            input_is_time_only start_s || input_is_time_only end_s in
          let date_anchor :=
            if need_anchor then find_first_date_anchor path extractor else None in
          let start_dt :=
            match need_anchor, date_anchor with
            | true, Some d =>
                if input_is_time_only start_s then combine d (dt_time start_dt)
                else start_dt
            | _, _ => start_dt
            end in
          let end_dt :=
            match need_anchor, date_anchor with
            | true, Some d =>
                if input_is_time_only end_s then combine d (dt_time end_dt)
                else end_dt
            | _, _ => end_dt
            end in
          inr {| b_start := start_dt; b_end := end_dt;
                 b_extractor := extractor; b_anchor := date_anchor |}
      end
  | _, _ => inl (SysExit (ExitMsg parse_error))
  end.

Definition print_range (path start_s end_s : str) (readability : bool)
           (color : str) : Run :=
  match resolve_bounds path start_s end_s with
  | inl c => {| run_stdout := []; run_control := c |}
  | inr b =>
      match binary_search_start path (b_start b) (b_extractor b) (b_anchor b) with
      | Ok start_pos =>
          let do_color := readability && ansi_enabled env in
          match fs_read env path with
          | None => {| run_stdout := []; run_control := Uncaught OSError |}
          | Some data =>
              let (out, e) :=
                stream (b_extractor b) (b_anchor b) (b_start b) (b_end b)
                  do_color color (lines_from data start_pos) in
              {| run_stdout := concat out;
                 run_control := match e with
                                | Some x => Uncaught x
                                | None => Returned
                                end |}
          end
      | Raise e => {| run_stdout := []; run_control := Uncaught e |}
      | OutOfFuel => {| run_stdout := []; run_control := NoFuel |}
      end
  end.

(** [a.split("=", 1)[1]] for an [a] that holds an [=]. *)
Fixpoint after_equals (a : str) : str :=
  match a with
  | [] => []
  | c :: t => if (c =? chr "=")%N then t else after_equals t
  end.

(** The loop of [main] over [argv[1:]]. *)
Fixpoint scan_args (argv : list str) (readability : bool) (color : str)
         (args : list str) : bool * str * list str :=
  match argv with
  | [] => (readability, color, args)
  | a :: rest =>
      if Str.eqb a (py "-r") || Str.eqb a (py "--readability")
      then scan_args rest true color args
      else if prefixb (py "--readability=") a
      then scan_args rest true (after_equals a) args
      else scan_args rest readability color (args ++ [a])
  end.

Definition usage : str :=
  py "Usage: tfind [--readability[=COLOR] | -r] <logfile> <start> <end>".

Definition main (argv : list str) : Run :=
  let '(readability, color, args) := scan_args (tl argv) false (py "cyan") [] in
  if length args <? 3 then
    {| run_stdout := usage ++ [nl]; run_control := SysExit (ExitCode 1) |}
  else
    match args with
    | [path; start_s; end_s] => print_range path start_s end_s readability color
    | _ => {| run_stdout := []; run_control := Uncaught ValueError |}
    end.

End WithEnv.

End Tfind.

(* ------------------------------------------------------------------------- *)
(** ** A sample environment

    A small date parser, the UTC clock and a one-file file system, to run
    the tool on concrete inputs.  The parser reads the two shapes
    [HH:MM:SS] (on the day [today], as [dateutil] does with its default) and
    [YYYY-MM-DD HH:MM:SS], each with or without a [Z] after it, and nothing
    else. *)

Module Sample.
Import Re Tfind.

Definition digit (c : N) : Z := (Z.of_N c - 48)%Z.
Definition two (a b : N) : Z := (10 * digit a + digit b)%Z.

Definition clock (s : str) : option time :=
  match s with
  | [h1; h2; c1; m1; m2; c2; s1; s2] =>
      if forallb isdigit [h1; h2; m1; m2; s1; s2]
         && (c1 =? chr ":")%N && (c2 =? chr ":")%N
      then Some {| hour := two h1 h2; minute := two m1 m2; second := two s1 s2;
                   microsecond := 0 |}
      else None
  | _ => None
  end.

Definition calendar (s : str) : option date :=
  match s with
  | [y1; y2; y3; y4; d1; m1; m2; d2; a1; a2] =>
      if forallb isdigit [y1; y2; y3; y4; m1; m2; a1; a2]
         && (d1 =? chr "-")%N && (d2 =? chr "-")%N
      then Some {| year := 100 * two y1 y2 + two y3 y4; month := two m1 m2;
                   day := two a1 a2 |}
      else None
  | _ => None
  end.

Definition today : date := {| year := 2026; month := 11; day := 4 |}.

(** A trailing [Z] names the zone UTC: the value is aware, with offset 0. *)
Definition zoned (s : str) : str * option Z :=
  if endswith (chr "Z") s then (removelast s, Some 0%Z) else (s, None).

Definition parse (fuzzy : bool) (s : str) : option datetime :=
  let (body, off) := zoned s in
  match clock body with
  | Some t => Some {| dt_date := today; dt_time := t; utcoffset := off |}
  | None =>
      match calendar (firstn 10 body), skipn 10 body with
      | Some d, sp :: rest =>
          if (sp =? chr " ")%N then
            match clock rest with
            | Some t => Some {| dt_date := d; dt_time := t; utcoffset := off |}
            | None => None
            end
          else None
      | _, _ => None
      end
  end.

(** The civil date of a day count from 1970-01-01. *)
Definition civil (days : Z) : date :=
  let z := (days + 719468)%Z in
  let era := (z / 146097)%Z in
  let doe := (z - era * 146097)%Z in
  let yoe := ((doe - doe / 1460 + doe / 36524 - doe / 146096) / 365)%Z in
  let doy := (doe - (365 * yoe + yoe / 4 - yoe / 100))%Z in
  let mp := ((5 * doy + 2) / 153)%Z in
  let d := (doy - (153 * mp + 2) / 5 + 1)%Z in
  let m := (if mp <? 10 then mp + 3 else mp - 9)%Z in
  let y := (yoe + era * 400 + (if m <=? 2 then 1 else 0))%Z in
  {| year := y; month := m; day := d |}.

(** [datetime.fromtimestamp] in the time zone UTC, for the years 1 to 9999. *)
Definition utc_fromtimestamp (x : Q) : option datetime :=
  let us := (Qnum x * 1000000 / Zpos (Qden x))%Z in
  let secs := (us / 1000000)%Z in
  let d := civil (secs / 86400) in
  let r := (secs mod 86400)%Z in
  if (1 <=? year d)%Z && (year d <=? 9999)%Z then
    Some (combine d {| hour := r / 3600; minute := (r / 60) mod 60;
                       second := r mod 60; microsecond := us mod 1000000 |})
  else None.

Definition logfile : str := py "app.log".

(** An interpreter with [dateutil], writing to a pipe, and the file
    [app.log] with the given content. *)
Definition env_of (content : bytes) : Env :=
  {| dateutil_parser := Some parse;
     fromtimestamp := utc_fromtimestamp;
     stdout_isatty := false;
     environ_NO_COLOR := None;
     fs_read := fun path => if Str.eqb path logfile then Some content else None |}.

(** The same machine without [dateutil]. *)
Definition env_plain (content : bytes) : Env :=
  {| dateutil_parser := None;
     fromtimestamp := utc_fromtimestamp;
     stdout_isatty := false;
     environ_NO_COLOR := None;
     fs_read := fun path => if Str.eqb path logfile then Some content else None |}.

Definition lf : bytes := [x0a].

(** The file of scenario A. *)
Definition scenario_A : bytes :=
  ascii_bytes "2024-01-01 10:00:00 A" ++ lf
  ++ ascii_bytes "2024-01-01 10:00:05 B" ++ lf
  ++ ascii_bytes "2024-01-01 10:00:10 C" ++ lf.

(** A file written on the day [today]. *)
Definition today_log : bytes :=
  ascii_bytes "2026-11-04 08:00:00 A" ++ lf
  ++ ascii_bytes "2026-11-04 08:30:00 B" ++ lf.

(** A file whose lines carry a time of day in UTC and nothing else. *)
Definition zulu_log : bytes :=
  ascii_bytes "10:00:00Z" ++ lf
  ++ ascii_bytes "10:00:05Z" ++ lf
  ++ ascii_bytes "10:00:10Z" ++ lf.

(** A file whose lines carry a date and a time in UTC. *)
Definition utc_log : bytes :=
  ascii_bytes "2026-11-04 10:00:00Z" ++ lf
  ++ ascii_bytes "2026-11-04 10:00:05Z" ++ lf
  ++ ascii_bytes "2026-11-04 10:00:10Z" ++ lf.

(** The lines of scenario A out of order: C before B. *)
Definition unsorted_log : bytes :=
  ascii_bytes "2024-01-01 10:00:00 A" ++ lf
  ++ ascii_bytes "2024-01-01 10:00:10 C" ++ lf
  ++ ascii_bytes "2024-01-01 10:00:05 B" ++ lf.

Definition line_A : bytes := ascii_bytes "2024-01-01 10:00:00 A" ++ lf.
Definition line_B : bytes := ascii_bytes "2024-01-01 10:00:05 B" ++ lf.
Definition line_C : bytes := ascii_bytes "2024-01-01 10:00:10 C" ++ lf.

(** Two thousand lines without a digit, then line A. *)
Definition long_log : bytes :=
  concat (repeat (ascii_bytes "x" ++ lf) 2000) ++ line_A.

Definition at_clock (d : date) (h m s : Z) : datetime :=
  combine d {| hour := h; minute := m; second := s; microsecond := 0 |}.

(** The extractor [print_range] builds for the bounds of scenario A. *)
Definition clock_extractor : Extractor :=
  {| user_pattern := build_regex_from_example (py "10:00:03") |}.

End Sample.

(* ------------------------------------------------------------------------- *)
(** ** Notions the properties are stated with *)

Module Notions.
Import Re Tfind.

(** An offset where a line begins: the start of the file, or the byte after
    a line feed. *)
Definition is_line_start (data : bytes) (p : nat) : bool :=
  match p with
  | O => true
  | S q => match nth_error data q with
           | Some b => is_nl b
           | None => false
           end
  end.

(** The timestamp the tool reads from the line at offset [p]. *)
Definition timestamp_at (env : Env) (extractor : Extractor)
           (date_anchor : option date) (data : bytes) (p : nat)
  : option datetime :=
  match decode_line (readline data p) with
  | inr s => line_timestamp env extractor date_anchor s
  | inl _ => None
  end.

(** The sortedness invariant: every line carries a timestamp, and the
    timestamps do not decrease along the file ([tp <= tq] holds in Python,
    so the timestamps are all naive or all aware). *)
Definition Sorted_file (env : Env) (extractor : Extractor)
           (date_anchor : option date) (data : bytes) : Prop :=
  forall p q, p <= q -> q < length data ->
    is_line_start data p = true -> is_line_start data q = true ->
    exists tp tq,
      timestamp_at env extractor date_anchor data p = Some tp
      /\ timestamp_at env extractor date_anchor data q = Some tq
      /\ dt_le tp tq = Some true.

(** The same, as a test. *)
Definition sorted_fileb (env : Env) (extractor : Extractor)
           (date_anchor : option date) (data : bytes) : bool :=
  let starts := filter (is_line_start data) (seq 0 (length data)) in
  forallb
    (fun p =>
       forallb
         (fun q =>
            negb (p <=? q)
            || match timestamp_at env extractor date_anchor data p,
                     timestamp_at env extractor date_anchor data q with
               | Some tp, Some tq =>
                   match dt_le tp tq with Some true => true | _ => false end
               | _, _ => false
               end)
         starts)
    starts.

(** Where [f.readline()] from the offset [mid] leaves the file. *)
Definition next_line (data : bytes) (mid : nat) : nat :=
  mid + length (readline data mid).

(** Every line that begins before [low] is before the target. *)
Definition below (env : Env) (extractor : Extractor) (date_anchor : option date)
           (data : bytes) (target : datetime) (low : nat) : Prop :=
  forall p, p < low -> is_line_start data p = true ->
    exists t, timestamp_at env extractor date_anchor data p = Some t
              /\ dt_lt t target = Some true.

(** The timestamps of the lines can all be compared with [x]: they are
    naive when [x] is, aware when [x] is. *)
Definition Comparable_file (env : Env) (extractor : Extractor)
           (date_anchor : option date) (data : bytes) (x : datetime) : Prop :=
  forall p t, p < length data -> is_line_start data p = true ->
    timestamp_at env extractor date_anchor data p = Some t ->
    cmp t x <> None.

(** The same, as a test. *)
Definition comparable_fileb (env : Env) (extractor : Extractor)
           (date_anchor : option date) (data : bytes) (x : datetime) : bool :=
  forallb
    (fun p =>
       match timestamp_at env extractor date_anchor data p with
       | Some t => match cmp t x with Some _ => true | None => false end
       | None => true
       end)
    (filter (is_line_start data) (seq 0 (length data))).

(** The arguments [main] takes for options. *)
Definition is_option (a : str) : bool :=
  Str.eqb a (py "-r") || Str.eqb a (py "--readability")
  || prefixb (py "--readability=") a.

(** The positional arguments of a command line. *)
Definition positional (argv : list str) : list str :=
  filter (fun a => negb (is_option a)) (tl argv).

(** The decoding of a line as the specification words it: invalid byte
    sequences are replaced, with the single-byte decoding to fall back on. *)
Definition spec_decode_line (raw : bytes) : exn + str :=
  match decode_utf8 Replace raw with
  | inr s => inr s
  | inl _ => decode_latin1 Replace raw
  end.

(** The line a timestamp is read from: the decoded text, its candidate
    substring and the parsed value. *)
Definition reads (env : Env) (extractor : Extractor) (date_anchor : option date)
           (raw : bytes) (line ts_text : str) (ts : datetime) : Prop :=
  decode_line raw = inr line
  /\ extract env extractor line = Some ts_text
  /\ truthy ts_text = true
  /\ parse_line_timestamp env ts_text date_anchor = Some ts.

(** What the streamer writes for a line it emits. *)
Definition written (do_color : bool) (color line ts_text : str) : str :=
  if do_color then replace1 ts_text (colorize ts_text color) line else line.

(** A line the streamer passes over: no candidate, or none that parses. *)
Definition unreadable (env : Env) (extractor : Extractor)
           (date_anchor : option date) (raw : bytes) : Prop :=
  exists line, decode_line raw = inr line
    /\ line_timestamp env extractor date_anchor line = None.

End Notions.

(* ------------------------------------------------------------------------- *)
(** ** Further notions *)

Module MoreNotions.
Import Re Tfind Notions.

(** [t] occurs in [s] as a run of consecutive characters. *)
Definition occurs_in (t s : str) : Prop := exists pre post, s = pre ++ t ++ post.

(** [a] is [b] with some of its elements left out, the order kept. *)
Inductive Subseq (A : Type) : list A -> list A -> Prop :=
| Subseq_nil : Subseq [] []
| Subseq_skip : forall x a b, Subseq a b -> Subseq a (x :: b)
| Subseq_keep : forall x a b, Subseq a b -> Subseq (x :: a) (x :: b).

(** The text of a raw line: its well-formed code points. *)
Definition text_of (raw : bytes) : str :=
  code_points (utf8_scan (map Byte.to_N raw)).

(** The timestamp the tool reads from a raw line. *)
Definition raw_timestamp (env : Env) (extractor : Extractor)
           (date_anchor : option date) (raw : bytes) : option datetime :=
  line_timestamp env extractor date_anchor (text_of raw).

(** A raw line whose timestamp lies between the bounds, both included. *)
Definition in_range (env : Env) (extractor : Extractor)
           (date_anchor : option date) (start_dt end_dt : datetime)
           (raw : bytes) : bool :=
  match raw_timestamp env extractor date_anchor raw with
  | Some ts =>
      match dt_le start_dt ts, dt_le ts end_dt with
      | Some true, Some true => true
      | _, _ => false
      end
  | None => false
  end.






(** A line the search takes for one before the target: it carries no
    timestamp, or one before the target. *)
Definition counts_as_before (env : Env) (extractor : Extractor)
           (date_anchor : option date) (data : bytes) (target : datetime)
           (p : nat) : Prop :=
  timestamp_at env extractor date_anchor data p = None
  \/ exists t, timestamp_at env extractor date_anchor data p = Some t
               /\ dt_lt t target = Some true.

(** A string of ASCII characters: on these the letters and digits of this
    model are all of Python's. *)
Definition is_ascii (s : str) : bool := forallb (fun c => (c <? 128)%N) s.

(** The names of [COLOR_CODES]. *)
Definition known_color (color : str) : bool :=
  existsb (fun kv => Str.eqb (fst kv) color) COLOR_CODES.

(** An argument of the form [--readability=COLOR]. *)
Definition sets_color (a : str) : bool :=
  negb (Str.eqb a (py "-r") || Str.eqb a (py "--readability"))
  && prefixb (py "--readability=") a.


(** The least number of characters a match of an expression takes. *)
Fixpoint min_width (r : regex) : nat :=
  match r with
  | REmpty | RBol | REol | RWordB => 0
  | RChars _ lo _ => lo
  | RSeq a b => min_width a + min_width b
  | RAlt a b => Nat.min (min_width a) (min_width b)
  | ROpt _ => 0
  | RGroup a => min_width a
  end.

(** An expression can take the string [s] off the front of the subject and
    go on: whenever what follows succeeds on every state that is left with
    the rest, the expression succeeds. *)
Definition takes (r : regex) (s : str) : Prop :=
  forall (A : Type) (st : mstate) (more : str) (k : mstate -> option A),
    ms_rest st = s ++ more ->
    (forall st', ms_rest st' = more -> k st' <> None) ->
    rmatch false r st k <> None.

(** What [build_regex_from_example] scans: the example stripped, without
    one opening and one closing bracket. *)
Definition example_core (example : str) : str :=
  let s := strip example in
  let s := if startswith (chr "[") s then tl s else s in
  if endswith (chr "]") s then removelast s else s.

(** An item of a sequence before the rest of it, as [re.compile] joins
    them. *)
Definition seq_cons (a b : regex) : regex :=
  match b with REmpty => a | _ => RSeq a b end.

(** The class [[A-Za-z]]. *)
Definition letters : cset := CsUnion (CsRange 65 90) (CsRange 97 122).

(** The expression the tokens of the scan stand for, token by token:
    the body of the group of the learned pattern. *)
Fixpoint learned_body (fuel : nat) (prev : option N) (s : str) : regex :=
  match s with
  | [] => REmpty
  | ch :: t =>
      match fuel with
      | O => REmpty
      | S f =>
          if isalpha ch then
            let (word, rest) := span isalpha s in
            seq_cons
              (match fullmatch MONTH_RE word with
               | Some _ => RChars letters 3 (Some 9)
               | None => RChars letters 1 None
               end)
              (learned_body f (Some (last word ch)) rest)
          else if isdigit ch then
            let (run, rest) := span isdigit s in
            seq_cons
              (RChars CsDigit 1
                 (Some (if is_colon prev || is_colon (hd_error rest)
                        then 2 else 4)))
              (learned_body f (Some (last run ch)) rest)
          else if (ch =? chr ".")%N then
            seq_cons (one (CsChar ch))
              (seq_cons (RChars CsDigit 1 (Some 9))
                 (learned_body f (Some ch) t))
          else
            seq_cons
              (if (ch =? chr " ")%N then RChars CsSpace 1 None
               else one (CsChar ch))
              (learned_body f (Some ch) t)
      end
  end.

(** The whole learned pattern around that body: [\[?(body)\]?]. *)
Definition learned_pattern (example : str) : Pattern :=
  let s := example_core example in
  {| pat_re :=
       RSeq (RChars (CsChar (chr "[")) 0 (Some 1))
         (RSeq (RGroup (learned_body (length s) None s))
            (RChars (CsChar (chr "]")) 0 (Some 1)));
     pat_icase := false |}.

(** The character before the scan position is a dot. *)
Definition is_dot (c : option N) : bool :=
  match c with Some x => (x =? chr ".")%N | None => false end.

(** Examples the learned pattern is sure to take back.  Along the scan of
    [build_regex_from_example]: a word that reads as a month name has at
    most nine letters; a run of digits has at most four digits, or two
    next to a colon; a dot is followed by digits, at least two and at most
    nine more than that bound. *)
Fixpoint learnable_from (fuel : nat) (prev : option N) (s : str) : bool :=
  match s with
  | [] => true
  | ch :: t =>
      match fuel with
      | O => false
      | S f =>
          if isalpha ch then
            let (word, rest) := span isalpha s in
            match fullmatch MONTH_RE word with
            | Some _ => length word <=? 9
            | None => true
            end
            && learnable_from f (Some (last word ch)) rest
          else if isdigit ch then
            let (run, rest) := span isdigit s in
            let cap := if is_colon prev || is_colon (hd_error rest)
                       then 2 else 4 in
            (if is_dot prev
             then (2 <=? length run) && (length run <=? 9 + cap)
             else length run <=? cap)
            && learnable_from f (Some (last run ch)) rest
          else if (ch =? chr ".")%N then
            match t with
            | d :: _ => isdigit d
            | [] => false
            end
            && learnable_from f (Some ch) t
          else learnable_from f (Some ch) t
      end
  end.

(** The same for a whole example, of ASCII characters only: there the
    letters and digits of this model are all of Python's. *)
Definition learnable (example : str) : bool :=
  forallb (fun c => (c <? 128)%N) example
  && learnable_from (length (example_core example)) None (example_core example).

End MoreNotions.

(* ------------------------------------------------------------------------- *)
(** * Properties *)

(** ** The order of datetimes *)

Module DatetimeFacts.

Lemma lex_compare_refl (a : list Z) : lex_compare a a = Eq.
Proof.
  induction a as [|x a IH]; simpl; [reflexivity|].
  now rewrite Z.compare_refl.
Qed.

Lemma lex_compare_eq (a b : list Z) : lex_compare a b = Eq -> a = b.
Proof.
  revert b; induction a as [|x a IH]; intros [|y b]; simpl; try discriminate.
  - reflexivity.
  - destruct (Z.compare_spec x y) as [E|L|G]; try discriminate.
    intros H; subst; f_equal; auto.
Qed.

Lemma lex_compare_antisym (a b : list Z) :
  lex_compare b a = CompOpp (lex_compare a b).
Proof.
  revert b; induction a as [|x a IH]; intros [|y b]; simpl; try reflexivity.
  rewrite (Z.compare_antisym x y).
  destruct (x ?= y)%Z; simpl; auto.
Qed.

Lemma lex_compare_lt_trans (a b c : list Z) :
  lex_compare a b = Lt -> lex_compare b c = Lt -> lex_compare a c = Lt.
Proof.
  revert b c; induction a as [|x a IH]; intros [|y b] [|z c]; simpl;
    try discriminate; try reflexivity.
  destruct (Z.compare_spec x y) as [E|L|G]; try discriminate;
    destruct (Z.compare_spec y z) as [E'|L'|G']; try discriminate; intros H1 H2.
  - subst. rewrite Z.compare_refl. eauto.
  - subst. now apply Z.compare_lt_iff in L'; rewrite L'.
  - subst. now apply Z.compare_lt_iff in L; rewrite L.
  - assert (x < z)%Z as L2 by lia. now apply Z.compare_lt_iff in L2; rewrite L2.
Qed.

Lemma lex_compare_le_lt (a b c : list Z) :
  lex_compare a b <> Gt -> lex_compare b c = Lt -> lex_compare a c = Lt.
Proof.
  intros H1 H2. destruct (lex_compare a b) eqn:E; [| |now elim H1].
  - apply lex_compare_eq in E. now subst b.
  - now apply lex_compare_lt_trans with b.
Qed.

Lemma lex_compare_le_trans (a b c : list Z) :
  lex_compare a b <> Gt -> lex_compare b c <> Gt -> lex_compare a c <> Gt.
Proof.
  intros H1 H2. destruct (lex_compare b c) eqn:E; [| |now elim H2].
  - apply lex_compare_eq in E. now subst c.
  - rewrite (lex_compare_le_lt _ _ _ H1 E). discriminate.
Qed.

(** Values that can be compared are ordered by their keys. *)
Lemma cmp_key (a b : datetime) :
  cmp a b = None
  \/ cmp a b = Some (lex_compare (order_key a) (order_key b)).
Proof.
  unfold cmp, order_key. destruct (utcoffset a), (utcoffset b); auto.
  right. cbn [lex_compare]. now destruct (_ ?= _)%Z.
Qed.

(** Being comparable is to be both naive or both aware. *)
Lemma cmp_sym (a b : datetime) : cmp a b <> None -> cmp b a <> None.
Proof. unfold cmp. destruct (utcoffset a), (utcoffset b); congruence. Qed.

Lemma cmp_trans (a b c : datetime) :
  cmp a b <> None -> cmp b c <> None -> cmp a c <> None.
Proof.
  unfold cmp. destruct (utcoffset a), (utcoffset b), (utcoffset c); congruence.
Qed.

Lemma cmp_refl (a : datetime) : cmp a a = Some Eq.
Proof.
  destruct (cmp_key a a) as [H|H]; rewrite H.
  - unfold cmp in H. destruct (utcoffset a); discriminate.
  - now rewrite lex_compare_refl.
Qed.

Lemma dt_lt_true (a b : datetime) :
  dt_lt a b = Some true
  <-> cmp a b <> None /\ lex_compare (order_key a) (order_key b) = Lt.
Proof.
  unfold dt_lt. destruct (cmp_key a b) as [H|H]; rewrite H.
  - split; [discriminate|intros [E _]; now elim E].
  - destruct (lex_compare _ _); split; try discriminate;
      try (intros [_ E]; discriminate); intros _; split; congruence.
Qed.

Lemma dt_lt_false (a b : datetime) :
  dt_lt a b = Some false
  <-> cmp a b <> None /\ lex_compare (order_key a) (order_key b) <> Lt.
Proof.
  unfold dt_lt. destruct (cmp_key a b) as [H|H]; rewrite H.
  - split; [discriminate|intros [E _]; now elim E].
  - destruct (lex_compare _ _); split; try discriminate;
      try (intros [_ E]; now elim E); intros _; split; congruence.
Qed.

Lemma dt_le_true (a b : datetime) :
  dt_le a b = Some true
  <-> cmp a b <> None /\ lex_compare (order_key a) (order_key b) <> Gt.
Proof.
  unfold dt_le. destruct (cmp_key a b) as [H|H]; rewrite H.
  - split; [discriminate|intros [E _]; now elim E].
  - destruct (lex_compare _ _); split; try discriminate;
      try (intros [_ E]; now elim E); intros _; split; congruence.
Qed.

Lemma dt_le_false (a b : datetime) :
  dt_le a b = Some false
  <-> cmp a b <> None /\ lex_compare (order_key a) (order_key b) = Gt.
Proof.
  unfold dt_le. destruct (cmp_key a b) as [H|H]; rewrite H.
  - split; [discriminate|intros [E _]; now elim E].
  - destruct (lex_compare _ _); split; try discriminate;
      try (intros [_ E]; discriminate); intros _; split; congruence.
Qed.

(** [a > b] is [b < a], and [a <= b] is [not (a > b)]. *)
Lemma dt_gt_lt (a b : datetime) : dt_gt a b = dt_lt b a.
Proof.
  unfold dt_gt, dt_lt.
  destruct (cmp_key a b) as [H|H], (cmp_key b a) as [H'|H']; rewrite H, H'.
  - reflexivity.
  - elim (@cmp_sym b a); congruence.
  - elim (@cmp_sym a b); congruence.
  - rewrite (lex_compare_antisym (order_key a) (order_key b)).
    now destruct (lex_compare (order_key a) (order_key b)).
Qed.

Lemma dt_le_gt (a b : datetime) : dt_le a b = option_map negb (dt_gt a b).
Proof. unfold dt_le, dt_gt. now destruct (cmp a b) as [[| |]|]. Qed.

Lemma dt_le_refl (a : datetime) : dt_le a a = Some true.
Proof. unfold dt_le. now rewrite cmp_refl. Qed.

Lemma dt_lt_le (a b : datetime) : dt_lt a b = Some true -> dt_le a b = Some true.
Proof. unfold dt_lt, dt_le. now destruct (cmp a b) as [[| |]|]. Qed.

(** [not (b < a)] is [a <= b]. *)
Lemma dt_lt_false_le (a b : datetime) : dt_lt b a = Some false -> dt_le a b = Some true.
Proof.
  intros H. rewrite <- dt_gt_lt in H. rewrite dt_le_gt, H. reflexivity.
Qed.

Lemma dt_lt_not_le (a b : datetime) : dt_lt a b = Some true -> dt_le b a = Some false.
Proof.
  intros H. rewrite <- dt_gt_lt in H. rewrite dt_le_gt, H. reflexivity.
Qed.

(** [a <= b] and [b < c] give [a < c]. *)
Lemma dt_le_lt_trans (a b c : datetime) :
  dt_le a b = Some true -> dt_lt b c = Some true -> dt_lt a c = Some true.
Proof.
  rewrite dt_le_true, !dt_lt_true. intros [C1 H1] [C2 H2]. split.
  - now apply cmp_trans with b.
  - now apply lex_compare_le_lt with (order_key b).
Qed.

Lemma dt_le_trans (a b c : datetime) :
  dt_le a b = Some true -> dt_le b c = Some true -> dt_le a c = Some true.
Proof.
  rewrite !dt_le_true. intros [C1 H1] [C2 H2]. split.
  - now apply cmp_trans with b.
  - now apply lex_compare_le_trans with (order_key b).
Qed.



(** What is compared with success is comparable. *)
Lemma dt_lt_cmp (a b : datetime) (r : bool) : dt_lt a b = Some r -> cmp a b <> None.
Proof. unfold dt_lt. destruct (cmp a b); [discriminate|discriminate]. Qed.

Lemma dt_le_cmp (a b : datetime) (r : bool) : dt_le a b = Some r -> cmp a b <> None.
Proof. unfold dt_le. destruct (cmp a b); [discriminate|discriminate]. Qed.


Lemma dt_cmp_lt (a b : datetime) : cmp a b <> None -> exists r, dt_lt a b = Some r.
Proof. unfold dt_lt. destruct (cmp a b) as [[| |]|]; eauto. intros H; now elim H. Qed.



Lemma radix_compare (B x y r1 r2 : Z) :
  (0 <= r1 < B)%Z -> (0 <= r2 < B)%Z ->
  (x * B + r1 ?= y * B + r2)%Z
  = match (x ?= y)%Z with Eq => (r1 ?= r2)%Z | c => c end.
Proof.
  intros H1 H2. destruct (Z.compare_spec x y) as [E|L|G].
  - subst. apply Z.add_compare_mono_l.
  - apply Z.compare_lt_iff. nia.
  - apply Z.compare_gt_iff. nia.
Qed.

Lemma days_before_year_step (y : Z) :
  (days_before_year (y + 1)
   = days_before_year y + (if is_leap y then 366 else 365))%Z.
Proof.
  unfold days_before_year, is_leap. cbv zeta.
  replace (y + 1 - 1)%Z with y by lia.
  destruct (Z.eqb_spec (y mod 4) 0), (Z.eqb_spec (y mod 100) 0),
    (Z.eqb_spec (y mod 400) 0); cbn [andb orb negb];
    Z.div_mod_to_equations; lia.
Qed.

Lemma days_before_year_mono (y y' : Z) :
  (y < y')%Z ->
  (days_before_year y + (if is_leap y then 366 else 365)
   <= days_before_year y')%Z.
Proof.
  intros H. rewrite <- days_before_year_step.
  unfold days_before_year. cbv zeta.
  Z.div_mod_to_equations. lia.
Qed.

Lemma month_cases (m : Z) :
  (1 <= m <= 12)%Z ->
  In m [1; 2; 3; 4; 5; 6; 7; 8; 9; 10; 11; 12]%Z.
Proof.
  intros H. cbn [In].
  assert (m = 1 \/ m = 2 \/ m = 3 \/ m = 4 \/ m = 5 \/ m = 6 \/ m = 7
          \/ m = 8 \/ m = 9 \/ m = 10 \/ m = 11 \/ m = 12)%Z as K by lia.
  intuition auto.
Qed.

Lemma days_before_month_next (y m m' : Z) :
  (1 <= m)%Z -> (m < m')%Z -> (m' <= 12)%Z ->
  (days_before_month y m + days_in_month y m <= days_before_month y m')%Z.
Proof.
  intros H1 H2 H3.
  assert (Hm : In m [1; 2; 3; 4; 5; 6; 7; 8; 9; 10; 11; 12]%Z)
    by (apply month_cases; lia).
  assert (Hm' : In m' [1; 2; 3; 4; 5; 6; 7; 8; 9; 10; 11; 12]%Z)
    by (apply month_cases; lia).
  unfold days_before_month, days_in_month.
  destruct (is_leap y); cbn [In] in Hm, Hm';
    repeat (destruct Hm as [<-|Hm]; [|]); try contradiction;
    repeat (destruct Hm' as [<-|Hm']; [|]); try contradiction;
    try lia; vm_compute; discriminate.
Qed.

Lemma days_in_year (y m d : Z) :
  (1 <= m <= 12)%Z -> (1 <= d <= days_in_month y m)%Z ->
  (1 <= days_before_month y m + d <= (if is_leap y then 366 else 365))%Z.
Proof.
  intros Hm Hd.
  assert (K : In m [1; 2; 3; 4; 5; 6; 7; 8; 9; 10; 11; 12]%Z)
    by (apply month_cases; lia).
  unfold days_before_month, days_in_month in *.
  destruct (is_leap y); cbn [In] in K;
    repeat (destruct K as [<-|K]; [|]); try contradiction;
    revert Hd;
    repeat match goal with
    | |- context [nth ?n ?l ?d] =>
        let v := eval vm_compute in (nth n l d) in change (nth n l d) with v
    end; cbn [Z.eqb Z.ltb Z.compare Pos.eqb Pos.compare Pos.compare_cont andb];
    lia.
Qed.

Lemma toordinal_compare (d1 d2 : date) :
  (1 <= month d1 <= 12)%Z -> (1 <= day d1 <= days_in_month (year d1) (month d1))%Z ->
  (1 <= month d2 <= 12)%Z -> (1 <= day d2 <= days_in_month (year d2) (month d2))%Z ->
  (toordinal d1 ?= toordinal d2)%Z
  = lex_compare [year d1; month d1; day d1] [year d2; month d2; day d2].
Proof.
  destruct d1 as [y1 m1 n1], d2 as [y2 m2 n2].
  cbn [year month day lex_compare]. intros Hm1 Hd1 Hm2 Hd2.
  unfold toordinal. cbn [year month day].
  pose proof (days_in_year y1 Hm1 Hd1) as K1.
  pose proof (days_in_year y2 Hm2 Hd2) as K2.
  destruct (Z.compare_spec y1 y2) as [E|L|G].
  - subst y2. rewrite <- !Z.add_assoc, Z.add_compare_mono_l.
    destruct (Z.compare_spec m1 m2) as [E|L|G].
    + subst m2. rewrite Z.add_compare_mono_l.
      now destruct (n1 ?= n2)%Z.
    + apply Z.compare_lt_iff.
      pose proof (@days_before_month_next y1 m1 m2). lia.
    + apply Z.compare_gt_iff.
      pose proof (@days_before_month_next y1 m2 m1). lia.
  - apply Z.compare_lt_iff.
    pose proof (days_before_year_mono L). lia.
  - apply Z.compare_gt_iff.
    pose proof (days_before_year_mono G). lia.
Qed.

(** For values with fields in range the order of the instants is the order
    of the fields. *)
Lemma wall_compare (a b : datetime) :
  fields_in_range a -> fields_in_range b ->
  (wall a ?= wall b)%Z = compare a b.
Proof.
  intros (Hm & Hd & Hh & Hmi & Hs & Hu) (Hm' & Hd' & Hh' & Hmi' & Hs' & Hu').
  unfold wall, compare, key.
  rewrite !radix_compare by assumption.
  rewrite (toordinal_compare _ _ Hm Hd Hm' Hd').
  cbn [lex_compare].
  destruct (year (dt_date a) ?= year (dt_date b))%Z; try reflexivity.
  destruct (month (dt_date a) ?= month (dt_date b))%Z; try reflexivity.
  destruct (day (dt_date a) ?= day (dt_date b))%Z; try reflexivity.
  destruct (hour (dt_time a) ?= hour (dt_time b))%Z; try reflexivity.
  destruct (minute (dt_time a) ?= minute (dt_time b))%Z; try reflexivity.
  destruct (second (dt_time a) ?= second (dt_time b))%Z; try reflexivity.
  now destruct (microsecond (dt_time a) ?= microsecond (dt_time b))%Z.
Qed.

(** Two aware values with the same offset are ordered as Python orders
    them, by their fields. *)
Lemma cmp_same_offset (a b : datetime) (off : Z) :
  fields_in_range a -> fields_in_range b ->
  utcoffset a = Some off -> utcoffset b = Some off ->
  cmp a b = Some (compare a b).
Proof.
  intros Ha Hb Ea Eb. unfold cmp, instant. rewrite Ea, Eb.
  f_equal. rewrite <- (wall_compare Ha Hb).
  unfold Z.sub. rewrite !(Z.add_comm _ (- off)).
  apply Z.add_compare_mono_l.
Qed.

End DatetimeFacts.

(** ** Decoding never fails *)

Module CodecFacts.
Import Tfind.

Lemma handle_ignore (ps : list piece) : handle Ignore ps = inr (code_points ps).
Proof.
  induction ps as [|[c|n] ps IH]; simpl; [reflexivity| |assumption].
  now rewrite IH.
Qed.

Lemma decode_utf8_ignore (raw : bytes) :
  decode_utf8 Ignore raw = inr (code_points (utf8_scan (map Byte.to_N raw))).
Proof. apply handle_ignore. Qed.

Lemma decode_line_eq (raw : bytes) :
  decode_line raw = inr (code_points (utf8_scan (map Byte.to_N raw))).
Proof. unfold decode_line. now rewrite decode_utf8_ignore. Qed.

(** Bytes below 128 decode to themselves. *)
Lemma utf8_scan_ascii (bs : list N) :
  Forall (fun b => (b < 128)%N) bs -> code_points (utf8_scan bs) = bs.
Proof.
  induction 1 as [|b bs Hb _ IH]; simpl; [reflexivity|].
  apply N.ltb_lt in Hb. rewrite Hb. simpl. now rewrite IH.
Qed.

End CodecFacts.

(** ** The streamer *)

Module StreamFacts.
Import Re Tfind Notions DatetimeFacts Sample.

Section Streaming.
Variable env : Env.
Variable extractor : Extractor.
Variable date_anchor : option date.
Variables start_dt end_dt : datetime.
Variable do_color : bool.
Variable color : str.

Lemma line_timestamp_reads raw line ts_text ts :
  reads env extractor date_anchor raw line ts_text ts ->
  line_timestamp env extractor date_anchor line = Some ts.
Proof.
  intros (_ & He & Ht & Hp). unfold line_timestamp. now rewrite He, Ht.
Qed.

(** One round of the loop on a line that is passed over. *)
Lemma stream_skip raw rest :
  unreadable env extractor date_anchor raw ->
  stream env extractor date_anchor start_dt end_dt do_color color (raw :: rest)
  = stream env extractor date_anchor start_dt end_dt do_color color rest.
Proof.
  intros (line & Hd & Hts). simpl. rewrite Hd.
  unfold line_timestamp in Hts.
  destruct (extract env extractor line) as [ts_text|]; [|reflexivity].
  destruct (truthy ts_text); [|reflexivity].
  now rewrite Hts.
Qed.

(** One round of the loop on a line past the end bound. *)
Lemma stream_stop raw rest line ts_text ts :
  reads env extractor date_anchor raw line ts_text ts ->
  dt_gt ts end_dt = Some true ->
  stream env extractor date_anchor start_dt end_dt do_color color (raw :: rest)
  = ([], None).
Proof.
  intros (Hd & He & Ht & Hp) Hgt. simpl.
  now rewrite Hd, He, Ht, Hp, Hgt.
Qed.

Lemma stream_emitted lines out :
  In out (fst (stream env extractor date_anchor start_dt end_dt do_color color
                 lines)) ->
  exists raw line ts_text ts,
    In raw lines
    /\ reads env extractor date_anchor raw line ts_text ts
    /\ dt_le start_dt ts = Some true /\ dt_le ts end_dt = Some true
    /\ out = written do_color color line ts_text.
Proof.
  induction lines as [|raw rest IH]; simpl; [intros []|].
  assert (Hrest : In out (fst (stream env extractor date_anchor start_dt end_dt
                                 do_color color rest)) ->
                  exists raw0 line ts_text ts,
                    (raw = raw0 \/ In raw0 rest)
                    /\ reads env extractor date_anchor raw0 line ts_text ts
                    /\ dt_le start_dt ts = Some true /\ dt_le ts end_dt = Some true
                    /\ out = written do_color color line ts_text).
  { intros H. destruct (IH H) as (r & l & t & d & Hin & Hr).
    exists r, l, t, d. split; [now right|exact Hr]. }
  destruct (decode_line raw) as [e|line] eqn:Hd; [intros []|].
  destruct (extract env extractor line) as [ts_text|] eqn:He; [|exact Hrest].
  destruct (truthy ts_text) eqn:Ht; [|exact Hrest].
  destruct (parse_line_timestamp env ts_text date_anchor) as [ts|] eqn:Hp;
    [|exact Hrest].
  destruct (dt_gt ts end_dt) as [[|]|] eqn:Hgt; try contradiction.
  destruct (dt_le start_dt ts) as [[|]|] eqn:Hlo; try contradiction;
    try exact Hrest.
  destruct (dt_le ts end_dt) as [[|]|] eqn:Hhi; try contradiction;
    try exact Hrest.
  simpl. intros [Hout|Hout]; [|exact (Hrest Hout)].
  exists raw, line, ts_text, ts. repeat split; auto.
  subst out. unfold written. now destruct do_color.
Qed.

Lemma stream_cut pre raw post line ts_text ts :
  reads env extractor date_anchor raw line ts_text ts ->
  dt_gt ts end_dt = Some true ->
  stream env extractor date_anchor start_dt end_dt do_color color
    (pre ++ raw :: post)
  = stream env extractor date_anchor start_dt end_dt do_color color pre.
Proof.
  intros Hr Hgt. induction pre as [|x pre IH].
  - cbn [app]. now rewrite (stream_stop post Hr Hgt).
  - simpl.
    destruct (decode_line x) as [e|l]; [reflexivity|].
    rewrite IH. reflexivity.
Qed.
End Streaming.

(** C5.  Every line the streamer writes comes from a line of the file whose
    timestamp was extracted and parsed and lies between the start and the
    end bound, both included; a line whose timestamp cannot be extracted or
    parsed is passed over, and the loop goes on with the lines after it. *)
Theorem stream_emits_only_in_range
        (env : Env) (extractor : Extractor) (date_anchor : option date)
        (start_dt end_dt : datetime) (do_color : bool) (color : str) :
  (forall lines out,
      In out (fst (stream env extractor date_anchor start_dt end_dt
                     do_color color lines)) ->
      exists raw line ts_text ts,
        In raw lines
        /\ reads env extractor date_anchor raw line ts_text ts
        /\ dt_le start_dt ts = Some true /\ dt_le ts end_dt = Some true
        /\ out = written do_color color line ts_text)
  /\ (forall raw rest,
         unreadable env extractor date_anchor raw ->
         stream env extractor date_anchor start_dt end_dt do_color color
           (raw :: rest)
         = stream env extractor date_anchor start_dt end_dt do_color color rest).
Proof.
  split.
  - intros lines out. apply stream_emitted.
  - intros raw rest. apply stream_skip.
Qed.

(** C6.  When the streamer meets a line whose timestamp is after the end
    bound it stops: what it writes is what it wrote before that line,
    whatever the lines after it hold. *)
Theorem stream_stops_past_end
        (env : Env) (extractor : Extractor) (date_anchor : option date)
        (start_dt end_dt : datetime) (do_color : bool) (color : str)
        (pre post : list bytes) (raw : bytes) (line ts_text : str)
        (ts : datetime) :
  reads env extractor date_anchor raw line ts_text ts ->
  dt_gt ts end_dt = Some true ->
  stream env extractor date_anchor start_dt end_dt do_color color
    (pre ++ raw :: post)
  = stream env extractor date_anchor start_dt end_dt do_color color pre.
Proof. apply stream_cut. Qed.

Lemma stream_emits_only_in_range_witness :
  exists raw line ts_text ts,
    In raw (lines_from scenario_A 0)
    /\ reads (env_of scenario_A) clock_extractor (Some today) raw line ts_text ts
    /\ dt_le (at_clock today 10 0 3) ts = Some true
    /\ dt_le ts (at_clock today 10 0 8) = Some true
    /\ py "2024-01-01 10:00:05 B" ++ [nl] = written false (py "cyan") line ts_text.
Proof.
  apply (proj1 (stream_emits_only_in_range (env_of scenario_A) clock_extractor
                  (Some today) (at_clock today 10 0 3) (at_clock today 10 0 8)
                  false (py "cyan"))
           (lines_from scenario_A 0) (py "2024-01-01 10:00:05 B" ++ [nl])).
  vm_compute. left. reflexivity.
Defined.

Lemma stream_stops_past_end_witness :
  stream (env_of unsorted_log) clock_extractor (Some today)
    (at_clock today 10 0 3) (at_clock today 10 0 8) false (py "cyan")
    ([line_A] ++ line_C :: [line_B])
  = stream (env_of unsorted_log) clock_extractor (Some today)
      (at_clock today 10 0 3) (at_clock today 10 0 8) false (py "cyan")
      [line_A].
Proof.
  apply (@stream_stops_past_end (env_of unsorted_log) clock_extractor
           (Some today) (at_clock today 10 0 3) (at_clock today 10 0 8)
           false (py "cyan") [line_A] [line_B] line_C
           (py "2024-01-01 10:00:10 C" ++ [nl])
           (py "10:00:10") (at_clock today 10 0 10)).
  - repeat split; vm_compute; reflexivity.
  - vm_compute. reflexivity.
Defined.

End StreamFacts.

(** ** The command line and the validation of the bounds *)

Module MainFacts.
Import Re Tfind Notions Sample.

(** The loop of [main] keeps the arguments that are not options, in order. *)
Lemma scan_args_positional (argv : list str) (readability : bool)
      (color : str) (args : list str) :
  snd (scan_args argv readability color args)
  = args ++ filter (fun a => negb (is_option a)) argv.
Proof.
  revert readability color args.
  induction argv as [|a rest IH]; intros readability color args.
  - simpl. now rewrite app_nil_r.
  - cbn [scan_args filter]. unfold is_option.
    destruct (Str.eqb a (py "-r") || Str.eqb a (py "--readability")).
    + now rewrite IH.
    + destruct (prefixb (py "--readability=") a).
      * now rewrite IH.
      * rewrite IH. cbn [orb negb]. now rewrite <- app_assoc.
Qed.

(** C9, as the code has it.  With fewer than three positional arguments
    [main] writes the usage message to standard output, writes nothing to
    standard error, and exits with code 1. *)
Theorem usage_on_stdout_exit_1 (env : Env) (argv : list str) :
  length (positional argv) < 3 ->
  main env argv
  = {| run_stdout := usage ++ [nl]; run_control := SysExit (ExitCode 1) |}
  /\ exit_code (run_control (main env argv)) = 1%Z
  /\ stderr_text (run_control (main env argv)) = Some [].
Proof.
  intros H. unfold positional in H.
  assert (E : main env argv
              = {| run_stdout := usage ++ [nl];
                   run_control := SysExit (ExitCode 1) |}).
  { unfold main.
    pose proof (scan_args_positional (tl argv) false (py "cyan") []) as Hs.
    destruct (scan_args (tl argv) false (py "cyan") []) as [[r c] args].
    simpl in Hs. subst args.
    apply Nat.ltb_lt in H. now rewrite H. }
  rewrite E. auto.
Qed.

Lemma usage_on_stdout_exit_1_witness :
  main (env_of scenario_A) [py "tfind"; py "-r"; logfile; py "10:00:03"]
  = {| run_stdout := usage ++ [nl]; run_control := SysExit (ExitCode 1) |}
  /\ exit_code (run_control
                  (main (env_of scenario_A)
                     [py "tfind"; py "-r"; logfile; py "10:00:03"])) = 1%Z
  /\ stderr_text (run_control
                    (main (env_of scenario_A)
                       [py "tfind"; py "-r"; logfile; py "10:00:03"])) = Some [].
Proof.
  apply (usage_on_stdout_exit_1 (env_of scenario_A)
           [py "tfind"; py "-r"; logfile; py "10:00:03"]).
  vm_compute. lia.
Defined.

(** C9 as it is worded fails: called with no argument, the tool leaves
    standard error empty; the usage message is on standard output. *)
Lemma usage_not_on_stderr :
  stderr_text (run_control (main (env_of scenario_A) [py "tfind"]))
  <> Some (usage ++ [nl])
  /\ run_stdout (main (env_of scenario_A) [py "tfind"]) = usage ++ [nl].
Proof. split; [vm_compute; discriminate | vm_compute; reflexivity]. Qed.

(** [print_range] leaves through [sys.exit] only from the validation. *)
Lemma print_range_control (env : Env) (path start_s end_s : str)
      (readability : bool) (color : str) (b : Bounds) :
  resolve_bounds env path start_s end_s = inr b ->
  forall arg,
    run_control (print_range env path start_s end_s readability color)
    <> SysExit arg.
Proof.
  intros Hb arg. unfold print_range. rewrite Hb.
  destruct (binary_search_start env path (b_start b) (b_extractor b) (b_anchor b))
    as [start_pos|e|]; simpl; try discriminate.
  destruct (fs_read env path) as [data|]; simpl; try discriminate.
  destruct (stream env (b_extractor b) (b_anchor b) (b_start b) (b_end b)
              (readability && ansi_enabled env) color (lines_from data start_pos))
    as [out [e|]]; simpl; discriminate.
Qed.

(** How [print_range] gets to the search: a bound that does not parse ends
    the run through [sys.exit]; two bounds that cannot be compared end it
    with [TypeError]; otherwise the bounds are settled. *)
Lemma resolve_bounds_unparsed (env : Env) (path start_s end_s : str) :
  parse_user_datetime env start_s = None
  \/ parse_user_datetime env end_s = None ->
  resolve_bounds env path start_s end_s = inl (SysExit (ExitMsg parse_error)).
Proof.
  unfold resolve_bounds. intros [H|H]; rewrite H; [reflexivity|].
  now destruct (parse_user_datetime env start_s).
Qed.

Lemma resolve_bounds_incomparable (env : Env) (path start_s end_s : str)
      (a c : datetime) :
  parse_user_datetime env start_s = Some a ->
  parse_user_datetime env end_s = Some c ->
  cmp c a = None ->
  resolve_bounds env path start_s end_s = inl (Uncaught TypeError).
Proof.
  intros Ha Hc H. unfold resolve_bounds, ordered, dt_lt. now rewrite Ha, Hc, H.
Qed.

Lemma resolve_bounds_settled (env : Env) (path start_s end_s : str)
      (a c : datetime) :
  parse_user_datetime env start_s = Some a ->
  parse_user_datetime env end_s = Some c ->
  cmp c a <> None ->
  exists b, resolve_bounds env path start_s end_s = inr b.
Proof.
  intros Ha Hc H. unfold resolve_bounds, ordered, dt_lt. rewrite Ha, Hc.
  destruct (cmp c a) as [[| |]|]; [| | |now elim H]; eexists; reflexivity.
Qed.

(** C7, as the code has it.  The run aborts with the fatal validation error
    exactly when at least one of the two bounds fails every parse strategy;
    when both parse, the run never leaves through [sys.exit]. *)
Theorem abort_iff_some_bound_unparsable
        (env : Env) (path start_s end_s : str) (readability : bool)
        (color : str) :
  (run_control (print_range env path start_s end_s readability color)
   = SysExit (ExitMsg parse_error)
   <-> (parse_user_datetime env start_s = None
        \/ parse_user_datetime env end_s = None))
  /\ (parse_user_datetime env start_s <> None ->
      parse_user_datetime env end_s <> None ->
      forall arg,
        run_control (print_range env path start_s end_s readability color)
        <> SysExit arg).
Proof.
  assert (Hok : parse_user_datetime env start_s <> None ->
                parse_user_datetime env end_s <> None ->
                forall arg,
                  run_control (print_range env path start_s end_s readability color)
                  <> SysExit arg).
  { intros H1 H2 arg.
    destruct (parse_user_datetime env start_s) as [a|] eqn:Ea; [|now elim H1].
    destruct (parse_user_datetime env end_s) as [c|] eqn:Ec; [|now elim H2].
    destruct (cmp c a) as [o|] eqn:Ecmp.
    - destruct (@resolve_bounds_settled env path start_s end_s a c Ea Ec)
        as [b Hb]; [congruence|].
      now apply print_range_control with (b := b).
    - unfold print_range.
      rewrite (@resolve_bounds_incomparable env path start_s end_s a c Ea Ec Ecmp).
      discriminate. }
  split; [|exact Hok]. split.
  - intros Hc.
    destruct (parse_user_datetime env start_s) as [a|] eqn:E1; [|now left].
    destruct (parse_user_datetime env end_s) as [c|] eqn:E2; [|now right].
    exfalso. refine (Hok _ _ _ Hc); discriminate.
  - intros H. unfold print_range.
    now rewrite (@resolve_bounds_unparsed env path start_s end_s H).
Qed.

Lemma abort_iff_some_bound_unparsable_witness :
  run_control (print_range (env_plain scenario_A) logfile (py "1700000000")
                 (py "10:00:08") false (py "cyan"))
  = SysExit (ExitMsg parse_error).
Proof.
  apply (proj1 (abort_iff_some_bound_unparsable (env_plain scenario_A) logfile
                  (py "1700000000") (py "10:00:08") false (py "cyan"))).
  right. vm_compute. reflexivity.
Defined.

(** C7 as it is worded fails: the start bound parses, the end bound does
    not, and the run aborts all the same. *)
Lemma abort_with_one_bound_parsed :
  parse_user_datetime (env_of scenario_A) (py "10:00:03")
  = Some (at_clock today 10 0 3)
  /\ parse_user_datetime (env_of scenario_A) (py "later") = None
  /\ print_range (env_of scenario_A) logfile (py "10:00:03") (py "later")
       false (py "cyan")
     = {| run_stdout := []; run_control := SysExit (ExitMsg parse_error) |}.
Proof. repeat split; vm_compute; reflexivity. Qed.

End MainFacts.

(** ** The decoding of a line *)

Module DecodeFacts.
Import Tfind Notions CodecFacts.

(** C8, as the code has it.  The decoding of a line is total: for every
    byte sequence the permissive UTF-8 decoding returns a text, made of the
    code points of the well-formed sequences, the bytes that encode nothing
    dropped; the single-byte decoding is there to fall back on and is never
    needed. *)
Theorem decode_line_total (raw : bytes) :
  exists s,
    decode_line raw = inr s
    /\ decode_utf8 Ignore raw = inr s
    /\ s = code_points (utf8_scan (map Byte.to_N raw)).
Proof.
  exists (code_points (utf8_scan (map Byte.to_N raw))).
  split; [apply decode_line_eq|]. split; [apply decode_utf8_ignore|reflexivity].
Qed.

(** C8 as it is worded fails: a byte that is not UTF-8 is dropped, where
    the replacing decoder puts U+FFFD. *)
Lemma decode_line_drops_invalid :
  decode_line [x41; xff; x42] = inr (py "AB")
  /\ spec_decode_line [x41; xff; x42]
     = inr [chr "A"; replacement_character; chr "B"]
  /\ decode_line [x41; xff; x42] <> spec_decode_line [x41; xff; x42].
Proof.
  split; [vm_compute; reflexivity|].
  split; [vm_compute; reflexivity | vm_compute; discriminate].
Qed.

End DecodeFacts.

(** ** The epoch path *)

Module EpochFacts.
Import Re Tfind.

Lemma run_length_all (p : N -> bool) (s : str) :
  forallb p s = true ->
  forall n, run_length p (Some n) s = Nat.min n (length s).
Proof.
  induction s as [|c s IH]; simpl; intros H n.
  - now rewrite Nat.min_0_r.
  - apply andb_true_iff in H. destruct H as [Hc Hs]. rewrite Hc.
    destruct n as [|n]; [reflexivity|]. simpl. now rewrite IH.
Qed.

Lemma try_counts_short (A : Type) (j lo : nat) (st : mstate)
      (k : mstate -> option A) :
  j < lo -> try_counts j lo st k = None.
Proof.
  intros H. apply Nat.ltb_lt in H. destruct j; simpl; now rewrite H.
Qed.

Lemma try_counts_exact (A : Type) (lo : nat) (st : mstate)
      (k : mstate -> option A) :
  try_counts lo lo st k = k (advance lo st).
Proof.
  destruct lo as [|j]; simpl.
  - now destruct (k (advance 0 st)).
  - rewrite Nat.ltb_irrefl. destruct (k (advance (S j) st)); [reflexivity|].
    apply try_counts_short. lia.
Qed.

Lemma forallb_skipn (A : Type) (p : A -> bool) (n : nat) (s : list A) :
  forallb p s = true -> forallb p (skipn n s) = true.
Proof.
  revert s; induction n as [|n IH]; intros [|c s]; simpl; auto.
  intros H. apply andb_true_iff in H. now apply IH.
Qed.

Lemma digits_cs (s : str) :
  forallb isdigit s = true -> forallb (cs_match false CsDigit) s = true.
Proof.
  intros H. rewrite forallb_forall in *. intros c Hc.
  unfold cs_match. simpl. now rewrite (H c Hc).
Qed.

Lemma isdigit_not_nl (c : N) : isdigit c = true -> (c =? nl)%N = false.
Proof.
  unfold isdigit, between, nl. intros H. apply andb_true_iff in H.
  destruct H as [H _]. apply N.leb_le in H. apply N.eqb_neq. lia.
Qed.

(** On a string of digits [EPOCH_RE] matches the lengths 10 and 13 only. *)
Lemma epoch_match_digits (v : str) :
  forallb isdigit v = true ->
  (match_ EPOCH_RE v <> None <-> length v = 10 \/ length v = 13).
Proof.
  intros Hv. unfold match_, match_here, EPOCH_RE.
  cbn [pat_re pat_icase rmatch start_state ms_pos ms_rest Nat.eqb andb].
  rewrite (run_length_all _ _ (digits_cs _ Hv)).
  destruct (le_lt_dec 10 (length v)) as [Hle|Hlt].
  2:{ rewrite Nat.min_r by lia. rewrite try_counts_short by lia.
      split; [congruence | lia]. }
  rewrite Nat.min_l by lia. rewrite try_counts_exact.
  change (advance 10 (start_state v))
    with {| ms_pos := 10; ms_prev := nth_error v 9; ms_rest := skipn 10 v;
            ms_group := None |}.
  pose proof (forallb_skipn isdigit 10 v Hv) as Hr.
  pose proof (length_skipn 10 v) as Hl.
  remember (skipn 10 v) as r eqn:Er. clear Er.
  cbn [ms_rest].
  rewrite (run_length_all _ _ (digits_cs _ Hr)).
  destruct r as [|a [|b [|c [|d r']]]]; simpl in Hl.
  - cbn. split; [intros _; lia | congruence].
  - simpl in Hr. apply andb_true_iff in Hr. destruct Hr as [Ha _].
    cbn. rewrite (isdigit_not_nl _ Ha). split; [congruence | lia].
  - cbn. split; [congruence | lia].
  - cbn [length Nat.min]. rewrite try_counts_exact. cbn.
    split; [intros _; lia | congruence].
  - cbn [length Nat.min]. rewrite try_counts_exact.
    cbn [advance ms_rest skipn].
    simpl in Hr. do 3 (apply andb_true_iff in Hr; destruct Hr as [_ Hr]).
    apply andb_true_iff in Hr. destruct Hr as [Hd _].
    destruct r' as [|e r'].
    + rewrite (isdigit_not_nl _ Hd). split; [congruence | simpl in Hl; lia].
    + split; [congruence | simpl in Hl; lia].
Qed.

Lemma isdigit_not_space (c : N) : isdigit c = true -> isspace c = false.
Proof.
  unfold isdigit, between. intros H. apply andb_true_iff in H.
  destruct H as [H1 H2]. apply N.leb_le in H1. apply N.leb_le in H2.
  assert (E : (c = 48 \/ c = 49 \/ c = 50 \/ c = 51 \/ c = 52 \/ c = 53
               \/ c = 54 \/ c = 55 \/ c = 56 \/ c = 57)%N) by lia.
  repeat (destruct E as [E|E]; [subst c; reflexivity|]). subst c. reflexivity.
Qed.

Lemma lstrip_digits (v : str) : forallb isdigit v = true -> lstrip v = v.
Proof.
  destruct v as [|c v]; simpl; [reflexivity|]. intros H.
  apply andb_true_iff in H. destruct H as [H _].
  now rewrite (isdigit_not_space _ H).
Qed.

Lemma forallb_rev (A : Type) (p : A -> bool) (s : list A) :
  forallb p s = true -> forallb p (rev s) = true.
Proof.
  rewrite !forallb_forall. intros H x Hx. apply H. now apply in_rev.
Qed.

(** [int] of a string of digits reads the digits as they stand. *)
Lemma py_int_digits (v : str) :
  forallb isdigit v = true -> py_int v = int_of_digits v.
Proof.
  intros H. unfold py_int, strip, rstrip. rewrite (lstrip_digits _ H).
  rewrite (lstrip_digits _ (forallb_rev _ _ H)). now rewrite rev_involutive.
Qed.

(** C4.  On a string of digits the epoch path reads exactly 10 digits as
    Unix seconds and exactly 13 digits as Unix milliseconds; every other
    length is rejected by the epoch path, and the value goes to the flexible
    parser when there is one, and fails otherwise. *)
Theorem epoch_boundary (env : Env) (v : str) :
  forallb isdigit v = true ->
  (length v = 10 ->
   parse_epoch env v = fromtimestamp env (inject_Z (int_of_digits v)))
  /\ (length v = 13 ->
      parse_epoch env v = fromtimestamp env (Qmake (int_of_digits v) 1000))
  /\ (length v <> 10 -> length v <> 13 ->
      parse_epoch env v = None
      /\ parse_user_datetime env v
         = match dateutil_parser env with
           | Some parse => parse false v
           | None => None
           end).
Proof.
  intros Hv. pose proof (epoch_match_digits v Hv) as Hm.
  unfold parse_user_datetime, parse_epoch. rewrite (py_int_digits _ Hv).
  destruct (match_ EPOCH_RE v) as [m|].
  - assert (Hlen : length v = 10 \/ length v = 13)
      by (apply Hm; discriminate).
    split; [|split].
    + intros E. now rewrite E.
    + intros E. now rewrite E.
    + intros; lia.
  - assert (Hlen : ~ (length v = 10 \/ length v = 13))
      by (intros H; apply Hm in H; now apply H).
    split; [|split]; try (intros; lia).
    intros _ _. split; reflexivity.
Qed.

Lemma epoch_boundary_witness :
  parse_epoch (Sample.env_of Sample.scenario_A) (py "1700000000")
  = Sample.utc_fromtimestamp (inject_Z 1700000000)
  /\ parse_epoch (Sample.env_of Sample.scenario_A) (py "1700000000123")
     = Sample.utc_fromtimestamp (Qmake 1700000000123 1000)
  /\ parse_epoch (Sample.env_of Sample.scenario_A) (py "170000000012") = None.
Proof.
  split; [|split].
  - apply (epoch_boundary (Sample.env_of Sample.scenario_A) (py "1700000000"));
      reflexivity.
  - apply (epoch_boundary (Sample.env_of Sample.scenario_A)
             (py "1700000000123")); reflexivity.
  - apply (epoch_boundary (Sample.env_of Sample.scenario_A)
             (py "170000000012")); [reflexivity | | ]; vm_compute; lia.
Defined.

End EpochFacts.

(** ** The pattern learner *)

Module LearnerFacts.
Import Re Tfind Notions Sample.

Lemma span_length (p : N -> bool) (s : str) :
  length (snd (span p s)) <= length s.
Proof.
  induction s as [|c s IH]; simpl; [lia|].
  destruct (p c); simpl; [|lia].
  destruct (span p s) as [a b]. simpl in *. lia.
Qed.

Lemma span_head (p : N -> bool) (c : N) (s : str) :
  p c = true -> length (snd (span p (c :: s))) <= length s.
Proof.
  intros H. simpl. rewrite H. pose proof (span_length p s) as L.
  destruct (span p s) as [a b]. exact L.
Qed.

(** The scan of the example ends within [len(s)] steps. *)
Lemma tokenize_total (fuel : nat) (prev : option N) (s : str) :
  length s <= fuel -> tokenize fuel prev s <> None.
Proof.
  revert prev s. induction fuel as [|f IH]; intros prev [|ch t] H;
    try discriminate; [simpl in H; lia|].
  simpl in H. cbn [tokenize].
  destruct (isalpha ch) eqn:Ea.
  - pose proof (span_head isalpha ch t Ea) as L.
    destruct (span isalpha (ch :: t)) as [word rest]. simpl in L.
    specialize (IH (Some (last word ch)) rest ltac:(lia)).
    destruct (tokenize f (Some (last word ch)) rest); [discriminate|now elim IH].
  - destruct (isdigit ch) eqn:Ed.
    + pose proof (span_head isdigit ch t Ed) as L.
      destruct (span isdigit (ch :: t)) as [run rest]. simpl in L.
      specialize (IH (Some (last run ch)) rest ltac:(lia)).
      destruct (tokenize f (Some (last run ch)) rest); [discriminate|now elim IH].
    + specialize (IH (Some ch) t ltac:(lia)).
      destruct (ch =? chr ".")%N;
        destruct (tokenize f (Some ch) t); try discriminate; now elim IH.
Qed.

Lemma regex_source_total (example : str) : regex_source example <> None.
Proof.
  unfold regex_source.
  set (s := if endswith (chr "]") _ then _ else _).
  pose proof (tokenize_total None s (le_n _)) as H.
  destruct (tokenize (length s) None s); [discriminate|now elim H].
Qed.

(** C3, at an input where the code departs from it.  From the example
    [10:00:00.5] the learner writes a pattern that asks for at least two
    digits after the dot: one for the dot token, one for the digit run the
    scan then reads again.  The pattern compiles and matches the example
    nowhere, neither searched, nor from the start, nor as a whole; it does
    match the same time with two fraction digits. *)
Theorem learned_pattern_misses_own_example :
  regex_source (py "10:00:00.5")
  = Some (py "\[?(\d{1,2}:\d{1,2}:\d{1,2}\.\d{1,9}\d{1,4})\]?")
  /\ exists p,
      build_regex_from_example (py "10:00:00.5") = Some p
      /\ search p (py "10:00:00.5") = None
      /\ match_ p (py "10:00:00.5") = None
      /\ fullmatch p (py "10:00:00.5") = None
      /\ search p (py "10:00:00.55")
         = Some {| m_start := 0; m_end := 11; m_group1 := Some (0, 11) |}.
Proof.
  split; [vm_compute; reflexivity|].
  eexists. split; [vm_compute; reflexivity|].
  repeat split; vm_compute; reflexivity.
Qed.

End LearnerFacts.

(** ** The order of the bounds *)

Module BoundsFacts.
Import Re Tfind Notions MoreNotions Sample DatetimeFacts.

(** C10, at an input where the code departs from it.  The file is of the
    day the tool runs; the start bound is the time-only [09:00:00], the end
    bound the day before at [10:00:00].  The parsed end precedes the parsed
    start, so the two values are swapped; the test for a time-only bound is
    then made on the strings as they were given, and the anchor date goes
    to the value that has taken the place of the start.  The range that is
    searched runs from 10:00 to 09:00 of the same day: it is not the range
    from the smaller to the larger parsed value, which holds both lines of
    the file, and nothing is written.  With the same two bounds given in
    the other order the tool writes both lines. *)
Theorem reversed_mixed_bounds_empty :
  parse_user_datetime (env_of today_log) (py "09:00:00")
  = Some (at_clock today 9 0 0)
  /\ parse_user_datetime (env_of today_log) (py "2026-11-03 10:00:00")
     = Some (at_clock {| year := 2026; month := 11; day := 3 |} 10 0 0)
  /\ dt_lt (at_clock {| year := 2026; month := 11; day := 3 |} 10 0 0)
        (at_clock today 9 0 0) = Some true
  /\ (exists b,
         resolve_bounds (env_of today_log) logfile (py "09:00:00")
           (py "2026-11-03 10:00:00") = inr b
         /\ b_start b = at_clock today 10 0 0
         /\ b_end b = at_clock today 9 0 0
         /\ dt_le (b_start b) (b_end b) = Some false
         /\ filter (in_range (env_of today_log) (b_extractor b) (b_anchor b)
                      (at_clock {| year := 2026; month := 11; day := 3 |} 10 0 0)
                      (at_clock today 9 0 0))
              (lines_from today_log 0)
            = lines_from today_log 0)
  /\ print_range (env_of today_log) logfile (py "09:00:00")
       (py "2026-11-03 10:00:00") false (py "cyan")
     = {| run_stdout := []; run_control := Returned |}
  /\ print_range (env_of today_log) logfile (py "2026-11-03 10:00:00")
       (py "09:00:00") false (py "cyan")
     = {| run_stdout := py "2026-11-04 08:00:00 A" ++ [nl]
                        ++ py "2026-11-04 08:30:00 B" ++ [nl];
          run_control := Returned |}.
Proof.
  split; [vm_compute; reflexivity|].
  split; [vm_compute; reflexivity|].
  split; [vm_compute; reflexivity|].
  split.
  - eexists. split; [vm_compute; reflexivity|].
    cbn [b_start b_end b_extractor b_anchor].
    repeat split; vm_compute; reflexivity.
  - split; vm_compute; reflexivity.
Qed.

End BoundsFacts.

(** ** Scenario A, end to end *)

Module ScenarioFacts.
Import Re Tfind Notions Sample DatetimeFacts StreamFacts.

Section Steps.
Variable env : Env.
Variable extractor : Extractor.
Variable date_anchor : option date.

Lemma parse_epoch_no_match (value : str) :
  match_ EPOCH_RE value = None -> parse_epoch env value = None.
Proof. intros H. unfold parse_epoch. now rewrite H. Qed.

Lemma extract_user (p : Pattern) (line : str) (m : Match) :
  user_pattern extractor = Some p -> search p line = Some m ->
  extract env extractor line = group1 line m.
Proof. intros Hp Hs. unfold extract. now rewrite Hp, Hs. Qed.

(** One round of the anchor scan. *)
Lemma anchor_loop_step (n : nat) (line : str) (rest : list str) :
  anchor_loop env extractor (S n) (line :: rest)
  = match line_timestamp env extractor None line with
    | Some dt => Some (dt_date dt)
    | None => anchor_loop env extractor n rest
    end.
Proof.
  cbn [anchor_loop]. unfold line_timestamp.
  destruct (extract env extractor line) as [ts_text|]; [|reflexivity].
  now destruct (truthy ts_text).
Qed.

Variable data : bytes.
Variable target : datetime.

(** One round of the search whose probe is at or after the target. *)
Lemma bs_loop_down (fuel low hi : nat) (line : bytes) (s : str) (ts : datetime) :
  (low <? hi) = true ->
  readline data ((low + hi) / 2 + length (readline data ((low + hi) / 2)))
  = line ->
  line <> [] ->
  decode_line line = inr s ->
  line_timestamp env extractor date_anchor s = Some ts ->
  dt_lt ts target = Some false ->
  bs_loop env data target extractor date_anchor (S fuel) low hi
  = bs_loop env data target extractor date_anchor fuel low ((low + hi) / 2).
Proof.
  intros Hlt Hl Hne Hd Ht Hcmp. cbn [bs_loop]. rewrite Hlt, Hl.
  destruct line as [|b line']; [now elim Hne|]. now rewrite Hd, Ht, Hcmp.
Qed.

Variables start_dt end_dt : datetime.
Variable do_color : bool.
Variable color : str.

(** One round of the streamer on a line before the start bound. *)
Lemma stream_before (raw : bytes) (rest : list bytes) (line ts_text : str)
      (ts : datetime) :
  reads env extractor date_anchor raw line ts_text ts ->
  dt_gt ts end_dt = Some false -> dt_le start_dt ts = Some false ->
  stream env extractor date_anchor start_dt end_dt do_color color (raw :: rest)
  = stream env extractor date_anchor start_dt end_dt do_color color rest.
Proof.
  intros (Hd & He & Ht & Hp) Hgt Hle. cbn [stream].
  now rewrite Hd, He, Ht, Hp, Hgt, Hle.
Qed.

(** One round of the streamer on a line within the bounds. *)
Lemma stream_within (raw : bytes) (rest : list bytes) (line ts_text : str)
      (ts : datetime) :
  reads env extractor date_anchor raw line ts_text ts ->
  dt_le start_dt ts = Some true -> dt_le ts end_dt = Some true ->
  stream env extractor date_anchor start_dt end_dt do_color color (raw :: rest)
  = (written do_color color line ts_text
       :: fst (stream env extractor date_anchor start_dt end_dt do_color color rest),
     snd (stream env extractor date_anchor start_dt end_dt do_color color rest)).
Proof.
  intros (Hd & He & Ht & Hp) Hlo Hhi. cbn [stream].
  rewrite Hd, He, Ht, Hp, Hlo, Hhi.
  rewrite dt_le_gt in Hhi.
  destruct (dt_gt ts end_dt) as [[|]|]; try discriminate.
  unfold written. now destruct do_color.
Qed.
End Steps.

Lemma compare_at_clock (d : date) (h m s h' m' s' : Z) :
  Datetime.compare (at_clock d h m s) (at_clock d h' m' s')
  = lex_compare [h; m; s; 0%Z] [h'; m'; s'; 0%Z].
Proof.
  unfold Datetime.compare, key, at_clock, combine. cbn.
  now rewrite !Z.compare_refl.
Qed.

Ltac clock_order :=
  unfold dt_lt, dt_le, dt_gt, cmp; cbn [utcoffset at_clock combine];
  rewrite compare_at_clock; reflexivity.

Section ScenarioA.
Variable env : Env.
Variable parse : bool -> str -> option datetime.
Variable d : date.
Hypothesis Hdateutil : dateutil_parser env = Some parse.
Hypothesis Hfile : fs_read env logfile = Some scenario_A.
Hypothesis Hstart : parse false (py "10:00:03") = Some (at_clock d 10 0 3).
Hypothesis Hend : parse false (py "10:00:08") = Some (at_clock d 10 0 8).
Hypothesis HA : parse true (py "10:00:00") = Some (at_clock d 10 0 0).
Hypothesis HB : parse true (py "10:00:05") = Some (at_clock d 10 0 5).
Hypothesis HC : parse true (py "10:00:10") = Some (at_clock d 10 0 10).

Lemma user_bound (s : str) (t : datetime) :
  match_ EPOCH_RE s = None -> parse false s = Some t ->
  parse_user_datetime env s = Some t.
Proof.
  intros Hm Hp. unfold parse_user_datetime.
  now rewrite (parse_epoch_no_match env _ Hm), Hdateutil.
Qed.

(** A line whose clock time the learned pattern finds. *)
Lemma reads_clock (raw : bytes) (line ts_text : str) (m : Match) (h mi s : Z)
      (anchor : option date) :
  decode_line raw = inr line ->
  search (must (user_pattern clock_extractor)) line = Some m ->
  group1 line m = Some ts_text ->
  truthy ts_text = true ->
  match_ EPOCH_RE ts_text = None ->
  lacks_date ts_text = true ->
  parse true ts_text = Some (at_clock d h mi s) ->
  reads env clock_extractor anchor raw line ts_text
    (at_clock (match anchor with Some a => a | None => d end) h mi s).
Proof.
  intros Hd Hs Hg Ht Hm Hl Hp. repeat split; auto.
  - now rewrite (extract_user env clock_extractor
                   (p := must (user_pattern clock_extractor)) line eq_refl Hs).
  - unfold parse_line_timestamp.
    rewrite (parse_epoch_no_match env _ Hm), Hdateutil, Hp, Hl.
    now destruct anchor.
Qed.

Lemma reads_A (anchor : option date) :
  reads env clock_extractor anchor line_A (py "2024-01-01 10:00:00 A" ++ [nl])
    (py "10:00:00") (at_clock (match anchor with Some a => a | None => d end) 10 0 0).
Proof. eapply reads_clock; try exact HA; vm_compute; reflexivity. Qed.

Lemma reads_B (anchor : option date) :
  reads env clock_extractor anchor line_B (py "2024-01-01 10:00:05 B" ++ [nl])
    (py "10:00:05") (at_clock (match anchor with Some a => a | None => d end) 10 0 5).
Proof. eapply reads_clock; try exact HB; vm_compute; reflexivity. Qed.

Lemma reads_C (anchor : option date) :
  reads env clock_extractor anchor line_C (py "2024-01-01 10:00:10 C" ++ [nl])
    (py "10:00:10") (at_clock (match anchor with Some a => a | None => d end) 10 0 10).
Proof. eapply reads_clock; try exact HC; vm_compute; reflexivity. Qed.

(** The anchor is the date the parser gives a bare clock time. *)
Lemma scenario_anchor : find_first_date_anchor env logfile clock_extractor = Some d.
Proof.
  unfold find_first_date_anchor, open_text. rewrite Hfile.
  replace (match decode_utf8 Ignore scenario_A with
           | inr s => Some (text_lines_loop [] s)
           | inl _ => None
           end)
    with (Some [py "2024-01-01 10:00:00 A" ++ [nl];
                py "2024-01-01 10:00:05 B" ++ [nl];
                py "2024-01-01 10:00:10 C" ++ [nl]])
    by (vm_compute; reflexivity).
  change 2000 with (S 1999). rewrite anchor_loop_step.
  now rewrite (line_timestamp_reads (reads_A None)).
Qed.

Lemma scenario_bounds :
  resolve_bounds env logfile (py "10:00:03") (py "10:00:08")
  = inr {| b_start := at_clock d 10 0 3; b_end := at_clock d 10 0 8;
           b_extractor := clock_extractor; b_anchor := Some d |}.
Proof.
  cbv beta zeta delta [resolve_bounds].
  rewrite (user_bound (s := py "10:00:03") eq_refl Hstart).
  rewrite (user_bound (s := py "10:00:08") eq_refl Hend).
  assert (Ho : ordered (at_clock d 10 0 3) (at_clock d 10 0 8)
               = Some (at_clock d 10 0 3, at_clock d 10 0 8)).
  { unfold ordered.
    replace (dt_lt (at_clock d 10 0 8) (at_clock d 10 0 3)) with (Some false)
      by (symmetry; clock_order).
    reflexivity. }
  rewrite Ho.
  replace (input_is_time_only (py "10:00:03")) with true by (vm_compute; reflexivity).
  replace (input_is_time_only (py "10:00:08")) with true by (vm_compute; reflexivity).
  cbn [negb orb].
  change {| user_pattern := build_regex_from_example (py "10:00:03") |}
    with clock_extractor.
  rewrite scenario_anchor. reflexivity.
Qed.

Ltac probe :=
  erewrite bs_loop_down;
  [ | vm_compute; reflexivity
    | vm_compute; reflexivity
    | discriminate
    | vm_compute; reflexivity
    | first [ exact (line_timestamp_reads (reads_B (Some d)))
            | exact (line_timestamp_reads (reads_C (Some d))) ]
    | clock_order ].

(** The search probes line C once and line B six times, and ends at 0. *)
Lemma scenario_search :
  binary_search_start env logfile (at_clock d 10 0 3) clock_extractor (Some d)
  = Ok 0.
Proof.
  unfold binary_search_start, file_size. rewrite Hfile.
  change (length scenario_A) with 66.
  do 7 probe. reflexivity.
Qed.

Lemma scenario_stream (color : str) :
  stream env clock_extractor (Some d) (at_clock d 10 0 3) (at_clock d 10 0 8)
    false color (lines_from scenario_A 0)
  = ([py "2024-01-01 10:00:05 B" ++ [nl]], None).
Proof.
  change (lines_from scenario_A 0) with [line_A; line_B; line_C].
  erewrite stream_before; [ | exact (reads_A (Some d)) | clock_order ..].
  erewrite stream_within; [ | exact (reads_B (Some d)) | clock_order ..].
  erewrite stream_stop; [ | exact (reads_C (Some d)) | clock_order ].
  reflexivity.
Qed.

Lemma scenario_print_range (color : str) :
  print_range env logfile (py "10:00:03") (py "10:00:08") false color
  = {| run_stdout := py "2024-01-01 10:00:05 B" ++ [nl];
       run_control := Returned |}.
Proof.
  unfold print_range. rewrite scenario_bounds. cbn [b_start b_end b_extractor b_anchor].
  rewrite scenario_search, Hfile. cbn [andb].
  rewrite scenario_stream. reflexivity.
Qed.
End ScenarioA.

(** C2.  Scenario A, end to end.  The file holds the three lines A, B and C
    and the bounds are the time-only [10:00:03] and [10:00:08]; the date
    parser is any parser that reads the five clock times that occur, each on
    one and the same day.  The run returns normally and standard output is
    exactly line B. *)
Theorem scenario_A_output
        (env : Env) (parse : bool -> str -> option datetime) (d : date)
        (prog : str) :
  dateutil_parser env = Some parse ->
  fs_read env logfile = Some scenario_A ->
  parse false (py "10:00:03") = Some (at_clock d 10 0 3) ->
  parse false (py "10:00:08") = Some (at_clock d 10 0 8) ->
  parse true (py "10:00:00") = Some (at_clock d 10 0 0) ->
  parse true (py "10:00:05") = Some (at_clock d 10 0 5) ->
  parse true (py "10:00:10") = Some (at_clock d 10 0 10) ->
  main env [prog; logfile; py "10:00:03"; py "10:00:08"]
  = {| run_stdout := py "2024-01-01 10:00:05 B" ++ [nl];
       run_control := Returned |}.
Proof.
  intros Hdateutil Hfile Hstart Hend HA HB HC. unfold main. cbn [tl].
  replace (scan_args [logfile; py "10:00:03"; py "10:00:08"] false (py "cyan") [])
    with (false, py "cyan", [logfile; py "10:00:03"; py "10:00:08"])
    by (vm_compute; reflexivity).
  cbn [length Nat.ltb Nat.leb].
  apply scenario_print_range with (parse := parse) (d := d); assumption.
Qed.

Lemma scenario_A_output_witness :
  main (env_of scenario_A) [py "tfind"; logfile; py "10:00:03"; py "10:00:08"]
  = {| run_stdout := py "2024-01-01 10:00:05 B" ++ [nl];
       run_control := Returned |}.
Proof.
  apply (@scenario_A_output (env_of scenario_A) Sample.parse today (py "tfind"));
    vm_compute; reflexivity.
Defined.

End ScenarioFacts.

(** ** The range locator *)

Module LocatorFacts.
Import Re Tfind Notions Sample DatetimeFacts CodecFacts.

Lemma is_nl_eq (b : byte) : is_nl b = true -> b = x0a.
Proof. apply Byte.byte_dec_bl. Qed.


Lemma take_line_nonempty (l : bytes) : l <> [] -> 1 <= length (take_line l).
Proof.
  destruct l as [|b t]; [congruence|]. intros _. simpl.
  destruct (is_nl b); simpl; lia.
Qed.

(** A line that stops before the end of the data stops at a line feed. *)
Lemma take_line_end (l : bytes) :
  length (take_line l) < length l ->
  exists b, nth_error l (length (take_line l) - 1) = Some b /\ is_nl b = true.
Proof.
  induction l as [|b t IH]; simpl; [lia|].
  destruct (is_nl b) eqn:E; simpl.
  - intros _. exists b. now split.
  - intros H. destruct IH as (c & Hc & Hnl); [lia|].
    exists c. split; [|exact Hnl].
    rewrite Nat.sub_0_r.
    pose proof (@take_line_nonempty t) as Hne.
    destruct (length (take_line t)) as [|k] eqn:Ek.
    + destruct t; [simpl in H; lia|]. specialize (Hne ltac:(discriminate)). lia.
    + simpl in Hc. now rewrite Nat.sub_0_r in Hc.
Qed.

Section Probe.
Variable data : bytes.


Lemma next_line_after (mid : nat) : mid < length data -> mid < next_line data mid.
Proof.
  intros H. unfold next_line, readline.
  assert (Hne : skipn mid data <> []).
  { intros E. apply (f_equal (@length byte)) in E.
    rewrite length_skipn in E. simpl in E. lia. }
  pose proof (take_line_nonempty Hne). lia.
Qed.

Lemma next_line_is_start (mid : nat) :
  mid < length data -> next_line data mid < length data ->
  is_line_start data (next_line data mid) = true.
Proof.
  intros Hmid Hpos. pose proof (next_line_after Hmid) as Hafter.
  unfold next_line, readline in *.
  destruct (take_line_end (skipn mid data)) as (b & Hb & Hnl).
  { rewrite length_skipn. lia. }
  rewrite nth_error_skipn in Hb.
  set (k := length (take_line (skipn mid data))) in *.
  replace (mid + k) with (S (mid + (k - 1))) by lia.
  simpl. now rewrite Hb.
Qed.

Lemma readline_empty (pos : nat) : readline data pos = [] -> length data <= pos.
Proof.
  unfold readline. intros H.
  destruct (le_lt_dec (length data) pos) as [|Hlt]; [assumption|].
  assert (Hne : skipn pos data <> []).
  { intros E. apply (f_equal (@length byte)) in E.
    rewrite length_skipn in E. simpl in E. lia. }
  pose proof (take_line_nonempty Hne) as L. rewrite H in L. simpl in L. lia.
Qed.
End Probe.

Lemma div2_between (low hi : nat) : low < hi -> low <= (low + hi) / 2 < hi.
Proof.
  intros H. split.
  - apply Nat.div_le_lower_bound; lia.
  - apply Nat.Div0.div_lt_upper_bound; lia.
Qed.

Section Search.
Variable env : Env.
Variable extractor : Extractor.
Variable date_anchor : option date.
Variable data : bytes.
Variable target : datetime.

(** The search ends with an offset or with the [TypeError] of a
    comparison, whatever the file holds: it never runs out of fuel. *)
Lemma bs_loop_ends (fuel low hi : nat) :
  hi - low <= fuel ->
  (exists r, bs_loop env data target extractor date_anchor fuel low hi = Ok r)
  \/ bs_loop env data target extractor date_anchor fuel low hi = Raise TypeError.
Proof.
  revert low hi. induction fuel as [|fuel IH]; intros low hi Hf.
  - simpl. replace (low <? hi) with false by (symmetry; apply Nat.ltb_ge; lia).
    left. now exists low.
  - cbn [bs_loop]. destruct (low <? hi) eqn:Hlt; [|left; now exists low].
    apply Nat.ltb_lt in Hlt. pose proof (div2_between Hlt) as Hmid.
    set (mid := (low + hi) / 2) in *.
    set (pos := mid + length (readline data mid)).
    destruct (readline data pos) as [|b line'] eqn:Hline; [left; now exists low|].
    rewrite decode_line_eq.
    destruct (line_timestamp env extractor date_anchor _) as [ts|].
    + destruct (dt_lt ts target) as [[|]|]; [| |now right];
        apply IH; unfold pos; lia.
    + apply IH. unfold pos. lia.
Qed.

Hypothesis Hsorted : Sorted_file env extractor date_anchor data.
Hypothesis Hcomparable : Comparable_file env extractor date_anchor data target.

Lemma bs_loop_sound (fuel low hi : nat) :
  hi <= length data -> hi - low <= fuel -> low <= length data ->
  below env extractor date_anchor data target low ->
  exists r,
    bs_loop env data target extractor date_anchor fuel low hi = Ok r
    /\ r <= length data
    /\ below env extractor date_anchor data target r.
Proof.
  revert low hi. induction fuel as [|fuel IH]; intros low hi Hhi Hf Hlen Hlow.
  - simpl. replace (low <? hi) with false by (symmetry; apply Nat.ltb_ge; lia).
    now exists low.
  - cbn [bs_loop]. destruct (low <? hi) eqn:Hlt; [|now exists low].
    apply Nat.ltb_lt in Hlt. pose proof (div2_between Hlt) as Hmid.
    set (mid := (low + hi) / 2) in *.
    assert (Hafter : mid < next_line data mid) by (apply next_line_after; lia).
    fold (next_line data mid). set (pos := next_line data mid) in *.
    destruct (readline data pos) as [|b line'] eqn:Hline; [now exists low|].
    assert (Hpos : pos < length data).
    { destruct (le_lt_dec (length data) pos) as [Hge|]; [|assumption].
      unfold readline in Hline. rewrite skipn_all2 in Hline by assumption.
      discriminate. }
    assert (Hstart : is_line_start data pos = true)
      by (apply next_line_is_start; [lia|assumption]).
    destruct (Hsorted (le_n pos) Hpos Hstart Hstart) as (t & _ & Ht & _ & _).
    assert (Hts : line_timestamp env extractor date_anchor
                    (code_points (utf8_scan (map Byte.to_N (b :: line'))))
                  = Some t).
    { unfold timestamp_at in Ht. rewrite Hline, decode_line_eq in Ht. exact Ht. }
    rewrite decode_line_eq, Hts.
    destruct (@dt_cmp_lt t target (Hcomparable Hpos Hstart Ht)) as [res Hcmp].
    rewrite Hcmp. destruct res.
    + apply IH; [assumption | lia | lia |].
      intros p Hp Hps.
      destruct (Hsorted (p := p) (q := pos) ltac:(lia) Hpos Hps Hstart)
        as (tp & tq & Htp & Htq & Hle).
      exists tp. split; [assumption|].
      rewrite Ht in Htq. injection Htq as <-.
      exact (dt_le_lt_trans _ _ _ Hle Hcmp).
    + apply IH; [lia | lia | assumption | assumption].
Qed.
End Search.

(** The tests of sortedness and of comparability decide them. *)
Lemma sorted_fileb_ok (env : Env) (extractor : Extractor)
      (date_anchor : option date) (data : bytes) :
  sorted_fileb env extractor date_anchor data = true ->
  Sorted_file env extractor date_anchor data.
Proof.
  unfold sorted_fileb, Sorted_file. intros H p q Hpq Hq Hp Hqs.
  rewrite forallb_forall in H.
  assert (Hin : forall x, x < length data -> is_line_start data x = true ->
                          In x (filter (is_line_start data) (seq 0 (length data)))).
  { intros x Hx Hxs. apply filter_In. split; [|assumption].
    apply in_seq. lia. }
  specialize (H p (Hin p ltac:(lia) Hp)).
  rewrite forallb_forall in H. specialize (H q (Hin q Hq Hqs)).
  replace (p <=? q) with true in H by (symmetry; apply Nat.leb_le; lia).
  cbn [negb orb] in H.
  destruct (timestamp_at env extractor date_anchor data p) as [tp|];
    [|discriminate].
  destruct (timestamp_at env extractor date_anchor data q) as [tq|];
    [|discriminate].
  exists tp, tq. repeat split.
  now destruct (dt_le tp tq) as [[|]|].
Qed.

Lemma comparable_fileb_ok (env : Env) (extractor : Extractor)
      (date_anchor : option date) (data : bytes) (x : datetime) :
  comparable_fileb env extractor date_anchor data x = true ->
  Comparable_file env extractor date_anchor data x.
Proof.
  unfold comparable_fileb, Comparable_file. intros H p t Hp Hps Ht.
  rewrite forallb_forall in H.
  assert (Hin : In p (filter (is_line_start data) (seq 0 (length data)))).
  { apply filter_In. split; [|assumption]. apply in_seq. lia. }
  specialize (H p Hin). rewrite Ht in H.
  now destruct (cmp t x).
Qed.

(** The search never runs out of fuel; when it raises, a comparison did. *)
Lemma binary_search_start_ends (env : Env) (path : str) (data : bytes)
      (target : datetime) (extractor : Extractor) (date_anchor : option date) :
  fs_read env path = Some data ->
  (exists r, binary_search_start env path target extractor date_anchor = Ok r)
  \/ binary_search_start env path target extractor date_anchor = Raise TypeError.
Proof.
  intros Hf. unfold binary_search_start, file_size. rewrite Hf.
  apply bs_loop_ends. lia.
Qed.

(** C1, as the code has it.  On a file whose lines all carry a timestamp,
    in non-decreasing order, and one that can be compared with the start
    bound, the search ends with an offset [r] within the file such that
    every line beginning before [r] has a timestamp before the start bound:
    no line at or after the start bound begins before [r], so reading on
    from [r] meets all of them. *)
Theorem binary_search_start_lower_bound
        (env : Env) (path : str) (data : bytes) (target : datetime)
        (extractor : Extractor) (date_anchor : option date) :
  fs_read env path = Some data ->
  Sorted_file env extractor date_anchor data ->
  Comparable_file env extractor date_anchor data target ->
  exists r,
    binary_search_start env path target extractor date_anchor = Ok r
    /\ r <= length data
    /\ (forall p, p < r -> is_line_start data p = true ->
          exists t, timestamp_at env extractor date_anchor data p = Some t
                    /\ dt_lt t target = Some true)
    /\ (forall p t, p < length data -> is_line_start data p = true ->
          timestamp_at env extractor date_anchor data p = Some t ->
          dt_le target t = Some true -> r <= p).
Proof.
  intros Hf Hsorted Hcomparable. unfold binary_search_start, file_size.
  rewrite Hf.
  destruct (@bs_loop_sound env extractor date_anchor data target Hsorted
              Hcomparable (length data) 0 (length data))
    as (r & Hr & Hlen & Hbelow); try lia.
  { intros p Hp. lia. }
  exists r. split; [exact Hr|]. split; [exact Hlen|]. split; [exact Hbelow|].
  intros p t Hp Hps Ht Hle.
  destruct (le_lt_dec r p) as [|Hlt]; [assumption|].
  destruct (Hbelow p Hlt Hps) as (t' & Ht' & Hcmp).
  rewrite Ht in Ht'. injection Ht' as <-.
  rewrite (dt_lt_not_le _ _ Hcmp) in Hle. discriminate.
Qed.

Lemma binary_search_start_lower_bound_witness :
  binary_search_start (env_of scenario_A) logfile (at_clock today 10 0 6)
    clock_extractor (Some today) = Ok 23
  /\ (forall p, p < 23 -> is_line_start scenario_A p = true ->
        exists t,
          timestamp_at (env_of scenario_A) clock_extractor (Some today)
            scenario_A p = Some t
          /\ dt_lt t (at_clock today 10 0 6) = Some true)
  /\ (forall p t, p < length scenario_A -> is_line_start scenario_A p = true ->
        timestamp_at (env_of scenario_A) clock_extractor (Some today)
          scenario_A p = Some t ->
        dt_le (at_clock today 10 0 6) t = Some true -> 23 <= p).
Proof.
  destruct (@binary_search_start_lower_bound (env_of scenario_A) logfile
              scenario_A (at_clock today 10 0 6) clock_extractor (Some today))
    as (r & Hr & _ & Hlow & Hup).
  - reflexivity.
  - apply sorted_fileb_ok. vm_compute. reflexivity.
  - apply comparable_fileb_ok. vm_compute. reflexivity.
  - assert (E : Ok r = Ok 23) by (rewrite <- Hr; vm_compute; reflexivity).
    injection E as ->. split; [exact Hr|]. split; assumption.
Defined.

(** C1 as it is worded fails, on the sorted file of scenario A.  For the
    start bound 10:00:03 the search returns the offset 0, where the line
    that begins has the timestamp 10:00:00, before the bound.  For the
    start bound 10:00:20 it returns 45, one byte into the last line: no line
    begins there. *)
Lemma locator_misses_first_match :
  sorted_fileb (env_of scenario_A) clock_extractor (Some today) scenario_A = true
  /\ binary_search_start (env_of scenario_A) logfile (at_clock today 10 0 3)
       clock_extractor (Some today) = Ok 0
  /\ timestamp_at (env_of scenario_A) clock_extractor (Some today) scenario_A 0
     = Some (at_clock today 10 0 0)
  /\ dt_le (at_clock today 10 0 3) (at_clock today 10 0 0) = Some false
  /\ binary_search_start (env_of scenario_A) logfile (at_clock today 10 0 20)
       clock_extractor (Some today) = Ok 45
  /\ is_line_start scenario_A 45 = false
  /\ is_line_start scenario_A 44 = true.
Proof. repeat split; vm_compute; reflexivity. Qed.

(** The fuel of the model is never what ends a run. *)
Lemma print_range_has_fuel (env : Env) (path start_s end_s : str)
      (readability : bool) (color : str) :
  run_control (print_range env path start_s end_s readability color) <> NoFuel.
Proof.
  unfold print_range.
  destruct (resolve_bounds env path start_s end_s) as [c|b] eqn:Hb.
  - unfold resolve_bounds in Hb.
    destruct (parse_user_datetime env start_s), (parse_user_datetime env end_s);
      try (injection Hb as <-; discriminate).
    destruct (ordered _ _) as [[x y]|]; [discriminate|].
    injection Hb as <-. discriminate.
  - destruct (fs_read env path) as [data|] eqn:Hf.
    + destruct (binary_search_start_ends env path (b_start b) (b_extractor b)
                  (b_anchor b) Hf) as [(r & Hr)|Hr]; rewrite Hr;
        [|discriminate].
      now destruct (stream env (b_extractor b) (b_anchor b) (b_start b) (b_end b)
                      (readability && ansi_enabled env) color (lines_from data r))
        as [out [e|]].
    + unfold binary_search_start, file_size. rewrite Hf. discriminate.
Qed.

End LocatorFacts.

(* ------------------------------------------------------------------------- *)
(** * Further properties *)

(** ** Colors and the command line *)

Module OptionFacts.
Import Re Tfind Notions MoreNotions Sample.

(** X1.  [colorize] puts the code of the color before the text and the
    reset code after it: each of the seven names of [COLOR_CODES] gets the
    code the table gives it, and a color that is not one of them gets the
    code of cyan. *)
Theorem colorize_codes (text color : str) :
  (forall name code,
      In (name, code) COLOR_CODES ->
      colorize text name = code ++ text ++ (esc :: py "[0m"))
  /\ (known_color color = false ->
      colorize text color = (esc :: py "[36m") ++ text ++ (esc :: py "[0m")).
Proof.
  split.
  - intros name code H. unfold COLOR_CODES in H. cbn [In] in H.
    repeat (destruct H as [H|H]; [injection H as <- <-; reflexivity|]).
    contradiction.
  - unfold known_color, colorize, COLOR_CODES. cbn [existsb fst].
    intros H. repeat (apply orb_false_iff in H; destruct H as [?E H]).
    cbn [dict_get]. rewrite E, E0, E1, E2, E3, E4, E5.
    reflexivity.
Qed.

Lemma colorize_codes_witness :
  colorize (py "10:00:05") (py "red")
  = (esc :: py "[31m") ++ py "10:00:05" ++ (esc :: py "[0m")
  /\ colorize (py "10:00:05") (py "purple")
     = (esc :: py "[36m") ++ py "10:00:05" ++ (esc :: py "[0m").
Proof.
  split.
  - apply (proj1 (colorize_codes (py "10:00:05") (py "purple"))
             (py "red") (esc :: py "[31m")).
    vm_compute. tauto.
  - apply (proj2 (colorize_codes (py "10:00:05") (py "purple"))).
    vm_compute. reflexivity.
Defined.

(** Without highlighting the streamer does not look at the color. *)
Lemma stream_plain_color (env : Env) (extractor : Extractor)
      (date_anchor : option date) (start_dt end_dt : datetime)
      (color color' : str) (lines : list bytes) :
  stream env extractor date_anchor start_dt end_dt false color lines
  = stream env extractor date_anchor start_dt end_dt false color' lines.
Proof.
  induction lines as [|raw rest IH]; [reflexivity|]. cbn [stream].
  destruct (decode_line raw) as [e|line]; [reflexivity|].
  destruct (extract env extractor line) as [ts_text|]; [|exact IH].
  destruct (truthy ts_text); [|exact IH].
  destruct (parse_line_timestamp env ts_text date_anchor) as [ts|]; [|exact IH].
  destruct (dt_gt ts end_dt) as [[|]|]; try reflexivity.
  destruct (dt_le start_dt ts) as [[|]|]; try reflexivity; try exact IH.
  destruct (dt_le ts end_dt) as [[|]|]; try reflexivity; try exact IH.
  cbn [andb]. now rewrite IH.
Qed.

(** X2.  When standard output is not a terminal, or [NO_COLOR] is set to a
    non-empty value, the readability option changes nothing: the run is the
    run without the option, whatever color was asked for. *)
Theorem readability_off_without_terminal
        (env : Env) (path start_s end_s color color' : str) :
  stdout_isatty env = false
  \/ (exists v, environ_NO_COLOR env = Some v /\ v <> []) ->
  print_range env path start_s end_s true color
  = print_range env path start_s end_s false color'.
Proof.
  intros H.
  assert (Hoff : ansi_enabled env = false).
  { unfold ansi_enabled. destruct H as [H|(v & Hv & Hne)].
    - now rewrite H.
    - rewrite Hv. destruct v; [now elim Hne|]. cbn. apply andb_false_r. }
  unfold print_range. rewrite Hoff. cbn [andb].
  destruct (resolve_bounds env path start_s end_s) as [c|b]; [reflexivity|].
  destruct (binary_search_start env path (b_start b) (b_extractor b) (b_anchor b))
    as [r|e|]; try reflexivity.
  destruct (fs_read env path) as [data|]; [|reflexivity].
  now rewrite (stream_plain_color env (b_extractor b) (b_anchor b) (b_start b)
                 (b_end b) color color' (lines_from data r)).
Qed.

Lemma readability_off_without_terminal_witness :
  print_range (env_of scenario_A) logfile (py "10:00:03") (py "10:00:08") true
    (py "red")
  = print_range (env_of scenario_A) logfile (py "10:00:03") (py "10:00:08") false
      (py "cyan").
Proof.
  apply (@readability_off_without_terminal (env_of scenario_A) logfile
           (py "10:00:03") (py "10:00:08") (py "red") (py "cyan")).
  left. reflexivity.
Defined.

(** What the loop of [main] returns: whether an option was met, the color
    of the last [--readability=COLOR], and the other arguments in order. *)
Lemma scan_args_result (argv : list str) (readability : bool) (color : str)
      (args : list str) :
  scan_args argv readability color args
  = (readability || existsb is_option argv,
     fold_left (fun c a => if sets_color a then after_equals a else c) argv color,
     args ++ filter (fun a => negb (is_option a)) argv).
Proof.
  revert readability color args.
  induction argv as [|a rest IH]; intros readability color args.
  - cbn. now rewrite orb_false_r, app_nil_r.
  - cbn [scan_args filter existsb fold_left]. unfold is_option, sets_color.
    destruct (Str.eqb a (py "-r") || Str.eqb a (py "--readability")).
    + rewrite IH. cbn [orb negb andb]. now rewrite orb_true_r.
    + destruct (prefixb (py "--readability=") a).
      * rewrite IH. cbn [orb negb andb]. now rewrite orb_true_r.
      * rewrite IH. cbn [orb negb andb]. now rewrite <- app_assoc.
Qed.

(** X3.  With more than three positional arguments [main] ends with an
    uncaught [ValueError] (the three names cannot take the list) and writes
    nothing to standard output. *)
Theorem main_too_many_arguments (env : Env) (argv : list str) :
  3 < length (positional argv) ->
  main env argv = {| run_stdout := []; run_control := Uncaught ValueError |}.
Proof.
  unfold positional, main. rewrite scan_args_result. cbn [app].
  intros H.
  destruct (filter (fun a => negb (is_option a)) (tl argv))
    as [|a [|b [|c [|d l]]]]; cbn in H; try lia.
  reflexivity.
Qed.

Lemma main_too_many_arguments_witness :
  main (env_of scenario_A)
    [py "tfind"; logfile; py "10:00:03"; py "10:00:08"; py "10:00:09"]
  = {| run_stdout := []; run_control := Uncaught ValueError |}.
Proof.
  apply (@main_too_many_arguments (env_of scenario_A)
           [py "tfind"; logfile; py "10:00:03"; py "10:00:08"; py "10:00:09"]).
  vm_compute. lia.
Defined.

(** X4.  With exactly three positional arguments [main] is [print_range] on
    them, wherever the options stand among them: readability is on exactly
    when an option is given, and the color is that of the last
    [--readability=COLOR], cyan when there is none. *)
Theorem main_runs_print_range (env : Env) (argv : list str)
        (path start_s end_s : str) :
  positional argv = [path; start_s; end_s] ->
  main env argv
  = print_range env path start_s end_s (existsb is_option (tl argv))
      (fold_left (fun c a => if sets_color a then after_equals a else c)
         (tl argv) (py "cyan")).
Proof.
  unfold positional, main. rewrite scan_args_result. cbn [app orb].
  intros H. rewrite H. reflexivity.
Qed.

Lemma main_runs_print_range_witness :
  main (env_of scenario_A)
    [py "tfind"; logfile; py "--readability=red"; py "10:00:03"; py "-r";
     py "10:00:08"]
  = print_range (env_of scenario_A) logfile (py "10:00:03") (py "10:00:08")
      true (py "red").
Proof.
  apply (@main_runs_print_range (env_of scenario_A)
           [py "tfind"; logfile; py "--readability=red"; py "10:00:03"; py "-r";
            py "10:00:08"] logfile (py "10:00:03") (py "10:00:08")).
  vm_compute. reflexivity.
Defined.

End OptionFacts.

(** ** More on the streamer *)

Module StreamMore.
Import Re Tfind Notions MoreNotions Sample DatetimeFacts CodecFacts StreamFacts.

Lemma subseq_nil (A : Type) (l : list A) : Subseq [] l.
Proof. induction l; constructor; assumption. Qed.

Section Streaming.
Variable env : Env.
Variable extractor : Extractor.
Variable date_anchor : option date.
Variables start_dt end_dt : datetime.
Variable color : str.

Lemma stream_empty_range (do_color : bool) (lines : list bytes) :
  dt_le start_dt end_dt <> Some true ->
  fst (stream env extractor date_anchor start_dt end_dt do_color color lines)
  = [].
Proof.
  intros Hempty. induction lines as [|raw rest IH]; [reflexivity|].
  cbn [stream]. rewrite decode_line_eq.
  destruct (extract env extractor _) as [ts_text|]; [|exact IH].
  destruct (truthy ts_text); [|exact IH].
  destruct (parse_line_timestamp env ts_text date_anchor) as [ts|]; [|exact IH].
  destruct (dt_gt ts end_dt) as [[|]|]; try reflexivity.
  destruct (dt_le start_dt ts) as [[|]|] eqn:H1; try reflexivity; try exact IH.
  destruct (dt_le ts end_dt) as [[|]|] eqn:H2; try reflexivity; try exact IH.
  elim Hempty. exact (dt_le_trans _ _ _ H1 H2).
Qed.

Lemma stream_subseq (lines : list bytes) :
  Subseq (fst (stream env extractor date_anchor start_dt end_dt false color lines))
         (map text_of lines).
Proof.
  induction lines as [|raw rest IH]; [constructor|].
  cbn [stream map]. rewrite decode_line_eq. fold (text_of raw).
  destruct (extract env extractor (text_of raw)) as [ts_text|];
    [|now constructor].
  destruct (truthy ts_text); [|now constructor].
  destruct (parse_line_timestamp env ts_text date_anchor) as [ts|];
    [|now constructor].
  destruct (dt_gt ts end_dt) as [[|]|]; try apply subseq_nil.
  destruct (dt_le start_dt ts) as [[|]|]; try apply subseq_nil;
    try (now constructor).
  destruct (dt_le ts end_dt) as [[|]|]; try apply subseq_nil;
    now constructor.
Qed.


End Streaming.



(** X5.  A range whose start is after its end gives no output: whatever
    the file holds, [print_range] writes nothing.  The same holds when the
    two settled bounds cannot be compared: all it takes is that
    [start <= end] does not hold. *)
Theorem empty_range_writes_nothing
        (env : Env) (path start_s end_s : str) (readability : bool)
        (color : str) (b : Bounds) :
  resolve_bounds env path start_s end_s = inr b ->
  dt_le (b_start b) (b_end b) <> Some true ->
  run_stdout (print_range env path start_s end_s readability color) = [].
Proof.
  intros Hb Hempty. unfold print_range. rewrite Hb.
  destruct (binary_search_start env path (b_start b) (b_extractor b) (b_anchor b))
    as [r|e|]; try reflexivity.
  destruct (fs_read env path) as [data|]; [|reflexivity].
  pose proof (@stream_empty_range env (b_extractor b) (b_anchor b) (b_start b)
                (b_end b) color (readability && ansi_enabled env)
                (lines_from data r)) as H.
  destruct (stream _ _ _ _ _ _ _ _) as [out e]. cbn [fst] in H.
  cbn [run_stdout]. rewrite H; [reflexivity|assumption].
Qed.

Lemma empty_range_writes_nothing_witness :
  run_stdout (print_range (env_of today_log) logfile (py "09:00:00")
                (py "2026-11-03 10:00:00") false (py "cyan")) = [].
Proof.
  eapply (@empty_range_writes_nothing (env_of today_log) logfile (py "09:00:00")
            (py "2026-11-03 10:00:00") false (py "cyan")).
  - vm_compute. reflexivity.
  - vm_compute. discriminate.
Defined.



(** X7.  Without highlighting, what the streamer writes is a selection of
    the lines it reads, in their order and as they were decoded: no line is
    written twice, out of order, or changed. *)
Theorem stream_writes_lines_in_order
        (env : Env) (extractor : Extractor) (date_anchor : option date)
        (start_dt end_dt : datetime) (color : str) (lines : list bytes) :
  Subseq (fst (stream env extractor date_anchor start_dt end_dt false color lines))
         (map text_of lines).
Proof. apply stream_subseq. Qed.

End StreamMore.

(** ** The extractor and the highlighting *)

Module ExtractFacts.
Import Re Tfind Notions MoreNotions Sample CodecFacts StreamFacts.

Lemma occurs_in_refl (s : str) : occurs_in s s.
Proof. exists [], []. now rewrite app_nil_r. Qed.

Lemma occurs_in_trans (a b c : str) :
  occurs_in a b -> occurs_in b c -> occurs_in a c.
Proof.
  intros (p1 & q1 & H1) (p2 & q2 & H2). subst b c.
  exists (p2 ++ p1), (q1 ++ q2). now rewrite !app_assoc.
Qed.

Lemma slice_occurs (i j : nat) (s : str) : occurs_in (slice i j s) s.
Proof.
  unfold slice. exists (firstn i s), (skipn (j - i) (skipn i s)).
  now rewrite firstn_skipn, firstn_skipn.
Qed.

Lemma lstrip_suffix (s : str) : exists pre, s = pre ++ lstrip s.
Proof.
  induction s as [|c t (pre & IH)]; [now exists []|]. simpl.
  destruct (isspace c).
  - exists (c :: pre). simpl. now rewrite <- IH.
  - now exists [].
Qed.

Lemma strip_occurs (s : str) : occurs_in (strip s) s.
Proof.
  unfold strip, rstrip.
  destruct (lstrip_suffix s) as (pre & Hpre).
  destruct (lstrip_suffix (rev (lstrip s))) as (post & Hpost).
  exists pre, (rev post).
  rewrite <- rev_app_distr, <- Hpost, rev_involutive. exact Hpre.
Qed.

Lemma extract_occurs (env : Env) (extractor : Extractor) (line ts_text : str) :
  extract env extractor line = Some ts_text -> occurs_in ts_text line.
Proof.
  unfold extract.
  destruct (match user_pattern extractor with
            | Some p => search p line
            | None => None
            end) as [m|].
  - unfold group1. destruct (m_group1 m) as [[i j]|]; [|discriminate].
    intros H. injection H as <-. apply slice_occurs.
  - destruct (search TIME_CORE_RE line) as [m|].
    + intros H. injection H as <-.
      eapply occurs_in_trans; [apply strip_occurs | apply slice_occurs].
    + destruct (dateutil_parser env); [|discriminate].
      destruct (existsb isdigit line); [|discriminate].
      intros H. injection H as <-. apply occurs_in_refl.
Qed.

Lemma prefixb_app (p r : str) : prefixb p (p ++ r) = true.
Proof.
  induction p as [|x p IH]; [reflexivity|]. simpl. now rewrite N.eqb_refl.
Qed.

Lemma prefixb_split (p s : str) :
  prefixb p s = true -> s = p ++ skipn (length p) s.
Proof.
  revert s. induction p as [|x p IH]; intros [|y s]; simpl; try discriminate;
    try reflexivity.
  intros H. apply andb_true_iff in H. destruct H as [Hx Hp].
  apply N.eqb_eq in Hx. subst y. f_equal. now apply IH.
Qed.

(** [replace1] puts [new] where [old] first occurs: no occurrence of [old]
    begins before the one it replaces. *)
Lemma replace1_first (old new s : str) :
  occurs_in old s ->
  exists pre post,
    s = pre ++ old ++ post
    /\ (forall pre' post', s = pre' ++ old ++ post' -> length pre <= length pre')
    /\ replace1 old new s = pre ++ new ++ post.
Proof.
  induction s as [|c t IH]; intros (pre & post & H).
  - destruct pre; [|discriminate]. destruct old; [|discriminate].
    exists [], []. repeat split. intros; simpl; lia.
  - cbn [replace1]. destruct (prefixb old (c :: t)) eqn:E.
    + exists [], (skipn (length old) (c :: t)). split; [|split; [|reflexivity]].
      * now apply prefixb_split.
      * intros; simpl; lia.
    + destruct pre as [|x pre].
      * simpl in H. rewrite H, prefixb_app in E. discriminate.
      * injection H as -> Ht.
        destruct IH as (pre' & post' & Hs & Hmin & Hr); [now exists pre, post|].
        exists (x :: pre'), post'. split; [now rewrite Hs|]. split.
        -- intros [|y p2] q2 H2.
           ++ simpl in H2. rewrite H2, prefixb_app in E. discriminate.
           ++ injection H2 as _ H2. simpl. apply le_n_S. now apply (Hmin p2 q2).
        -- simpl. now rewrite Hr.
Qed.

(** X8.  The candidate the extractor returns is text of the line itself: a
    run of consecutive characters of the line, whichever of the three
    attempts produced it. *)
Theorem extract_returns_text_of_line
        (env : Env) (extractor : Extractor) (line ts_text : str) :
  extract env extractor line = Some ts_text ->
  exists pre post, line = pre ++ ts_text ++ post.
Proof. apply extract_occurs. Qed.

Lemma extract_returns_text_of_line_witness :
  exists pre post,
    py "2024-01-01 10:00:05 B" ++ [nl] = pre ++ py "10:00:05" ++ post.
Proof.
  apply (@extract_returns_text_of_line (env_of scenario_A) clock_extractor
           (py "2024-01-01 10:00:05 B" ++ [nl]) (py "10:00:05")).
  vm_compute. reflexivity.
Defined.

(** X9.  With highlighting on, every line the streamer writes is a line it
    read with the color code put before the first occurrence of its
    timestamp candidate and the reset code after it.  The candidate is what
    the extractor returns for the line, it is not empty, and no occurrence
    of it in the line begins before the one that is wrapped; taking the two
    codes away gives the line back. *)
Theorem highlight_wraps_candidate
        (env : Env) (extractor : Extractor) (date_anchor : option date)
        (start_dt end_dt : datetime) (color : str) (lines : list bytes)
        (out : str) :
  In out (fst (stream env extractor date_anchor start_dt end_dt true color lines)) ->
  exists raw ts_text pre post,
    In raw lines
    /\ extract env extractor (text_of raw) = Some ts_text
    /\ ts_text <> []
    /\ text_of raw = pre ++ ts_text ++ post
    /\ (forall pre' post',
           text_of raw = pre' ++ ts_text ++ post' -> length pre <= length pre')
    /\ out = pre ++ colorize ts_text color ++ post.
Proof.
  intros Hin.
  destruct (stream_emitted env extractor date_anchor start_dt end_dt true color
              lines out Hin)
    as (raw & line & ts_text & ts & Hraw & (Hd & He & Ht & _) & _ & _ & Hout).
  rewrite decode_line_eq in Hd. injection Hd as Hline.
  destruct (@replace1_first ts_text (colorize ts_text color) line
              (extract_occurs env extractor line He))
    as (pre & post & Hs & Hmin & Hr).
  exists raw, ts_text, pre, post. split; [assumption|].
  unfold text_of. rewrite Hline. split; [assumption|].
  split; [intros ->; discriminate|].
  split; [assumption|]. split; [assumption|].
  subst out. unfold written. exact Hr.
Qed.

Lemma highlight_wraps_candidate_witness :
  exists raw ts_text pre post,
    In raw [ascii_bytes "10:00:05 again 10:00:05" ++ lf]
    /\ extract (env_of scenario_A) clock_extractor (text_of raw) = Some ts_text
    /\ ts_text <> []
    /\ text_of raw = pre ++ ts_text ++ post
    /\ (forall pre' post',
           text_of raw = pre' ++ ts_text ++ post' -> length pre <= length pre')
    /\ colorize (py "10:00:05") (py "red") ++ py " again 10:00:05" ++ [nl]
       = pre ++ colorize ts_text (py "red") ++ post.
Proof.
  apply (@highlight_wraps_candidate (env_of scenario_A) clock_extractor
           (Some today) (at_clock today 10 0 3) (at_clock today 10 0 8)
           (py "red") [ascii_bytes "10:00:05 again 10:00:05" ++ lf]).
  vm_compute. left. reflexivity.
Defined.

End ExtractFacts.

(** ** The date anchor *)

Module AnchorFacts.
Import Re Tfind Notions MoreNotions Sample ScenarioFacts.

(** X10.  The anchor date touches nothing but the date.  A candidate parses
    with an anchor exactly when it parses without one, the time of day is
    the same, and the result differs only when the candidate went through
    the flexible parser and carries no year, no day/month pair and no month
    name: then its date is the anchor (and the value is naive, [dt.time()]
    having left the zone behind).  A timestamp of the epoch path keeps its
    own date. *)
Theorem anchor_replaces_only_the_date (env : Env) (ts_text : str) (d : date) :
  (parse_line_timestamp env ts_text (Some d) = None
   <-> parse_line_timestamp env ts_text None = None)
  /\ (forall x,
         parse_line_timestamp env ts_text (Some d) = Some x ->
         exists y,
           parse_line_timestamp env ts_text None = Some y
           /\ dt_time x = dt_time y
           /\ (x = y
               \/ (dt_date x = d /\ utcoffset x = None
                   /\ lacks_date ts_text = true
                   /\ parse_epoch env ts_text = None))).
Proof.
  unfold parse_line_timestamp.
  destruct (parse_epoch env ts_text) as [e|].
  - split; [split; discriminate|]. intros x H. exists e. injection H as <-. auto.
  - destruct (dateutil_parser env) as [parse|].
    + destruct (parse true ts_text) as [dt|].
      * split.
        { destruct (lacks_date ts_text); split; discriminate. }
        intros x H. exists dt. split; [now destruct (lacks_date ts_text)|].
        destruct (lacks_date ts_text); injection H as <-; cbn; auto 6.
      * split; [tauto|discriminate].
    + split; [tauto|discriminate].
Qed.

(** The scan looks at the first [n] lines only. *)
Lemma anchor_loop_firstn (env : Env) (extractor : Extractor) (n : nat)
      (lines : list str) :
  anchor_loop env extractor n lines = anchor_loop env extractor n (firstn n lines).
Proof.
  revert lines. induction n as [|n IH]; intros [|line rest]; try reflexivity.
  rewrite firstn_cons, !anchor_loop_step.
  destruct (line_timestamp env extractor None line); [reflexivity|apply IH].
Qed.

Lemma anchor_loop_first (env : Env) (extractor : Extractor) (n : nat)
      (lines : list str) (d : date) :
  anchor_loop env extractor n lines = Some d ->
  exists pre line post dt,
    lines = pre ++ line :: post
    /\ length pre < n
    /\ Forall (fun l => line_timestamp env extractor None l = None) pre
    /\ line_timestamp env extractor None line = Some dt
    /\ dt_date dt = d.
Proof.
  revert lines. induction n as [|n IH]; intros [|line rest]; try discriminate.
  rewrite anchor_loop_step.
  destruct (line_timestamp env extractor None line) as [dt|] eqn:E.
  - intros H. injection H as <-.
    exists [], line, rest, dt. repeat split; auto. simpl. lia.
  - intros H. destruct (IH rest H) as (pre & l & post & dt & Hl & Hn & Hpre & Ht & Hd).
    exists (line :: pre), l, post, dt. subst rest. repeat split; auto.
    simpl. lia.
Qed.

Lemma anchor_loop_found (env : Env) (extractor : Extractor) (n : nat)
      (pre : list str) (line : str) (post : list str) (dt : datetime) :
  length pre < n ->
  Forall (fun l => line_timestamp env extractor None l = None) pre ->
  line_timestamp env extractor None line = Some dt ->
  anchor_loop env extractor n (pre ++ line :: post) = Some (dt_date dt).
Proof.
  revert n. induction pre as [|l pre IH]; intros [|n] Hn Hpre Ht;
    try (simpl in Hn; lia).
  - cbn [app]. now rewrite anchor_loop_step, Ht.
  - inversion Hpre as [|? ? Hl Hpre']. subst.
    cbn [app]. rewrite anchor_loop_step, Hl.
    apply IH; [simpl in Hn; lia|assumption|assumption].
Qed.

Lemma undatedb_ok (env : Env) (extractor : Extractor) (lines : list str) :
  forallb (fun l => match line_timestamp env extractor None l with
                    | None => true
                    | Some _ => false
                    end) lines = true ->
  Forall (fun l => line_timestamp env extractor None l = None) lines.
Proof.
  rewrite forallb_forall. intros H. apply Forall_forall. intros l Hl.
  specialize (H l Hl). now destruct (line_timestamp env extractor None l).
Qed.

(** X11.  [find_first_date_anchor] reads at most 2000 lines: when none of
    the first 2000 lines of the file gives a timestamp, there is no anchor,
    whatever the lines further down hold. *)
Theorem anchor_scan_is_capped (env : Env) (path : str) (extractor : Extractor)
        (lines : list str) :
  open_text env path = Some lines ->
  Forall (fun l => line_timestamp env extractor None l = None)
    (firstn 2000 lines) ->
  find_first_date_anchor env path extractor = None.
Proof.
  unfold find_first_date_anchor. intros -> . generalize 2000. intros n Hnone.
  destruct (anchor_loop env extractor n lines) as [d|] eqn:E; [|reflexivity].
  rewrite anchor_loop_firstn in E.
  destruct (anchor_loop_first _ _ _ _ E) as (pre & l & post & dt & Hl & _ & _ & Ht & _).
  rewrite Hl in Hnone. apply Forall_app in Hnone. destruct Hnone as [_ Hnone].
  inversion Hnone as [|? ? Hl0 _]. rewrite Hl0 in Ht. discriminate.
Qed.

Lemma anchor_scan_is_capped_witness :
  find_first_date_anchor (env_of long_log) logfile clock_extractor = None
  /\ line_timestamp (env_of long_log) clock_extractor None
       (py "2024-01-01 10:00:00 A" ++ [nl])
     = Some (at_clock today 10 0 0)
  /\ exists lines,
      open_text (env_of long_log) logfile = Some lines
      /\ nth_error lines 2000 = Some (py "2024-01-01 10:00:00 A" ++ [nl]).
Proof.
  split; [|split].
  - eapply (@anchor_scan_is_capped (env_of long_log) logfile clock_extractor).
    + vm_compute. reflexivity.
    + apply undatedb_ok. vm_compute. reflexivity.
  - vm_compute. reflexivity.
  - eexists. split; vm_compute; reflexivity.
Defined.

(** X12.  The anchor is the date of the first line, among the first 2000,
    whose timestamp is extracted and parsed without an anchor: such a line
    makes the scan return its date, and a date the scan returns is the date
    of such a line.  When the file cannot be opened there is no anchor, and
    no error either. *)
Theorem anchor_is_first_dated_line (env : Env) (path : str)
        (extractor : Extractor) :
  (fs_read env path = None -> find_first_date_anchor env path extractor = None)
  /\ (forall lines pre line post dt,
         open_text env path = Some lines ->
         lines = pre ++ line :: post ->
         length pre < 2000 ->
         Forall (fun l => line_timestamp env extractor None l = None) pre ->
         line_timestamp env extractor None line = Some dt ->
         find_first_date_anchor env path extractor = Some (dt_date dt))
  /\ (forall d,
         find_first_date_anchor env path extractor = Some d ->
         exists lines pre line post dt,
           open_text env path = Some lines
           /\ lines = pre ++ line :: post
           /\ length pre < 2000
           /\ Forall (fun l => line_timestamp env extractor None l = None) pre
           /\ line_timestamp env extractor None line = Some dt
           /\ dt_date dt = d).
Proof.
  unfold find_first_date_anchor. split; [|split].
  - intros H. unfold open_text. now rewrite H.
  - intros lines pre line post dt -> ->. generalize 2000. intros n.
    apply anchor_loop_found.
  - intros d. destruct (open_text env path) as [lines|]; [|discriminate].
    generalize 2000. intros n H.
    destruct (anchor_loop_first _ _ _ _ H) as (pre & l & post & dt & Hr).
    now exists lines, pre, l, post, dt.
Qed.

Lemma anchor_is_first_dated_line_witness :
  find_first_date_anchor (env_of unsorted_log) logfile
    {| user_pattern := build_regex_from_example (py "2024-01-01 10:00:05") |}
  = Some {| year := 2024; month := 1; day := 1 |}.
Proof.
  apply (proj1 (proj2 (@anchor_is_first_dated_line (env_of unsorted_log) logfile
                         {| user_pattern :=
                              build_regex_from_example
                                (py "2024-01-01 10:00:05") |}))
           [py "2024-01-01 10:00:00 A" ++ [nl];
            py "2024-01-01 10:00:10 C" ++ [nl];
            py "2024-01-01 10:00:05 B" ++ [nl]]
           [] (py "2024-01-01 10:00:00 A" ++ [nl])
           [py "2024-01-01 10:00:10 C" ++ [nl];
            py "2024-01-01 10:00:05 B" ++ [nl]]
           (at_clock {| year := 2024; month := 1; day := 1 |} 10 0 0)).
  - vm_compute. reflexivity.
  - reflexivity.
  - simpl. lia.
  - constructor.
  - vm_compute. reflexivity.
Defined.

End AnchorFacts.

(** ** More on the range locator *)

Module LocatorMore.
Import Re Tfind Notions MoreNotions Sample CodecFacts LocatorFacts MainFacts.

(** X13.  When the file cannot be opened and both bounds parse,
    [print_range] writes nothing and ends with an uncaught exception: the
    [TypeError] of the order test when one bound is aware and the other
    naive, and [OSError] otherwise: the anchor scan passes over the
    failure to open the file, the search does not. *)
Theorem missing_file_raises (env : Env) (path start_s end_s : str)
        (readability : bool) (color : str) (a c : datetime) :
  fs_read env path = None ->
  parse_user_datetime env start_s = Some a ->
  parse_user_datetime env end_s = Some c ->
  print_range env path start_s end_s readability color
  = {| run_stdout := [];
       run_control := Uncaught (match cmp c a with
                                | Some _ => OSError
                                | None => TypeError
                                end) |}.
Proof.
  intros Hf Hs He. unfold print_range.
  destruct (cmp c a) as [o|] eqn:Ecmp.
  - destruct (@resolve_bounds_settled env path start_s end_s a c Hs He)
      as [b Hb]; [congruence|].
    rewrite Hb. unfold binary_search_start, file_size. now rewrite Hf.
  - now rewrite (@resolve_bounds_incomparable env path start_s end_s a c Hs He Ecmp).
Qed.

Lemma missing_file_raises_witness :
  print_range (env_of scenario_A) (py "other.log") (py "10:00:03")
    (py "10:00:08") false (py "cyan")
  = {| run_stdout := []; run_control := Uncaught OSError |}.
Proof.
  apply (@missing_file_raises (env_of scenario_A) (py "other.log")
           (py "10:00:03") (py "10:00:08") false (py "cyan")
           (at_clock today 10 0 3) (at_clock today 10 0 8));
    vm_compute; reflexivity.
Defined.

(** The three comparisons of the tool, each at an input where it raises.
    A naive end bound after an aware start bound: the order test raises.
    Naive bounds on a file whose timestamps are aware: the search raises at
    its first probe.  An aware start bound and a time-only end bound, which
    the anchor date makes naive, on a file whose timestamps are aware: the
    search goes through and the streamer raises at the first line. *)
Lemma comparisons_that_raise :
  print_range (env_of scenario_A) logfile (py "10:00:03Z") (py "10:00:08")
    false (py "cyan")
  = {| run_stdout := []; run_control := Uncaught TypeError |}
  /\ print_range (env_of zulu_log) logfile (py "2026-11-04 10:00:03")
       (py "2026-11-04 10:00:08") false (py "cyan")
     = {| run_stdout := []; run_control := Uncaught TypeError |}
  /\ (exists b,
         resolve_bounds (env_of utc_log) logfile (py "2026-11-04 10:00:03Z")
           (py "10:00:08Z") = inr b
         /\ utcoffset (b_start b) = Some 0%Z
         /\ utcoffset (b_end b) = None
         /\ binary_search_start (env_of utc_log) logfile (b_start b)
              (b_extractor b) (b_anchor b) = Ok 0)
  /\ print_range (env_of utc_log) logfile (py "2026-11-04 10:00:03Z")
       (py "10:00:08Z") false (py "cyan")
     = {| run_stdout := []; run_control := Uncaught TypeError |}.
Proof.
  split; [vm_compute; reflexivity|].
  split; [vm_compute; reflexivity|].
  split; [|vm_compute; reflexivity].
  eexists. split; [vm_compute; reflexivity|].
  cbn [b_start b_end b_extractor b_anchor].
  repeat split; vm_compute; reflexivity.
Qed.

Section AnyFile.
Variable env : Env.
Variable extractor : Extractor.
Variable date_anchor : option date.
Variable data : bytes.
Variable target : datetime.

(** What the search keeps true of [low], sorted file or not. *)
Lemma bs_loop_any (fuel low hi : nat) :
  hi <= length data -> hi - low <= fuel ->
  low = 0
  \/ (is_line_start data (low - 1) = true /\ 1 <= low <= length data
      /\ counts_as_before env extractor date_anchor data target (low - 1)) ->
  (exists r,
      bs_loop env data target extractor date_anchor fuel low hi = Ok r
      /\ (r = 0
          \/ (is_line_start data (r - 1) = true /\ 1 <= r <= length data
              /\ counts_as_before env extractor date_anchor data target (r - 1))))
  \/ (bs_loop env data target extractor date_anchor fuel low hi = Raise TypeError
      /\ exists p t,
          p < length data /\ is_line_start data p = true
          /\ timestamp_at env extractor date_anchor data p = Some t
          /\ cmp t target = None).
Proof.
  revert low hi. induction fuel as [|fuel IH]; intros low hi Hhi Hf Hlow.
  - simpl. replace (low <? hi) with false by (symmetry; apply Nat.ltb_ge; lia).
    left. now exists low.
  - cbn [bs_loop]. destruct (low <? hi) eqn:Hlt; [|left; now exists low].
    apply Nat.ltb_lt in Hlt. pose proof (div2_between Hlt) as Hmid.
    set (mid := (low + hi) / 2) in *.
    assert (Hafter : mid < next_line data mid) by (apply next_line_after; lia).
    fold (next_line data mid). set (pos := next_line data mid) in *.
    destruct (readline data pos) as [|b line'] eqn:Hline; [left; now exists low|].
    assert (Hpos : pos < length data).
    { destruct (le_lt_dec (length data) pos) as [Hge|]; [|assumption].
      unfold readline in Hline. rewrite skipn_all2 in Hline by assumption.
      discriminate. }
    assert (Hstart : is_line_start data pos = true)
      by (apply next_line_is_start; [lia|assumption]).
    assert (Hts : timestamp_at env extractor date_anchor data pos
                  = line_timestamp env extractor date_anchor
                      (code_points (utf8_scan (map Byte.to_N (b :: line'))))).
    { unfold timestamp_at. now rewrite Hline, decode_line_eq. }
    rewrite decode_line_eq.
    assert (Hup : counts_as_before env extractor date_anchor data target pos ->
                  (exists r,
                      bs_loop env data target extractor date_anchor fuel
                        (pos + 1) hi = Ok r
                      /\ (r = 0
                          \/ (is_line_start data (r - 1) = true
                              /\ 1 <= r <= length data
                              /\ counts_as_before env extractor date_anchor data
                                   target (r - 1))))
                  \/ (bs_loop env data target extractor date_anchor fuel
                        (pos + 1) hi = Raise TypeError
                      /\ exists p t,
                          p < length data /\ is_line_start data p = true
                          /\ timestamp_at env extractor date_anchor data p
                             = Some t
                          /\ cmp t target = None)).
    { intros Hbefore. apply IH; [assumption | lia |]. right.
      replace (pos + 1 - 1) with pos by lia. repeat split; auto; lia. }
    destruct (line_timestamp env extractor date_anchor _) as [ts|] eqn:E.
    + destruct (dt_lt ts target) as [[|]|] eqn:Hcmp.
      * apply Hup. right. exists ts. now rewrite Hts.
      * apply IH; [lia | lia | assumption].
      * right. split; [reflexivity|]. exists pos, ts. repeat split; auto.
        unfold dt_lt in Hcmp. now destruct (cmp ts target) as [[| |]|].
    + apply Hup. left. exact Hts.
Qed.

Lemma take_line_skipn (l : bytes) (n : nat) :
  take_line l = l -> take_line (skipn n l) = skipn n l.
Proof.
  revert n. induction l as [|b t IH]; intros [|n] H; try assumption.
  simpl in H. cbn [skipn]. destruct (is_nl b).
  - injection H as <-. now destruct n.
  - injection H as H. now apply IH.
Qed.

Lemma bs_loop_one_line (fuel : nat) :
  length data <= fuel ->
  take_line data = data ->
  bs_loop env data target extractor date_anchor fuel 0 (length data) = Ok 0.
Proof.
  intros Hfuel Hone. destruct fuel as [|fuel].
  - simpl. replace (length data) with 0 by lia. reflexivity.
  - cbn [bs_loop]. destruct (0 <? length data) eqn:Hlt; [|reflexivity].
    apply Nat.ltb_lt in Hlt. pose proof (div2_between Hlt) as Hmid.
    set (mid := (0 + length data) / 2) in *.
    assert (Hpos : mid + length (readline data mid) = length data).
    { unfold readline. rewrite (take_line_skipn mid Hone), length_skipn. lia. }
    rewrite Hpos. unfold readline at 1. now rewrite skipn_all.
Qed.
End AnyFile.

(** X14.  On any file, sorted or not, the search ends: either with an
    offset within the file that is 0 or one byte past the start of a line it
    took for one before the target (a line with a timestamp before the
    target, or with none at all), or with the [TypeError] of comparing the
    target with the timestamp of a line that is aware where the target is
    naive, or naive where it is aware.  When the timestamps of the lines can
    all be compared with the target, it ends with an offset. *)
Theorem binary_search_start_any_file
        (env : Env) (path : str) (data : bytes) (target : datetime)
        (extractor : Extractor) (date_anchor : option date) :
  fs_read env path = Some data ->
  ((exists r,
       binary_search_start env path target extractor date_anchor = Ok r
       /\ (r = 0
           \/ (is_line_start data (r - 1) = true /\ 1 <= r <= length data
               /\ counts_as_before env extractor date_anchor data target
                    (r - 1))))
   \/ (binary_search_start env path target extractor date_anchor
       = Raise TypeError
       /\ exists p t,
           p < length data /\ is_line_start data p = true
           /\ timestamp_at env extractor date_anchor data p = Some t
           /\ cmp t target = None))
  /\ (Comparable_file env extractor date_anchor data target ->
      exists r,
        binary_search_start env path target extractor date_anchor = Ok r
        /\ (r = 0
            \/ (is_line_start data (r - 1) = true /\ 1 <= r <= length data
                /\ counts_as_before env extractor date_anchor data target
                     (r - 1)))).
Proof.
  intros Hf. unfold binary_search_start, file_size. rewrite Hf.
  pose proof (@bs_loop_any env extractor date_anchor data target (length data)
                0 (length data) (le_n _) ltac:(lia) (or_introl eq_refl)) as H.
  split; [exact H|].
  intros Hc. destruct H as [H|(_ & p & t & Hp & Hps & Ht & Hcmp)];
    [exact H|].
  elim (Hc p t Hp Hps Ht Hcmp).
Qed.

Lemma binary_search_start_any_file_witness :
  ((exists r,
       binary_search_start (env_of zulu_log) logfile
         (at_clock {| year := 2026; month := 11; day := 4 |} 10 0 3)
         {| user_pattern := build_regex_from_example (py "2026-11-04 10:00:03") |}
         None = Ok r
       /\ (r = 0
           \/ (is_line_start zulu_log (r - 1) = true
               /\ 1 <= r <= length zulu_log
               /\ counts_as_before (env_of zulu_log)
                    {| user_pattern :=
                         build_regex_from_example (py "2026-11-04 10:00:03") |}
                    None zulu_log
                    (at_clock {| year := 2026; month := 11; day := 4 |} 10 0 3)
                    (r - 1))))
   \/ (binary_search_start (env_of zulu_log) logfile
         (at_clock {| year := 2026; month := 11; day := 4 |} 10 0 3)
         {| user_pattern := build_regex_from_example (py "2026-11-04 10:00:03") |}
         None = Raise TypeError
       /\ exists p t,
           p < length zulu_log /\ is_line_start zulu_log p = true
           /\ timestamp_at (env_of zulu_log)
                {| user_pattern :=
                     build_regex_from_example (py "2026-11-04 10:00:03") |}
                None zulu_log p = Some t
           /\ cmp t (at_clock {| year := 2026; month := 11; day := 4 |} 10 0 3)
              = None))
  /\ binary_search_start (env_of zulu_log) logfile
       (at_clock {| year := 2026; month := 11; day := 4 |} 10 0 3)
       {| user_pattern := build_regex_from_example (py "2026-11-04 10:00:03") |}
       None = Raise TypeError
  /\ exists r,
      binary_search_start (env_of unsorted_log) logfile (at_clock today 10 0 20)
        clock_extractor (Some today) = Ok r
      /\ (r = 0
          \/ (is_line_start unsorted_log (r - 1) = true
              /\ 1 <= r <= length unsorted_log
              /\ counts_as_before (env_of unsorted_log) clock_extractor
                   (Some today) unsorted_log (at_clock today 10 0 20) (r - 1))).
Proof.
  split; [|split].
  - apply (@binary_search_start_any_file (env_of zulu_log) logfile zulu_log
             (at_clock {| year := 2026; month := 11; day := 4 |} 10 0 3)
             {| user_pattern :=
                  build_regex_from_example (py "2026-11-04 10:00:03") |} None).
    reflexivity.
  - vm_compute. reflexivity.
  - apply (@binary_search_start_any_file (env_of unsorted_log) logfile
             unsorted_log (at_clock today 10 0 20) clock_extractor (Some today));
      [reflexivity|].
    apply comparable_fileb_ok. vm_compute. reflexivity.
Defined.

(** X15.  On a file of at most one line (the empty file, or one with no
    line feed before its last byte) the search returns the offset 0 without
    reading a timestamp, whatever the target. *)
Theorem binary_search_start_one_line
        (env : Env) (path : str) (data : bytes) (target : datetime)
        (extractor : Extractor) (date_anchor : option date) :
  fs_read env path = Some data ->
  take_line data = data ->
  binary_search_start env path target extractor date_anchor = Ok 0.
Proof.
  intros Hf Hone. unfold binary_search_start, file_size. rewrite Hf.
  now apply bs_loop_one_line.
Qed.

Lemma binary_search_start_one_line_witness :
  binary_search_start (env_of line_C) logfile (at_clock today 10 0 20)
    clock_extractor (Some today) = Ok 0.
Proof.
  apply (@binary_search_start_one_line (env_of line_C) logfile line_C
           (at_clock today 10 0 20) clock_extractor (Some today));
    reflexivity.
Defined.

End LocatorMore.

(** ** What the patterns of the source match *)

Module PatternFacts.
Import Re Tfind Notions MoreNotions Sample EpochFacts.

(** A greedy repetition that succeeds took some count between the least
    and the run it found. *)
Lemma try_counts_some (A : Type) (j lo : nat) (st : mstate)
      (k : mstate -> option A) (x : A) :
  try_counts j lo st k = Some x ->
  exists i, lo <= i <= j /\ k (advance i st) = Some x.
Proof.
  induction j as [|j IH]; cbn [try_counts].
  - destruct (0 <? lo) eqn:E; [discriminate|]. apply Nat.ltb_ge in E.
    destruct (k (advance 0 st)) eqn:Ek; [|discriminate].
    intros H. injection H as <-. exists 0. split; [lia|assumption].
  - destruct (S j <? lo) eqn:E; [discriminate|]. apply Nat.ltb_ge in E.
    destruct (k (advance (S j) st)) eqn:Ek.
    + intros H. injection H as <-. exists (S j). split; [lia|assumption].
    + intros H. destruct (IH H) as (i & Hi & Hk). exists i. split; [lia|assumption].
Qed.

Lemma run_length_head (p : N -> bool) (cap : option nat) (s : str) :
  1 <= run_length p cap s -> exists c t, s = c :: t /\ p c = true.
Proof.
  destruct s as [|c t]; simpl; [lia|].
  destruct (p c) eqn:E; [|lia]. intros _. now exists c, t.
Qed.

Lemma run_length_cap (p : N -> bool) (n : nat) (s : str) :
  run_length p (Some n) s <= n.
Proof.
  revert n. induction s as [|c t IH]; intros n; simpl; [lia|].
  destruct (p c); [|lia]. destruct n as [|n]; [lia|]. specialize (IH n). lia.
Qed.

(** A run of [n] characters of the class begins the subject. *)
Lemma run_length_full (p : N -> bool) (n : nat) (s : str) :
  run_length p (Some n) s = n ->
  forallb p (firstn n s) = true /\ n <= length s.
Proof.
  revert n. induction s as [|c t IH]; intros n; simpl.
  - intros <-. split; [reflexivity|lia].
  - destruct (p c) eqn:E.
    + destruct n as [|n]; [intros _; split; [reflexivity|lia]|].
      intros H. injection H as H. destruct (IH n H) as [H1 H2].
      simpl. rewrite E, H1. split; [reflexivity|lia].
    + intros <-. split; [reflexivity|lia].
Qed.

Lemma contains_skipn (c : N) (n : nat) (s : str) :
  contains c (skipn n s) = true -> contains c s = true.
Proof.
  revert s. induction n as [|n IH]; intros [|x s]; simpl; auto.
  intros H. rewrite (IH s H). apply orb_true_r.
Qed.

(** Where [\d{1,2}:\d{2}] matches there is a colon. *)
Lemma clock_match_colon (st : mstate) :
  match_here CLOCK_RE false st <> None ->
  contains (chr ":") (ms_rest st) = true.
Proof.
  unfold match_here, CLOCK_RE. cbn [pat_re pat_icase rmatch].
  destruct (try_counts _ 1 st _) as [m|] eqn:E; [|congruence]. intros _.
  apply try_counts_some in E. destruct E as (i & _ & E).
  destruct (try_counts _ 1 (advance i st) _) as [m'|] eqn:E'; [|discriminate].
  apply try_counts_some in E'. destruct E' as (i' & (Hlo & Hhi) & _).
  destruct (run_length_head _ _ _ (Nat.le_trans _ _ _ Hlo Hhi))
    as (c & t & Hs & Hc).
  cbn [advance ms_rest] in Hs. apply (contains_skipn _ i). rewrite Hs.
  unfold cs_match in Hc. cbn in Hc. rewrite orb_false_r in Hc.
  apply N.eqb_eq in Hc. subst c. reflexivity.
Qed.

Lemma clock_search_colon (pos : nat) (prev : option N) (rest : str) :
  search_from CLOCK_RE pos prev rest <> None ->
  contains (chr ":") rest = true.
Proof.
  revert pos prev. induction rest as [|c t IH]; intros pos prev; cbn [search_from].
  - destruct (match_here CLOCK_RE false _) eqn:E; [|congruence].
    intros _. apply (@clock_match_colon {| ms_pos := pos; ms_prev := prev;
                                           ms_rest := []; ms_group := None |}).
    rewrite E. discriminate.
  - destruct (match_here CLOCK_RE false _) eqn:E.
    + intros _.
      apply (@clock_match_colon {| ms_pos := pos; ms_prev := prev;
                                   ms_rest := c :: t; ms_group := None |}).
      rewrite E. discriminate.
    + intros H. specialize (IH _ _ H). unfold contains in *.
      cbn [existsb]. rewrite IH. apply orb_true_r.
Qed.

(** X16.  A bound with no colon is never time-only: no anchor date is
    looked for on its account (an epoch number, a bare date). *)
Theorem time_only_needs_colon (s : str) :
  contains (chr ":") s = false -> input_is_time_only s = false.
Proof.
  intros H. unfold input_is_time_only, found, search.
  destruct (search_from CLOCK_RE 0 None s) as [m|] eqn:E; [|reflexivity].
  rewrite (@clock_search_colon 0 None s) in H; [discriminate|].
  rewrite E. discriminate.
Qed.

Lemma time_only_needs_colon_witness :
  input_is_time_only (py "1700000000") = false.
Proof.
  apply (@time_only_needs_colon (py "1700000000")). reflexivity.
Defined.

Lemma run_length_span (p : N -> bool) (d rest : str) (n : nat) :
  forallb p d = true ->
  match rest with c :: _ => p c = false | [] => True end ->
  run_length p (Some n) (d ++ rest) = Nat.min n (length d).
Proof.
  intros Hd Hrest. revert n. induction d as [|c d IH]; intros n; simpl.
  - rewrite Nat.min_0_r. destruct rest as [|c rest]; [reflexivity|].
    simpl. now rewrite Hrest.
  - simpl in Hd. apply andb_true_iff in Hd. destruct Hd as [Hc Hd].
    rewrite Hc. destruct n as [|n]; [reflexivity|]. now rewrite (IH Hd).
Qed.

Lemma span_spec (p : N -> bool) (s : str) :
  s = fst (span p s) ++ snd (span p s)
  /\ forallb p (fst (span p s)) = true
  /\ match snd (span p s) with c :: _ => p c = false | [] => True end.
Proof.
  induction s as [|c t (IH1 & IH2 & IH3)]; simpl; [auto|].
  destruct (p c) eqn:E.
  - destruct (span p t) as [a b]. simpl in *. rewrite E, IH2.
    repeat split; auto. now f_equal.
  - simpl. auto.
Qed.

Lemma digits_then (rest : str) :
  match rest with c :: _ => isdigit c = false | [] => True end ->
  match rest with
  | c :: _ => cs_match false CsDigit c = false
  | [] => True
  end.
Proof.
  destruct rest as [|c rest]; [auto|]. intros H. unfold cs_match. cbn.
  now rewrite H.
Qed.

(** What [EPOCH_RE] matches from the start of a string: ten or thirteen
    digits, and then the end of the string or one last line feed. *)
Lemma epoch_match_shape (d rest : str) :
  forallb isdigit d = true ->
  match rest with c :: _ => isdigit c = false | [] => True end ->
  (match_ EPOCH_RE (d ++ rest) <> None
   <-> (length d = 10 \/ length d = 13) /\ (rest = [] \/ rest = [nl])).
Proof.
  intros Hd Hrest. unfold match_, match_here, EPOCH_RE.
  cbn [pat_re pat_icase rmatch start_state ms_pos ms_rest Nat.eqb andb].
  rewrite (@run_length_span _ d rest 10 (digits_cs _ Hd) (@digits_then rest Hrest)).
  destruct (le_lt_dec 10 (length d)) as [Hle|Hlt].
  2:{ rewrite Nat.min_r by lia. rewrite try_counts_short by lia.
      split; [congruence | lia]. }
  rewrite Nat.min_l by lia. rewrite try_counts_exact.
  change (advance 10 (start_state (d ++ rest)))
    with {| ms_pos := 10; ms_prev := nth_error (d ++ rest) 9;
            ms_rest := skipn 10 (d ++ rest); ms_group := None |}.
  rewrite skipn_app. replace (10 - length d) with 0 by lia.
  change (skipn 0 rest) with rest.
  pose proof (forallb_skipn isdigit 10 d Hd) as Hr.
  pose proof (length_skipn 10 d) as Hl.
  remember (skipn 10 d) as r eqn:Er. clear Er.
  cbn [ms_rest].
  rewrite (@run_length_span _ r rest 3 (digits_cs _ Hr) (@digits_then rest Hrest)).
  assert (Heol : forall c, isdigit c = true -> (c =? nl)%N = false)
    by apply isdigit_not_nl.
  destruct r as [|a [|b [|c [|e r']]]]; simpl in Hl; simpl in Hr;
    repeat match type of Hr with
           | (_ && _)%bool = true =>
               apply andb_true_iff in Hr; let H := fresh "Hdig" in
                                          destruct Hr as [H Hr]
           end.
  - cbn. destruct rest as [|x [|y rest]].
    + split; [intros _; split; [lia|now left] | congruence].
    + destruct (x =? nl)%N eqn:Ex.
      * apply N.eqb_eq in Ex. subst x.
        split; [intros _; split; [lia|now right] | congruence].
      * split; [congruence|]. intros [_ [H|H]]; [discriminate|].
        injection H as ->. rewrite N.eqb_refl in Ex. discriminate.
    + split; [congruence|]. intros [_ [H|H]]; discriminate.
  - cbn. destruct rest as [|x rest].
    + rewrite (Heol _ Hdig). split; [congruence|lia].
    + split; [congruence|lia].
  - cbn. split; [congruence|lia].
  - cbn [length Nat.min app]. rewrite try_counts_exact. cbn.
    destruct rest as [|x [|y rest]].
    + split; [intros _; split; [lia|now left] | congruence].
    + destruct (x =? nl)%N eqn:Ex.
      * apply N.eqb_eq in Ex. subst x.
        split; [intros _; split; [lia|now right] | congruence].
      * split; [congruence|]. intros [_ [H|H]]; [discriminate|].
        injection H as ->. rewrite N.eqb_refl in Ex. discriminate.
    + split; [congruence|]. intros [_ [H|H]]; discriminate.
  - cbn [length Nat.min app]. rewrite try_counts_exact.
    cbn [advance ms_rest skipn].
    destruct (r' ++ rest) as [|y l] eqn:El.
    + rewrite (Heol _ Hdig2). split; [congruence | lia].
    + split; [congruence | lia].
Qed.

Lemma epoch_match_parts (v : str) :
  match_ EPOCH_RE v <> None ->
  exists d,
    forallb isdigit d = true /\ (length d = 10 \/ length d = 13)
    /\ (v = d \/ v = d ++ [nl]).
Proof.
  destruct (span_spec isdigit v) as (Hv & Hd & Hrest).
  rewrite Hv at 1. intros H.
  apply (epoch_match_shape _ _ Hd Hrest) in H. destruct H as (Hlen & Hr).
  exists (fst (span isdigit v)). split; [assumption|]. split; [assumption|].
  destruct Hr as [Hr|Hr]; rewrite Hr in Hv; [left|right]; [|assumption].
  now rewrite app_nil_r in Hv.
Qed.

(** X17.  On a string of ASCII characters the epoch path accepts nothing
    but ten or thirteen digits, with at most one line feed after them; so
    without [dateutil] no other such bound parses, and the run aborts on
    any other start or end. *)
Theorem epoch_path_accepts_digits_only (env : Env) (v : str) :
  is_ascii v = true ->
  (parse_epoch env v <> None ->
   exists d,
     forallb isdigit d = true /\ (length d = 10 \/ length d = 13)
     /\ (v = d \/ v = d ++ [nl]))
  /\ (dateutil_parser env = None ->
      parse_user_datetime env v <> None ->
      exists d,
        forallb isdigit d = true /\ (length d = 10 \/ length d = 13)
        /\ (v = d \/ v = d ++ [nl])).
Proof.
  intros _.
  assert (H : parse_epoch env v <> None ->
              exists d,
                forallb isdigit d = true /\ (length d = 10 \/ length d = 13)
                /\ (v = d \/ v = d ++ [nl])).
  { unfold parse_epoch. intros Hp. apply epoch_match_parts.
    destruct (match_ EPOCH_RE v); [discriminate|now elim Hp]. }
  split; [exact H|].
  intros Hnone Hp. apply H. unfold parse_user_datetime in Hp.
  destruct (parse_epoch env v); [discriminate|]. rewrite Hnone in Hp.
  now elim Hp.
Qed.

Lemma epoch_path_accepts_digits_only_witness :
  exists d,
    forallb isdigit d = true /\ (length d = 10 \/ length d = 13)
    /\ (py "1700000000" = d \/ py "1700000000" = d ++ [nl]).
Proof.
  apply (proj1 (epoch_path_accepts_digits_only (env_plain scenario_A)
                  (py "1700000000") eq_refl)).
  vm_compute. discriminate.
Defined.

Lemma strip_digits_nl (d : str) :
  forallb isdigit d = true -> d <> [] -> strip (d ++ [nl]) = d.
Proof.
  intros Hd Hne. unfold strip, rstrip.
  assert (Hl : lstrip (d ++ [nl]) = d ++ [nl]).
  { destruct d as [|c d]; [now elim Hne|]. simpl in *.
    apply andb_true_iff in Hd. destruct Hd as [Hc _].
    now rewrite (isdigit_not_space _ Hc). }
  rewrite Hl, rev_app_distr. cbn [rev app lstrip].
  replace (isspace nl) with true by reflexivity.
  rewrite (lstrip_digits _ (forallb_rev _ _ Hd)). apply rev_involutive.
Qed.

(** X18.  A candidate of ten or thirteen digits followed by a line feed (a
    line that is nothing but an epoch number, taken whole) passes the epoch
    path and is always read as seconds: with thirteen digits the length is
    fourteen, so the millisecond branch is not taken. *)
Theorem epoch_with_line_feed_is_seconds (env : Env) (d : str) :
  forallb isdigit d = true ->
  length d = 10 \/ length d = 13 ->
  parse_epoch env (d ++ [nl]) = fromtimestamp env (inject_Z (int_of_digits d)).
Proof.
  intros Hd Hlen. unfold parse_epoch.
  assert (Hm : match_ EPOCH_RE (d ++ [nl]) <> None).
  { apply (epoch_match_shape d [nl] Hd); [reflexivity|]. split; auto. }
  destruct (match_ EPOCH_RE (d ++ [nl])); [|now elim Hm].
  unfold py_int. rewrite (strip_digits_nl Hd) by (destruct d; [simpl in Hlen; lia|discriminate]).
  rewrite length_app. cbn [length].
  replace (length d + 1 =? 13) with false; [reflexivity|].
  symmetry. apply Nat.eqb_neq. lia.
Qed.

Lemma epoch_with_line_feed_is_seconds_witness :
  parse_epoch (env_of scenario_A) (py "1700000000123" ++ [nl])
  = utc_fromtimestamp (inject_Z 1700000000123).
Proof.
  apply (@epoch_with_line_feed_is_seconds (env_of scenario_A)
           (py "1700000000123")).
  - reflexivity.
  - right. reflexivity.
Defined.

End PatternFacts.

(** ** More on the pattern learner *)

Module LearnerMore.
Import Re Tfind Notions MoreNotions Sample EpochFacts PatternFacts.

(** The pattern of one literal character matches that character alone. *)
Lemma literal_fullmatch (c : N) (s : str) :
  fullmatch {| pat_re := one (CsChar c); pat_icase := false |} s <> None
  <-> s = [c].
Proof.
  unfold fullmatch, match_here, one. cbn [pat_re pat_icase rmatch]. split.
  - destruct (try_counts _ 1 (start_state s) _) as [m|] eqn:E; [|congruence].
    intros _. apply try_counts_some in E. destruct E as (i & (Hlo & Hhi) & Hk).
    pose proof (run_length_cap (cs_match false (CsChar c)) 1
                  (ms_rest (start_state s))) as Hcap.
    assert (Hi : i = 1) by lia. subst i.
    destruct (run_length_head _ _ _ Hhi) as (x & t & Hs & Hx).
    cbn [start_state ms_rest] in Hs. subst s.
    unfold cs_match in Hx. cbn in Hx. rewrite orb_false_r in Hx.
    apply N.eqb_eq in Hx. subst x.
    cbn in Hk. destruct t; [reflexivity|discriminate].
  - intros ->. cbn [start_state ms_rest run_length].
    assert (Hc : cs_match false (CsChar c) c = true)
      by (unfold cs_match; cbn [in_cset]; now rewrite N.eqb_refl).
    rewrite Hc. cbn. discriminate.
Qed.

Lemma escape_lit_compiles (c : N) :
  compile false (escape_lit c)
  = Some {| pat_re := one (CsChar c); pat_icase := false |}.
Proof.
  unfold escape_lit. destruct (contains c SPECIALS) eqn:H.
  - change SPECIALS with [46;40;41;91;93;123;125;94;36;124;63;43;42;92;92]%N in H.
    unfold contains in H. cbn [existsb] in H.
    repeat (apply orb_true_iff in H; destruct H as [H|H];
            [apply N.eqb_eq in H; subst c; vm_compute; reflexivity|]).
    discriminate.
  - change SPECIALS with [46;40;41;91;93;123;125;94;36;124;63;43;42;92;92]%N in H.
    unfold contains in H. cbn [existsb] in H.
    repeat (apply orb_false_iff in H; destruct H as [?E H]).
    assert (Hs : is_special c = false).
    { unfold is_special, contains.
      change (py ".()[]{}^$|?+*\")
        with [46;40;41;91;93;123;125;94;36;124;63;43;42;92]%N.
      cbn [existsb]. now rewrite E, E0, E1, E2, E3, E4, E5, E6, E7, E8, E9, E10,
                           E11, E12. }
    unfold compile. cbn [length Nat.mul Nat.add parse_alt parse_seq parse_item].
    change (chr "|") with 124%N. change (chr ")") with 41%N.
    change (chr "(") with 40%N. change (chr "[") with 91%N.
    change (chr "\") with 92%N. change (chr "^") with 94%N.
    change (chr "$") with 36%N.
    rewrite E8, E1, E0, E2, E12, E6, E7, Hs. reflexivity.
Qed.

(** X19.  Escaping is exact: for every character, the text [escape_lit]
    writes for it compiles, and the pattern matches that character and
    nothing else. *)
Theorem escape_lit_matches_its_character (c : N) :
  exists p,
    compile false (escape_lit c) = Some p
    /\ forall s, fullmatch p s <> None <-> s = [c].
Proof.
  eexists. split; [apply escape_lit_compiles|]. apply literal_fullmatch.
Qed.

End LearnerMore.

(** ** More on decoding *)

Module DecodeMore.
Import Tfind Notions MoreNotions Sample CodecFacts.

(** One step of the decoder takes between one and four bytes and yields one
    piece. *)
Lemma utf8_scan_step (b0 : N) (r0 : list N) :
  exists (p : piece) (k : nat),
    k <= length r0 /\ k <= 3
    /\ utf8_scan (b0 :: r0) = p :: utf8_scan (skipn k r0).
Proof.
  cbn [utf8_scan].
  repeat match goal with
         | |- context [if ?c then _ else _] => destruct c
         | |- context [match ?l with [] => _ | _ :: _ => _ end] =>
             is_var l; destruct l
         end;
    first [ eexists; exists 0; split; [simpl; lia | split; [lia|reflexivity]]
          | eexists; exists 1; split; [simpl; lia | split; [lia|reflexivity]]
          | eexists; exists 2; split; [simpl; lia | split; [lia|reflexivity]]
          | eexists; exists 3; split; [simpl; lia | split; [lia|reflexivity]] ].
Qed.

Lemma code_points_length (n : nat) (bs : list N) :
  length bs <= n -> length (code_points (utf8_scan bs)) <= length bs.
Proof.
  revert bs. induction n as [|n IH]; intros [|b0 r0] H; simpl in H;
    try (simpl; lia).
  destruct (utf8_scan_step b0 r0) as (p & k & Hk & _ & Hs). rewrite Hs.
  assert (Hlen : length (skipn k r0) <= n) by (rewrite length_skipn; lia).
  specialize (IH _ Hlen). rewrite length_skipn in IH.
  destruct p; simpl; lia.
Qed.

(** X20.  Decoding a line never yields more characters than the line has
    bytes, and a line of ASCII bytes decodes to those same characters. *)
Theorem decode_line_no_longer (raw : bytes) :
  exists s,
    decode_line raw = inr s
    /\ length s <= length raw
    /\ (Forall (fun b => (Byte.to_N b < 128)%N) raw -> s = map Byte.to_N raw).
Proof.
  exists (code_points (utf8_scan (map Byte.to_N raw))).
  split; [apply decode_line_eq|]. split.
  - pose proof (@code_points_length (length (map Byte.to_N raw))
                  (map Byte.to_N raw) (le_n _)) as H.
    now rewrite length_map in H.
  - intros H. apply utf8_scan_ascii. now apply Forall_map.
Qed.

End DecodeMore.

(** ** The whole run on a sorted file *)

Module FileFacts.
Import Re Tfind Notions MoreNotions Sample DatetimeFacts CodecFacts LocatorFacts
       StreamMore.


Section Lines.
Variable data : bytes.




End Lines.

Section Sorted.
Variable env : Env.
Variable extractor : Extractor.
Variable date_anchor : option date.
Variable data : bytes.
Hypothesis Hsorted : Sorted_file env extractor date_anchor data.





Variables start_dt end_dt : datetime.


Variable do_color : bool.
Variable color : str.

End Sorted.



End FileFacts.

(** ** The learned pattern, and the examples it takes back *)

Module LearnedPattern.
Import Re Tfind Notions MoreNotions Sample LearnerFacts ExtractFacts PatternFacts.

(** *** The matcher *)

Lemma try_counts_reaches (A : Type) (j lo i : nat) (st : mstate)
      (k : mstate -> option A) :
  lo <= i -> i <= j -> k (advance i st) <> None ->
  try_counts j lo st k <> None.
Proof.
  intros Hlo. induction j as [|j IH]; intros Hi Hk.
  - assert (i = 0) by lia. subst i. cbn [try_counts].
    replace (0 <? lo) with false by (symmetry; apply Nat.ltb_ge; lia).
    destruct (k (advance 0 st)); [discriminate|now elim Hk].
  - cbn [try_counts].
    replace (S j <? lo) with false by (symmetry; apply Nat.ltb_ge; lia).
    destruct (k (advance (S j) st)) eqn:E; [discriminate|].
    destruct (Nat.eq_dec i (S j)) as [->|Hne]; [congruence|].
    apply IH; [lia|assumption].
Qed.

Lemma run_length_prefix (p : N -> bool) (run more : str) (cap : option nat) :
  forallb p run = true ->
  match cap with Some n => length run <= n | None => True end ->
  length run <= run_length p cap (run ++ more).
Proof.
  revert cap. induction run as [|c run IH]; intros cap Hp Hcap; [simpl; lia|].
  simpl in Hp. apply andb_true_iff in Hp as [Hc Hp].
  cbn [app run_length length]. rewrite Hc.
  destruct cap as [[|n]|].
  - simpl in Hcap. lia.
  - simpl in Hcap. apply le_n_S. apply IH; [assumption|lia].
  - apply le_n_S. apply IH; [assumption|exact I].
Qed.

Lemma run_length_le (p : N -> bool) (cap : option nat) (s : str) :
  run_length p cap s <= length s.
Proof.
  revert cap. induction s as [|c s IH]; intros cap; [simpl; lia|].
  cbn [run_length length]. destruct (p c); [|lia].
  destruct cap as [[|n]|]; [lia| |]; apply le_n_S, IH.
Qed.

Lemma takes_chars (cs : cset) (lo : nat) (hi : option nat) (run : str) :
  forallb (in_cset cs) run = true ->
  lo <= length run ->
  match hi with Some n => length run <= n | None => True end ->
  takes (RChars cs lo hi) run.
Proof.
  intros Hp Hlo Hhi A st more k Hrest Hk. cbn [rmatch].
  apply try_counts_reaches with (i := length run); [assumption| |].
  - rewrite Hrest. apply run_length_prefix; [|assumption].
    rewrite forallb_forall in *. intros c Hc. unfold cs_match.
    rewrite (Hp c Hc). reflexivity.
  - apply Hk. cbn [advance ms_rest]. rewrite Hrest.
    rewrite skipn_app, skipn_all, Nat.sub_diag. reflexivity.
Qed.

Lemma takes_empty : takes REmpty [].
Proof. intros A st more k Hrest Hk. cbn [rmatch]. now apply Hk. Qed.

Lemma takes_seq (a b : regex) (s t : str) :
  takes a s -> takes b t -> takes (RSeq a b) (s ++ t).
Proof.
  intros Ha Hb A st more k Hrest Hk. cbn [rmatch].
  apply Ha with (more := t ++ more); [now rewrite <- app_assoc in Hrest|].
  intros st' Hst'. now apply Hb with (more := more).
Qed.

Lemma takes_seq_cons (a b : regex) (s t : str) :
  takes a s -> takes b t -> takes (seq_cons a b) (s ++ t).
Proof.
  intros Ha Hb.
  assert (H : takes (RSeq a b) (s ++ t)) by now apply takes_seq.
  destruct b; exact H.
Qed.

Lemma takes_group (a : regex) (s : str) : takes a s -> takes (RGroup a) s.
Proof.
  intros Ha A st more k Hrest Hk. cbn [rmatch].
  apply Ha with (more := more); [assumption|].
  intros st' Hst'. now apply Hk.
Qed.

(** A match takes at least [min_width] characters. *)
Lemma rmatch_width (A : Type) (icase : bool) (r : regex) :
  forall (st : mstate) (k : mstate -> option A) (x : A),
    rmatch icase r st k = Some x ->
    exists st', k st' = Some x
                /\ length (ms_rest st') + min_width r <= length (ms_rest st).
Proof.
  induction r as [|cs lo hi|a IHa b IHb|a IHa b IHb|a IHa|a IHa| | |];
    intros st k x H; cbn [rmatch min_width] in *.
  - exists st. split; [assumption|lia].
  - apply try_counts_some in H as (i & [Hlo Hi] & Hk).
    exists (advance i st). split; [assumption|].
    cbn [advance ms_rest]. rewrite length_skipn.
    pose proof (run_length_le (cs_match icase cs) hi (ms_rest st)). lia.
  - apply IHa in H as (st1 & H1 & L1). apply IHb in H1 as (st2 & H2 & L2).
    exists st2. split; [assumption|lia].
  - destruct (rmatch icase a st k) eqn:E.
    + injection H as ->. apply IHa in E as (st1 & H1 & L1).
      exists st1. split; [assumption|lia].
    + apply IHb in H as (st1 & H1 & L1). exists st1. split; [assumption|lia].
  - destruct (rmatch icase a st k) eqn:E.
    + injection H as ->. apply IHa in E as (st1 & H1 & L1).
      exists st1. split; [assumption|lia].
    + exists st. split; [assumption|lia].
  - apply IHa in H as (st1 & H1 & L1).
    exists (close_group (ms_pos st) st1). split; [assumption|exact L1].
  - destruct (ms_pos st =? 0); [|discriminate].
    exists st. split; [assumption|lia].
  - exists st. split; [|lia].
    destruct (ms_rest st) as [|c [|d t]]; try discriminate; [assumption|].
    destruct (c =? nl)%N; [assumption|discriminate].
  - destruct (xorb _ _); [|discriminate]. exists st. split; [assumption|lia].
Qed.

Lemma fullmatch_width (p : Pattern) (s : str) :
  fullmatch p s <> None -> min_width (pat_re p) <= length s.
Proof.
  intros H. destruct (fullmatch p s) as [m|] eqn:E; [|now elim H].
  unfold fullmatch, match_here in E.
  apply rmatch_width in E as (st' & _ & L). cbn [start_state ms_rest] in L. lia.
Qed.

Lemma month_word_length (word : str) :
  fullmatch MONTH_RE word <> None -> 3 <= length word.
Proof. intros H. apply fullmatch_width in H. exact H. Qed.

(** *** The parser on the text the learner writes *)

Lemma no_quantifier (c : N) (t : str) :
  parse_quant (c :: t) = Some (None, c :: t) ->
  (c =? 63)%N = false /\ (c =? 43)%N = false
  /\ (c =? 42)%N = false /\ (c =? 123)%N = false.
Proof.
  unfold parse_quant.
  change (chr "?") with 63%N. change (chr "+") with 43%N.
  change (chr "*") with 42%N. change (chr "{") with 123%N.
  destruct (c =? 63)%N; [discriminate|].
  destruct (c =? 43)%N; [discriminate|].
  destruct (c =? 42)%N; [discriminate|].
  destruct (c =? 123)%N; [|auto].
  intros H; exfalso.
  destruct (parse_nat t) as [[m [|c1 t1]]|]; try discriminate.
  destruct (c1 =? chr "}")%N; [discriminate|].
  destruct (c1 =? chr ",")%N; [|discriminate].
  destruct t1 as [|c2 t2]; [discriminate|].
  destruct (c2 =? chr "}")%N; [discriminate|].
  destruct (parse_nat (c2 :: t2)) as [[n [|c3 t3]]|]; try discriminate.
  destruct (c3 =? chr "}")%N; discriminate.
Qed.

Lemma quantifier_free (c : N) (t : str) :
  (c =? 63)%N = false -> (c =? 43)%N = false ->
  (c =? 42)%N = false -> (c =? 123)%N = false ->
  parse_quant (c :: t) = Some (None, c :: t).
Proof.
  intros E1 E2 E3 E4. unfold parse_quant.
  change (chr "?") with 63%N. change (chr "+") with 43%N.
  change (chr "*") with 42%N. change (chr "{") with 123%N.
  now rewrite E1, E2, E3, E4.
Qed.

Ltac after_quantifier Hq rest :=
  let c := fresh "c" in
  let r := fresh "r" in
  let E1 := fresh "E" in
  let E2 := fresh "E" in
  destruct rest as [|c r]; [reflexivity|];
  apply no_quantifier in Hq as (E1 & E2 & _ & _);
  rewrite E1, E2; reflexivity.

Lemma item_month (f : nat) (rest : str) :
  parse_quant rest = Some (None, rest) ->
  parse_item (S f) (py "[A-Za-z]{3,9}" ++ rest)
  = Some (RChars letters 3 (Some 9), rest).
Proof. intros Hq. cbn. after_quantifier Hq rest. Qed.

Lemma item_word (f : nat) (rest : str) :
  parse_quant rest = Some (None, rest) ->
  parse_item (S f) (py "[A-Za-z]+" ++ rest) = Some (RChars letters 1 None, rest).
Proof. intros Hq. cbn. after_quantifier Hq rest. Qed.

Lemma item_digits2 (f : nat) (rest : str) :
  parse_quant rest = Some (None, rest) ->
  parse_item (S f) (py "\d{1,2}" ++ rest) = Some (RChars CsDigit 1 (Some 2), rest).
Proof. intros Hq. cbn. after_quantifier Hq rest. Qed.

Lemma item_digits4 (f : nat) (rest : str) :
  parse_quant rest = Some (None, rest) ->
  parse_item (S f) (py "\d{1,4}" ++ rest) = Some (RChars CsDigit 1 (Some 4), rest).
Proof. intros Hq. cbn. after_quantifier Hq rest. Qed.

Lemma item_digits9 (f : nat) (rest : str) :
  parse_quant rest = Some (None, rest) ->
  parse_item (S f) (py "\d{1,9}" ++ rest) = Some (RChars CsDigit 1 (Some 9), rest).
Proof. intros Hq. cbn. after_quantifier Hq rest. Qed.

Lemma item_space (f : nat) (rest : str) :
  parse_quant rest = Some (None, rest) ->
  parse_item (S f) (py "\s+" ++ rest) = Some (RChars CsSpace 1 None, rest).
Proof. intros Hq. cbn. after_quantifier Hq rest. Qed.

Lemma item_escaped (f : nat) (c : N) (rest : str) :
  contains c SPECIALS = true ->
  parse_quant rest = Some (None, rest) ->
  parse_item (S f) ([chr "\"; c] ++ rest) = Some (one (CsChar c), rest).
Proof.
  intros H Hq.
  change SPECIALS with [46;40;41;91;93;123;125;94;36;124;63;43;42;92;92]%N in H.
  unfold contains in H. cbn [existsb] in H.
  repeat (apply orb_true_iff in H; destruct H as [H|H];
          [apply N.eqb_eq in H; subst c; cbn; rewrite Hq; reflexivity|]).
  discriminate.
Qed.

Lemma not_special (c : N) :
  contains c SPECIALS = false ->
  is_special c = false
  /\ (c =? 40)%N = false /\ (c =? 91)%N = false /\ (c =? 92)%N = false
  /\ (c =? 94)%N = false /\ (c =? 36)%N = false
  /\ (c =? 124)%N = false /\ (c =? 41)%N = false
  /\ forall t, parse_quant (c :: t) = Some (None, c :: t).
Proof.
  intros H.
  change SPECIALS with [46;40;41;91;93;123;125;94;36;124;63;43;42;92;92]%N in H.
  unfold contains in H. cbn [existsb] in H.
  repeat (apply orb_false_iff in H; destruct H as [?E H]).
  assert (Hs : is_special c = false).
  { unfold is_special, contains.
    change (py ".()[]{}^$|?+*\")
      with [46;40;41;91;93;123;125;94;36;124;63;43;42;92]%N.
    cbn [existsb]. now rewrite E, E0, E1, E2, E3, E4, E5, E6, E7, E8, E9, E10,
                         E11, E12. }
  repeat split; try assumption. intros t. now apply quantifier_free.
Qed.

Lemma item_literal (f : nat) (c : N) (rest : str) :
  contains c SPECIALS = false ->
  parse_quant rest = Some (None, rest) ->
  parse_item (S f) ([c] ++ rest) = Some (one (CsChar c), rest).
Proof.
  intros H Hq. apply not_special in H as (Hs & E1 & E2 & E3 & E4 & E5 & _).
  cbn [app parse_item].
  change (chr "(") with 40%N. change (chr "[") with 91%N.
  change (chr "\") with 92%N. change (chr "^") with 94%N.
  change (chr "$") with 36%N.
  rewrite E1, E2, E3, E4, E5, Hs, Hq. reflexivity.
Qed.

Lemma parse_seq_unfold (f : nat) (c : N) (t : str) :
  parse_seq (S f) (c :: t)
  = if (c =? chr "|")%N || (c =? chr ")")%N then Some (REmpty, c :: t)
    else match parse_item f (c :: t) with
         | Some (a, rest) =>
             match parse_seq f rest with
             | Some (REmpty, rest') => Some (a, rest')
             | Some (b, rest') => Some (RSeq a b, rest')
             | None => None
             end
         | None => None
         end.
Proof. reflexivity. Qed.

Lemma parse_alt_unfold (f : nat) (s : str) :
  parse_alt (S f) s
  = match parse_seq f s with
    | Some (a, c :: rest) =>
        if (c =? chr "|")%N then
          match parse_alt f rest with
          | Some (b, rest') => Some (RAlt a b, rest')
          | None => None
          end
        else Some (a, c :: rest)
    | r => r
    end.
Proof. reflexivity. Qed.

Lemma parse_seq_step (tok rest tail : str) (a b : regex) :
  (exists c t, tok = c :: t /\ (c =? chr "|")%N || (c =? chr ")")%N = false) ->
  rest <> [] ->
  (forall f, parse_item (S f) (tok ++ rest) = Some (a, rest)) ->
  (forall f, length rest <= f -> parse_seq f rest = Some (b, tail)) ->
  forall f, length (tok ++ rest) <= f ->
            parse_seq f (tok ++ rest) = Some (seq_cons a b, tail).
Proof.
  intros (c & t & -> & Hc) Hne Ha Hb f Hf.
  rewrite length_app in Hf. cbn [length] in Hf.
  assert (1 <= length rest) by (destruct rest; [congruence|simpl; lia]).
  destruct f as [|[|f]]; try lia.
  cbn [app]. rewrite parse_seq_unfold, Hc.
  change (c :: t ++ rest) with ((c :: t) ++ rest).
  rewrite Ha, Hb by lia. destruct b; reflexivity.
Qed.

Lemma replace_char_app (old : N) (new a b : str) :
  replace_char old new (a ++ b)
  = replace_char old new a ++ replace_char old new b.
Proof. apply flat_map_app. Qed.

Lemma special_not_space (c : N) :
  contains c SPECIALS = true -> (c =? chr " ")%N = false.
Proof.
  intros H.
  change SPECIALS with [46;40;41;91;93;123;125;94;36;124;63;43;42;92;92]%N in H.
  unfold contains in H. cbn [existsb] in H.
  repeat (apply orb_true_iff in H; destruct H as [H|H];
          [apply N.eqb_eq in H; subst c; reflexivity|]).
  discriminate.
Qed.

(** One more item in front of a sequence that parses. *)
Lemma body_step (tok text tail : str) (a b : regex) :
  (exists c t, tok = c :: t
               /\ (c =? chr "|")%N || (c =? chr ")")%N = false
               /\ parse_quant (c :: t ++ text) = Some (None, c :: t ++ text)) ->
  (forall f rest, parse_quant rest = Some (None, rest) ->
                  parse_item (S f) (tok ++ rest) = Some (a, rest)) ->
  text <> [] ->
  parse_quant text = Some (None, text)
  /\ (forall fp, length text <= fp -> parse_seq fp text = Some (b, tail)) ->
  parse_quant (tok ++ text) = Some (None, tok ++ text)
  /\ (forall fp, length (tok ++ text) <= fp ->
                 parse_seq fp (tok ++ text) = Some (seq_cons a b, tail)).
Proof.
  intros (c & t & -> & Hc & Hq') Ha Hne [Hq Hp]. split; [exact Hq'|].
  apply parse_seq_step; try assumption.
  - now exists c, t.
  - intros f. now apply Ha.
Qed.

Lemma learned_body_parses (fuel : nat) :
  forall (prev : option N) (s : str) (toks : list str),
    tokenize fuel prev s = Some toks ->
    parse_quant (replace_char (chr " ") (py "\s+") (concat toks) ++ py ")\]?")
    = Some (None, replace_char (chr " ") (py "\s+") (concat toks) ++ py ")\]?")
    /\ (forall fp,
           length (replace_char (chr " ") (py "\s+") (concat toks) ++ py ")\]?")
           <= fp ->
           parse_seq fp
             (replace_char (chr " ") (py "\s+") (concat toks) ++ py ")\]?")
           = Some (learned_body fuel prev s, py ")\]?")).
Proof.
  assert (Hnil : forall fuel prev,
             tokenize fuel prev [] = Some []
             /\ learned_body fuel prev [] = REmpty).
  { intros [|f] prev'; split; reflexivity. }
  assert (Hbase : parse_quant (py ")\]?") = Some (None, py ")\]?")
                  /\ forall fp, length (py ")\]?") <= fp ->
                                parse_seq fp (py ")\]?") = Some (REmpty, py ")\]?")).
  { split; [reflexivity|]. intros [|fp] H; [simpl in H; lia|reflexivity]. }
  induction fuel as [|f IH]; intros prev [|ch t] toks H.
  - destruct (Hnil 0 prev) as [E1 E2]. rewrite E1 in H. injection H as <-.
    rewrite E2. exact Hbase.
  - discriminate.
  - destruct (Hnil (S f) prev) as [E1 E2]. rewrite E1 in H. injection H as <-.
    rewrite E2. exact Hbase.
  - cbn [tokenize] in H. cbn [learned_body].
    assert (Hne : forall toks' : list str,
               replace_char (chr " ") (py "\s+") (concat toks') ++ py ")\]?"
               <> []).
    { intros toks' E. apply app_eq_nil in E as [_ E]. discriminate. }
    destruct (isalpha ch) eqn:Ea; [|destruct (isdigit ch) eqn:Ed;
                                    [|destruct (ch =? chr ".")%N eqn:Edot]].
    + destruct (span isalpha (ch :: t)) as [word rest].
      destruct (tokenize f (Some (last word ch)) rest) as [toks'|] eqn:Et;
        [|discriminate].
      injection H as <-. specialize (IH _ _ _ Et).
      cbn [concat]. rewrite replace_char_app, <- app_assoc.
      destruct (fullmatch MONTH_RE word).
      * change (replace_char (chr " ") (py "\s+") (py "[A-Za-z]{3,9}"))
          with (py "[A-Za-z]{3,9}").
        apply body_step; [|intros; now apply item_month|apply Hne|exact IH].
        eexists _, _. repeat split; reflexivity.
      * change (replace_char (chr " ") (py "\s+") (py "[A-Za-z]+"))
          with (py "[A-Za-z]+").
        apply body_step; [|intros; now apply item_word|apply Hne|exact IH].
        eexists _, _. repeat split; reflexivity.
    + destruct (span isdigit (ch :: t)) as [run rest].
      destruct (tokenize f (Some (last run ch)) rest) as [toks'|] eqn:Et;
        [|discriminate].
      injection H as <-. specialize (IH _ _ _ Et).
      cbn [concat]. rewrite replace_char_app, <- app_assoc.
      destruct (is_colon prev || is_colon (hd_error rest)).
      * change (replace_char (chr " ") (py "\s+") (py "\d{1,2}"))
          with (py "\d{1,2}").
        apply body_step; [|intros; now apply item_digits2|apply Hne|exact IH].
        eexists _, _. repeat split; reflexivity.
      * change (replace_char (chr " ") (py "\s+") (py "\d{1,4}"))
          with (py "\d{1,4}").
        apply body_step; [|intros; now apply item_digits4|apply Hne|exact IH].
        eexists _, _. repeat split; reflexivity.
    + destruct (tokenize f (Some ch) t) as [toks'|] eqn:Et; [|discriminate].
      injection H as <-. specialize (IH _ _ _ Et).
      cbn [concat]. rewrite replace_char_app, <- app_assoc.
      apply N.eqb_eq in Edot. subst ch.
      change (replace_char (chr " ") (py "\s+") (py "\.\d{1,9}"))
        with (py "\." ++ py "\d{1,9}").
      rewrite <- app_assoc.
      apply body_step.
      * eexists _, _. repeat split; reflexivity.
      * intros f0 rest Hq. now apply (@item_escaped f0 (chr ".") rest).
      * intros E. apply app_eq_nil in E as [E _]. discriminate.
      * apply body_step; [|intros; now apply item_digits9|apply Hne|exact IH].
        eexists _, _. repeat split; reflexivity.
    + destruct (tokenize f (Some ch) t) as [toks'|] eqn:Et; [|discriminate].
      injection H as <-. specialize (IH _ _ _ Et).
      cbn [concat]. rewrite replace_char_app, <- app_assoc.
      unfold escape_lit. destruct (contains ch SPECIALS) eqn:Hs.
      * pose proof (special_not_space ch Hs) as Esp. rewrite Esp.
        replace (replace_char (chr " ") (py "\s+") [chr "\"; ch])
          with [chr "\"; ch]
          by (unfold replace_char; cbn [flat_map]; rewrite Esp; reflexivity).
        apply body_step; [|intros; now apply item_escaped|apply Hne|exact IH].
        eexists _, _. repeat split; reflexivity.
      * destruct (ch =? chr " ")%N eqn:Esp.
        -- replace (replace_char (chr " ") (py "\s+") [ch]) with (py "\s+")
            by (unfold replace_char; cbn [flat_map]; rewrite Esp; reflexivity).
           apply body_step; [|intros; now apply item_space|apply Hne|exact IH].
           eexists _, _. repeat split; reflexivity.
        -- replace (replace_char (chr " ") (py "\s+") [ch]) with [ch]
            by (unfold replace_char; cbn [flat_map]; rewrite Esp; reflexivity).
           apply body_step; [|intros; now apply item_literal|apply Hne|exact IH].
           exists ch, []. pose proof (not_special ch Hs) as
               (_ & _ & _ & _ & _ & _ & E1 & E2 & Hq).
           change (chr "|") with 124%N. change (chr ")") with 41%N.
           rewrite E1, E2. repeat split. apply Hq.
Qed.

Lemma item_group (f : nat) (text : str) (body : regex) :
  parse_quant text = Some (None, text) ->
  parse_seq f text = Some (body, py ")\]?") ->
  parse_item (S (S f)) (chr "(" :: text) = Some (RGroup body, py "\]?").
Proof.
  intros Hq Hp.
  cbn [parse_item]. change (chr "(" =? chr "(")%N with true. cbv iota.
  destruct text as [|q [|k t']].
  - destruct f; discriminate.
  - rewrite parse_alt_unfold, Hp. reflexivity.
  - apply no_quantifier in Hq as (E & _). change (chr "?") with 63%N.
    rewrite E. cbn [andb]. rewrite parse_alt_unfold, Hp. reflexivity.
Qed.

(** The body in its group between the optional brackets. *)
Lemma wrap_parses (text : str) (body : regex) (f : nat) :
  parse_quant text = Some (None, text) ->
  (forall fp, length text <= fp -> parse_seq fp text = Some (body, py ")\]?")) ->
  length text + 5 <= f ->
  parse_alt f (py "\[?(" ++ text)
  = Some (RSeq (RChars (CsChar (chr "[")) 0 (Some 1))
            (RSeq (RGroup body) (RChars (CsChar (chr "]")) 0 (Some 1))), []).
Proof.
  intros Hq Hp Hf.
  destruct f as [|[|[|[|[|f]]]]]; try lia.
  assert (Hg : parse_item (S (S f)) (chr "(" :: text)
               = Some (RGroup body, py "\]?")).
  { apply item_group; [assumption|]. apply Hp. lia. }
  assert (Hs2 : parse_seq (S (S (S f))) (chr "(" :: text)
                = Some (RSeq (RGroup body)
                          (RChars (CsChar (chr "]")) 0 (Some 1)), [])).
  { rewrite parse_seq_unfold, Hg. reflexivity. }
  assert (Hs1 : parse_seq (S (S (S (S f)))) (py "\[?(" ++ text)
                = Some (RSeq (RChars (CsChar (chr "[")) 0 (Some 1))
                          (RSeq (RGroup body)
                             (RChars (CsChar (chr "]")) 0 (Some 1))), [])).
  { change (py "\[?(" ++ text)
      with (chr "\" :: chr "[" :: chr "?" :: chr "(" :: text).
    rewrite parse_seq_unfold.
    replace (parse_item (S (S (S f)))
               (chr "\" :: chr "[" :: chr "?" :: chr "(" :: text))
      with (Some (RChars (CsChar (chr "[")) 0 (Some 1), chr "(" :: text))
      by reflexivity.
    rewrite Hs2. reflexivity. }
  rewrite parse_alt_unfold, Hs1. reflexivity.
Qed.

Lemma regex_source_eq (example : str) :
  regex_source example
  = match tokenize (length (example_core example)) None (example_core example)
    with
    | Some tokens =>
        Some (py "\[?(" ++ replace_char (chr " ") (py "\s+") (concat tokens)
                ++ py ")\]?")
    | None => None
    end.
Proof. reflexivity. Qed.

(** What [build_regex_from_example] returns. *)
Lemma learned_pattern_compiles (example : str) :
  build_regex_from_example example = Some (learned_pattern example).
Proof.
  unfold build_regex_from_example. rewrite regex_source_eq.
  pose proof (@tokenize_total (length (example_core example)) None
                (example_core example) (le_n _)) as Ht.
  destruct (tokenize _ None (example_core example)) as [toks|] eqn:Et;
    [|now elim Ht].
  destruct (learned_body_parses _ _ _ Et) as [Hq Hp].
  unfold compile. rewrite (wrap_parses Hq Hp); [reflexivity|].
  rewrite !length_app. cbn [length py map list_ascii_of_string]. lia.
Qed.

(** *** The examples the pattern takes back *)

Lemma last_forallb (p : N -> bool) (l : str) (d : N) :
  forallb p l = true -> p d = true -> p (last l d) = true.
Proof.
  intros Hl Hd. induction l as [|c l IH]; [exact Hd|].
  simpl in Hl. apply andb_true_iff in Hl as [Hc Hl].
  destruct l as [|c' l']; [exact Hc|]. now apply IH.
Qed.

Lemma span_run (p : N -> bool) (ch : N) (t run rest : str) :
  p ch = true -> span p (ch :: t) = (run, rest) ->
  ch :: t = run ++ rest /\ forallb p run = true
  /\ 1 <= length run /\ p (last run ch) = true.
Proof.
  intros Hc Es. pose proof (span_spec p (ch :: t)) as (E & Hall & _).
  rewrite Es in E, Hall. cbn [fst snd] in E, Hall.
  repeat split; try assumption.
  - simpl in Es. rewrite Hc in Es. destruct (span p t).
    injection Es as <- _. simpl. lia.
  - now apply last_forallb.
Qed.

Lemma alpha_not_dot (c : N) : isalpha c = true -> (c =? chr ".")%N = false.
Proof.
  intros H. apply N.eqb_neq. intros ->. vm_compute in H. discriminate.
Qed.

Lemma digit_not_dot (c : N) : isdigit c = true -> (c =? chr ".")%N = false.
Proof.
  intros H. apply N.eqb_neq. intros ->. vm_compute in H. discriminate.
Qed.

Lemma alpha_not_digit (c : N) : isalpha c = true -> isdigit c = false.
Proof.
  unfold isalpha, isupper, islower, isdigit, between. intros H.
  apply orb_true_iff in H. rewrite !andb_true_iff, !N.leb_le in H.
  apply andb_false_iff. rewrite !N.leb_gt. lia.
Qed.

Lemma forallb_firstn (p : N -> bool) (n : nat) (l : str) :
  forallb p l = true -> forallb p (firstn n l) = true.
Proof.
  intros H. rewrite <- (firstn_skipn n l), forallb_app in H.
  now apply andb_true_iff in H as [H _].
Qed.

Lemma forallb_skipn' (p : N -> bool) (n : nat) (l : str) :
  forallb p l = true -> forallb p (skipn n l) = true.
Proof.
  intros H. rewrite <- (firstn_skipn n l), forallb_app in H.
  now apply andb_true_iff in H as [_ H].
Qed.

(** The digits after a dot: the dot's own [\d{1,9}] takes the first of
    them, the token of the run takes the others. *)
Lemma takes_fraction (run rest : str) (cap : nat) (b : regex) :
  forallb isdigit run = true ->
  2 <= length run -> length run <= 9 + cap -> 1 <= cap ->
  takes b rest ->
  takes (seq_cons (RChars CsDigit 1 (Some 9))
           (seq_cons (RChars CsDigit 1 (Some cap)) b)) (run ++ rest).
Proof.
  intros Hd H2 H9 Hcap Hb.
  set (i := length run - Nat.min cap (length run - 1)).
  rewrite <- (firstn_skipn i run), <- app_assoc.
  apply takes_seq_cons; [|apply takes_seq_cons; [|exact Hb]].
  - apply takes_chars.
    + now apply (@forallb_firstn isdigit).
    + rewrite length_firstn. subst i. lia.
    + rewrite length_firstn. subst i. lia.
  - apply takes_chars.
    + now apply (@forallb_skipn' isdigit).
    + rewrite length_skipn. subst i. lia.
    + rewrite length_skipn. subst i. lia.
Qed.

Lemma learnable_takes (fuel : nat) :
  forall (prev : option N) (s : str),
    learnable_from fuel prev s = true ->
    if is_dot prev
    then forall c t, s = c :: t -> isdigit c = true ->
                     takes (seq_cons (RChars CsDigit 1 (Some 9))
                              (learned_body fuel prev s)) s
    else takes (learned_body fuel prev s) s.
Proof.
  induction fuel as [|f IH]; intros prev [|ch t] H.
  - destruct (is_dot prev); [intros; discriminate|apply takes_empty].
  - discriminate.
  - destruct (is_dot prev); [intros; discriminate|apply takes_empty].
  - cbn [learnable_from] in H. cbn [learned_body].
    destruct (isalpha ch) eqn:Ea; [|destruct (isdigit ch) eqn:Ed;
                                    [|destruct (ch =? chr ".")%N eqn:Edot]].
    + destruct (span isalpha (ch :: t)) as [word rest] eqn:Es.
      destruct (@span_run isalpha ch t word rest Ea Es) as (E & Hall & Hlen & Hlast).
      apply andb_true_iff in H as [Hm Hr].
      destruct (is_dot prev).
      { intros c t' Ec Hc. injection Ec as <- <-.
        rewrite (@alpha_not_digit ch Ea) in Hc. discriminate. }
      specialize (IH _ _ Hr). cbn [is_dot] in IH.
      rewrite (@alpha_not_dot _ Hlast) in IH.
      rewrite E. apply takes_seq_cons; [|exact IH].
      destruct (fullmatch MONTH_RE word) eqn:Em.
      * apply takes_chars; [exact Hall| |apply Nat.leb_le; exact Hm].
        apply month_word_length. congruence.
      * apply takes_chars; [exact Hall|exact Hlen|exact I].
    + destruct (span isdigit (ch :: t)) as [run rest] eqn:Es.
      destruct (@span_run isdigit ch t run rest Ed Es) as (E & Hall & Hlen & Hlast).
      apply andb_true_iff in H as [Hm Hr].
      specialize (IH _ _ Hr). cbn [is_dot] in IH.
      rewrite (@digit_not_dot _ Hlast) in IH.
      destruct (is_dot prev).
      * intros c t' _ _. rewrite E.
        apply andb_true_iff in Hm as [H2 H9].
        apply Nat.leb_le in H2, H9.
        apply takes_fraction; try assumption.
        destruct (is_colon prev || is_colon (hd_error rest)); lia.
      * rewrite E. apply takes_seq_cons; [|exact IH].
        apply takes_chars; [exact Hall|exact Hlen|apply Nat.leb_le; exact Hm].
    + apply andb_true_iff in H as [Hd Hr].
      destruct (is_dot prev).
      { intros c t' Ec Hc. injection Ec as <- <-. congruence. }
      specialize (IH _ _ Hr). cbn [is_dot] in IH. rewrite Edot in IH.
      destruct t as [|d t']; [discriminate|].
      change (ch :: d :: t') with ([ch] ++ (d :: t')).
      apply takes_seq_cons; [|now apply (IH d t')].
      apply takes_chars; [|simpl; lia|simpl; lia].
      cbn [forallb in_cset]. now rewrite N.eqb_refl.
    + destruct (is_dot prev).
      { intros c t' Ec Hc. injection Ec as <- <-. congruence. }
      specialize (IH _ _ H). cbn [is_dot] in IH. rewrite Edot in IH.
      change (ch :: t) with ([ch] ++ t).
      apply takes_seq_cons; [|exact IH].
      destruct (ch =? chr " ")%N eqn:Esp.
      * apply takes_chars; [|simpl; lia|exact I].
        apply N.eqb_eq in Esp. subst ch. reflexivity.
      * apply takes_chars; [|simpl; lia|simpl; lia].
        cbn [forallb in_cset]. now rewrite N.eqb_refl.
Qed.

Lemma ends_with (c : N) (s : str) :
  endswith c s = true -> s = removelast s ++ [c].
Proof.
  unfold endswith, startswith. intros H.
  destruct (rev s) as [|x r] eqn:E; [discriminate|].
  apply N.eqb_eq in H. subst x.
  assert (Es : s = rev r ++ [c]).
  { rewrite <- (rev_involutive s), E. reflexivity. }
  rewrite Es at 2. rewrite removelast_last. exact Es.
Qed.

Lemma core_brackets (example : str) :
  exists b1 b2,
    strip example = b1 ++ example_core example ++ b2
    /\ (b1 = [] \/ b1 = [chr "["]) /\ (b2 = [] \/ b2 = [chr "]"]).
Proof.
  unfold example_core. set (s0 := strip example).
  assert (H1 : exists b1, s0 = b1 ++ (if startswith (chr "[") s0 then tl s0 else s0)
                          /\ (b1 = [] \/ b1 = [chr "["])).
  { destruct (startswith (chr "[") s0) eqn:E.
    - exists [chr "["]. split; [|now right].
      destruct s0 as [|x t]; [discriminate|].
      simpl in E. apply N.eqb_eq in E. now subst x.
    - exists []. split; [reflexivity|now left]. }
  destruct H1 as (b1 & E1 & Hb1).
  set (s1 := if startswith (chr "[") s0 then tl s0 else s0) in *.
  exists b1. destruct (endswith (chr "]") s1) eqn:E.
  - exists [chr "]"]. split; [|split; [assumption|now right]].
    rewrite <- (@ends_with _ _ E). exact E1.
  - exists []. split; [|split; [assumption|now left]].
    rewrite app_nil_r. exact E1.
Qed.

Lemma learned_pattern_takes (example : str) :
  learnable example = true ->
  takes (pat_re (learned_pattern example)) (strip example).
Proof.
  intros H. unfold learnable in H. apply andb_true_iff in H as [_ H].
  apply learnable_takes in H. cbn [is_dot] in H.
  destruct (core_brackets example) as (b1 & b2 & E & Hb1 & Hb2).
  rewrite E. cbn [learned_pattern pat_re].
  apply takes_seq; [|apply takes_seq; [now apply takes_group|]].
  - destruct Hb1 as [->| ->]; apply takes_chars; simpl; try reflexivity; lia.
  - destruct Hb2 as [->| ->]; apply takes_chars; simpl; try reflexivity; lia.
Qed.

Lemma takes_fullmatch (p : Pattern) (s : str) :
  pat_icase p = false -> takes (pat_re p) s -> fullmatch p s <> None.
Proof.
  intros Hi Ht. unfold fullmatch, match_here. rewrite Hi.
  apply Ht with (more := []); [now rewrite app_nil_r|].
  intros st' ->. discriminate.
Qed.

Lemma takes_search (p : Pattern) (pre s post : str) :
  pat_icase p = false -> takes (pat_re p) s ->
  search p (pre ++ s ++ post) <> None.
Proof.
  intros Hi Ht. unfold search. generalize 0 at 1. generalize (@None N).
  induction pre as [|c pre IH]; intros prev pos.
  - assert (Hm : match_here p false
                   {| ms_pos := pos; ms_prev := prev; ms_rest := s ++ post;
                      ms_group := None |} <> None).
    { unfold match_here. rewrite Hi. apply Ht with (more := post);
        [reflexivity|]. intros st' _. discriminate. }
    cbn [app]. destruct (s ++ post); cbn [search_from];
      destruct (match_here p false _); try discriminate; now elim Hm.
  - cbn [app search_from]. destruct (match_here p false _); [discriminate|].
    apply IH.
Qed.

(** X22.  The learner never fails on an example of ASCII characters: the
    pattern text [build_regex_from_example] writes is accepted by
    [re.compile], and the result is the pattern [\[?(body)\]?],
    case-sensitive, whose body has one item for each token of the scan (two
    for a dot), in order. *)
Theorem build_regex_from_example_never_fails (example : str) :
  is_ascii example = true ->
  exists src,
    regex_source example = Some src
    /\ compile false src = Some (learned_pattern example)
    /\ build_regex_from_example example = Some (learned_pattern example).
Proof.
  intros _. pose proof (learned_pattern_compiles example) as H.
  unfold build_regex_from_example in *.
  destruct (regex_source example) as [src|]; [|discriminate].
  exists src. repeat split; exact H.
Qed.

Lemma build_regex_from_example_never_fails_witness :
  exists src,
    regex_source (py "[Nov  4 10:00:03.25]") = Some src
    /\ compile false src = Some (learned_pattern (py "[Nov  4 10:00:03.25]"))
    /\ build_regex_from_example (py "[Nov  4 10:00:03.25]")
       = Some (learned_pattern (py "[Nov  4 10:00:03.25]")).
Proof.
  apply (@build_regex_from_example_never_fails (py "[Nov  4 10:00:03.25]")).
  vm_compute. reflexivity.
Defined.

(** X23.  The extractor of a run always carries a learned pattern: when
    the bounds are ASCII strings that parse and can be compared, the
    pattern is the one learned from the start bound, or from the end bound
    when the start bound is a time of day and the end bound is not. *)
Theorem extractor_pattern_is_learned
        (env : Env) (path start_s end_s : str) (b : Bounds) :
  is_ascii start_s = true ->
  is_ascii end_s = true ->
  resolve_bounds env path start_s end_s = inr b ->
  user_pattern (b_extractor b)
  = Some (learned_pattern
            (if input_is_time_only start_s && negb (input_is_time_only end_s)
             then end_s else start_s)).
Proof.
  intros _ _. unfold resolve_bounds.
  destruct (parse_user_datetime env start_s) as [s0|]; [|discriminate].
  destruct (parse_user_datetime env end_s) as [e0|]; [|discriminate].
  destruct (ordered s0 e0) as [[s1 e1]|]; [|discriminate].
  intros H. injection H as <-.
  cbn [b_extractor user_pattern].
  destruct (input_is_time_only start_s), (input_is_time_only end_s);
    cbn [negb orb andb]; apply learned_pattern_compiles.
Qed.

Lemma extractor_pattern_is_learned_witness :
  user_pattern clock_extractor
  = Some (learned_pattern
            (if input_is_time_only (py "10:00:03")
                && negb (input_is_time_only (py "10:00:08"))
             then py "10:00:08" else py "10:00:03")).
Proof.
  apply (@extractor_pattern_is_learned (env_of scenario_A) logfile
           (py "10:00:03") (py "10:00:08")
           {| b_start := at_clock today 10 0 3; b_end := at_clock today 10 0 8;
              b_extractor := clock_extractor; b_anchor := Some today |});
    vm_compute; reflexivity.
Defined.

(** X24.  Where the learned pattern takes its example back.  Take an
    example of ASCII characters in which, along the scan, every word that
    reads as a month name has at most nine letters, every run of digits has
    at most four digits (two next to a colon), and every dot is followed by
    a run of two digits at least and of at most nine more than that bound.
    Then the learned pattern matches the whole of the stripped example,
    and a search finds it in the example. *)
Theorem learned_pattern_takes_example_back (example : str) :
  learnable example = true ->
  exists p,
    build_regex_from_example example = Some p
    /\ fullmatch p (strip example) <> None
    /\ search p example <> None.
Proof.
  intros H. exists (learned_pattern example).
  pose proof (learned_pattern_takes example H) as Ht.
  split; [apply learned_pattern_compiles|]. split.
  - now apply takes_fullmatch.
  - destruct (strip_occurs example) as (pre & post & E).
    rewrite E at 2. now apply takes_search.
Qed.

Lemma learned_pattern_takes_example_back_witness :
  exists p,
    build_regex_from_example (py " [2024-01-15 10:00:00.123] ") = Some p
    /\ fullmatch p (strip (py " [2024-01-15 10:00:00.123] ")) <> None
    /\ search p (py " [2024-01-15 10:00:00.123] ") <> None.
Proof.
  apply (@learned_pattern_takes_example_back (py " [2024-01-15 10:00:00.123] ")).
  vm_compute. reflexivity.
Defined.

End LearnedPattern.
